(** * The learning-assistant front end: a shallow embedding of its client logic

    The development follows the React sources of the repository:
    - [Js]            the JavaScript built-ins the components rely on
    - [Helpers]       [frontend/src/utils/helpers.js]
    - [UploadTab]     [frontend/src/components/UploadTab.js]
    - [ContentItem]   the content card and the library status filter
    - [DebugToolbar]  the debug-trace panel
    - [ChatTab]       the chat component with its polling loop

    Strings are [string]s whose characters stand for code units below 256;
    numbers that the code only uses as integers are in [Z] or [N]. *)

From Stdlib Require Import ZArith NArith List String Ascii Bool Lia DecimalString.
Import ListNotations.

Local Open Scope string_scope.
Local Open Scope Z_scope.

(* ================================================================== *)
(** * Part I: definitions                                              *)
(* ================================================================== *)

(** ** JavaScript built-ins *)

Module Js.

(** [String.prototype.trim] strips WhiteSpace and LineTerminator code
    points: TAB, LF, VT, FF, CR, SP and NBSP are the ones below 256. *)
Definition is_whitespace (c : ascii) : bool :=
  match nat_of_ascii c with
  | 9%nat | 10%nat | 11%nat | 12%nat | 13%nat | 32%nat | 160%nat => true
  | _ => false
  end.

Fixpoint trimStart (s : string) : string :=
  match s with
  | EmptyString => EmptyString
  | String c r => if is_whitespace c then trimStart r else s
  end.

Fixpoint trimEnd (s : string) : string :=
  match s with
  | EmptyString => EmptyString
  | String c r =>
      match trimEnd r with
      | EmptyString => if is_whitespace c then EmptyString else String c EmptyString
      | r' => String c r'
      end
  end.

Definition trim (s : string) : string := trimEnd (trimStart s).

(** Truthiness of a string: every string but the empty one. *)
Definition truthy_string (s : string) : bool :=
  match s with EmptyString => false | _ => true end.

(** [toLowerCase] on code units below 256: A-Z, and the Latin-1 capitals
    192-222 with the multiplication sign 215 left alone. *)
Definition lower_char (c : ascii) : ascii :=
  let n := nat_of_ascii c in
  if ((65 <=? n) && (n <=? 90))%nat then ascii_of_nat (n + 32)
  else if ((192 <=? n) && (n <=? 222) && negb (n =? 215))%nat then ascii_of_nat (n + 32)
  else c.

Fixpoint toLowerCase (s : string) : string :=
  match s with
  | EmptyString => EmptyString
  | String c r => String (lower_char c) (toLowerCase r)
  end.

(** [s.split(sep)] for a one-character separator: never the empty array. *)
Fixpoint split (sep : ascii) (s : string) : list string :=
  match s with
  | EmptyString => [EmptyString]
  | String c r =>
      if Ascii.eqb c sep then EmptyString :: split sep r
      else match split sep r with
           | seg :: segs => String c seg :: segs
           | [] => [String c EmptyString]
           end
  end.

(** [arr.pop()] read as a value: the last element, [undefined] on the empty
    array (which [split] never returns). *)
Definition pop (l : list string) : option string :=
  match rev l with
  | [] => None
  | x :: _ => Some x
  end.

(** [arr.includes(x)] on an array of strings. *)
Definition includes (l : list string) (x : string) : bool :=
  existsb (String.eqb x) l.

(** The text of an integer-valued number in a template literal. *)
Definition num_str (z : Z) : string := NilZero.string_of_int (Z.to_int z).

(** [arr.join(sep)] on an array of strings. *)
Fixpoint join (sep : string) (l : list string) : string :=
  match l with
  | [] => EmptyString
  | [x] => x
  | x :: rest => x ++ sep ++ join sep rest
  end.

(** [s.replace(/\.[^/.]+$/, "")]: the leftmost dot that is followed, up to
    the end of the string, by one or more characters other than a slash and
    a dot; the match reaches the end, so everything from that dot on goes. *)
Fixpoint no_slash_no_dot (s : string) : bool :=
  match s with
  | EmptyString => true
  | String c r => negb (Ascii.eqb c "/") && negb (Ascii.eqb c ".") && no_slash_no_dot r
  end.

Fixpoint strip_last_extension (s : string) : string :=
  match s with
  | EmptyString => EmptyString
  | String c r =>
      if Ascii.eqb c "." && truthy_string r && no_slash_no_dot r
      then EmptyString
      else String c (strip_last_extension r)
  end.

End Js.

(** ** [utils/helpers.js] *)

Module Helpers.

(** [Number.MAX_SAFE_INTEGER], 2^53 - 1. *)
Definition MAX_SAFE_INTEGER : Z := 2 ^ 53 - 1.

(** [Number.isSafeInteger] on an integer.  A safe integer is a JS number
    on its own, so are the floor of its quotient by 60 and its remainder,
    and [Math.floor(n / 60)], [n % 60] and the printing of a template
    literal, which the code does on doubles, are for it the floor of the
    exact quotient, the exact remainder and the plain decimal numeral.
    Beyond this range the division is rounded and the numeral shortened
    (at 1e21 the code prints 16666666666666666000 hours), which the
    integers of [Z] do not follow. *)
Definition safe_integer (n : Z) : bool :=
  (- MAX_SAFE_INTEGER <=? n) && (n <=? MAX_SAFE_INTEGER).

(** What a caller can pass for [minutes]: nothing, [null], or a safe
    integer.  Other numbers (fractions, integers beyond the safe range,
    [NaN]) and other types are outside this type. *)
Inductive minutes_arg : Type :=
| MUndefined
| MNull
| MNum (n : Z) (safe : safe_integer n = true).

(** [!minutes] *)
Definition not_minutes (m : minutes_arg) : bool :=
  match m with
  | MUndefined | MNull => true
  | MNum n _ => n =? 0
  end.

(** [minutes === 0] *)
Definition is_zero (m : minutes_arg) : bool :=
  match m with
  | MNum n _ => n =? 0
  | _ => false
  end.

(** [formatStudyTime].  On a safe integer [Math.floor(minutes / 60)] is
    the floor of the exact quotient, [Z.div]; [%] takes the sign of the
    dividend, [Z.rem]. *)
Definition formatStudyTime (minutes : minutes_arg) : string :=
  if not_minutes minutes || is_zero minutes then "TBD"
  else match minutes with
       | MNum n _ =>
           if n <? 60 then Js.num_str n ++ " min"
           else
             let hours := n / 60 in
             let remainingMinutes := Z.rem n 60 in
             if remainingMinutes =? 0 then Js.num_str hours ++ "h"
             else Js.num_str hours ++ "h " ++ Js.num_str remainingMinutes ++ "m"
       | _ => "TBD"
       end.

End Helpers.

(** ** [components/UploadTab.js] *)

Module UploadTab.

Record file : Type := { file_name : string; file_size : N }.

Record form_data : Type := { name : string; content : string }.

Inductive toast : Type :=
| ToastError (msg : string)
| ToastSuccess (msg : string).

(** The component state that file selection touches, the toasts shown so
    far (newest last) and the files handed to a [FileReader]. *)
Record state : Type := {
  formData : form_data;
  toasts : list toast;
  reads : list file
}.

Definition allowedTypes : list string := [".txt"; ".md"].

(** ['.' + file.name.split('.').pop().toLowerCase()] *)
Definition fileExtension (f : file) : string :=
  match Js.pop (Js.split "." (file_name f)) with
  | Some seg => "." ++ Js.toLowerCase seg
  | None => "." (* not reached: [split] returns one segment at least *)
  end.

Definition maxSize : N := 10 * 1024 * 1024.

Definition add_toast (t : toast) (st : state) : state :=
  {| formData := formData st; toasts := toasts st ++ [t]; reads := reads st |}.

(** [handleFileSelect]: two early returns, then [reader.readAsText(file)]. *)
Definition handleFileSelect (f : file) (st : state) : state :=
  if negb (Js.includes allowedTypes (fileExtension f)) then
    add_toast (ToastError "Please select a .txt or .md file") st
  else if (maxSize <? file_size f)%N then
    add_toast (ToastError "File size must be less than 10MB") st
  else
    {| formData := formData st; toasts := toasts st; reads := reads st ++ [f] |}.

(** What a pending [FileReader] reports back. *)
Inductive read_result : Type :=
| Loaded (text : string)
| ReadFailed.

(** [reader.onload] and [reader.onerror] for the read of [f]. *)
Definition reader_done (f : file) (r : read_result) (st : state) : state :=
  match r with
  | Loaded text =>
      let prev := formData st in
      add_toast (ToastSuccess "File loaded successfully")
        {| formData :=
             {| name := if Js.truthy_string (name prev) then name prev
                        else Js.strip_last_extension (file_name f);
                content := text |};
           toasts := toasts st;
           reads := reads st |}
  | ReadFailed => add_toast (ToastError "Error reading file") st
  end.

(** Selecting [f] and letting every reader that the selection started
    report [r]: the reads started by this call are those after the ones that
    were pending before it. *)
Definition select_then_settle (f : file) (r : read_result) (st : state) : state :=
  let st1 := handleFileSelect f st in
  fold_left (fun acc g => reader_done g r acc)
            (skipn (List.length (reads st)) (reads st1)) st1.

End UploadTab.

(** ** The content card ([ContentItem]) and the library filter ([LibraryTab.js]) *)

Module Library.

(** A content record as the list endpoint delivers it; the nullable analysis
    fields are [None] until the analysis has filled them in. *)
Record content : Type := {
  id : Z;
  name : string;
  content_text : string;
  processed : bool;
  difficulty_level : option string;
  key_concepts : option (list string);
  estimated_study_time : option Z;
  created_at : string
}.

(** The status line of the card: [content.processed ? ... : ...]. *)
Definition status_icon (c : content) : string :=
  if processed c then "fas fa-check-circle status-processed"
  else "fas fa-spinner fa-spin status-processing".

Definition status_text (c : content) : string :=
  if processed c then "Analyzed" else "Analyzing...".

(** [getDifficultyClass] *)
Definition getDifficultyClass (level : option string) : string :=
  match level with
  | None => "meta-tag processing"
  | Some l => if Js.truthy_string l then "difficulty-badge difficulty-" ++ l
              else "meta-tag processing"
  end.

(** [renderConcepts]: nothing without concepts, else the first three tags
    and a "+N more" marker when [length - 3] is positive. *)
Record concepts_preview : Type := {
  visibleConcepts : list string;
  more : option Z
}.

Definition renderConcepts (c : content) : option concepts_preview :=
  match key_concepts c with
  | None => None
  | Some [] => None
  | Some ks =>
      let remainingCount := Z.of_nat (List.length ks) - 3 in
      Some {| visibleConcepts := firstn 3 ks;
              more := if 0 <? remainingCount then Some remainingCount else None |}
  end.

(** [filters] of [LibraryTab]; the status select offers "", "processed" and
    "processing". *)
Record filters : Type := {
  search : string;
  difficulty : string;
  status : string
}.

(** [s.includes(t)] on strings. *)
Fixpoint str_includes (s t : string) : bool :=
  String.prefix t s ||
  match s with
  | EmptyString => false
  | String _ r => str_includes r t
  end.

Definition matches_search (searchTerm : string) (c : content) : bool :=
  str_includes (Js.toLowerCase (name c)) searchTerm ||
  str_includes (Js.toLowerCase (content_text c)) searchTerm ||
  match key_concepts c with
  | Some ks => existsb (fun concept => str_includes (Js.toLowerCase concept) searchTerm) ks
  | None => false
  end.

Definition matches_difficulty (d : string) (c : content) : bool :=
  match difficulty_level c with
  | Some l => String.eqb l d
  | None => false
  end.

Definition matches_status (st : string) (c : content) : bool :=
  if String.eqb st "processed" then processed c
  else if String.eqb st "processing" then negb (processed c)
  else true.

(** [filterContents]: each filter applies only when its field is truthy. *)
Definition filterContents (f : filters) (contents : list content) : list content :=
  let filtered := contents in
  let filtered :=
    if Js.truthy_string (search f)
    then filter (matches_search (Js.toLowerCase (search f))) filtered else filtered in
  let filtered :=
    if Js.truthy_string (difficulty f)
    then filter (matches_difficulty (difficulty f)) filtered else filtered in
  if Js.truthy_string (status f)
  then filter (matches_status (status f)) filtered else filtered.

End Library.

(** ** The analysis worker's key-concept step *)

Module Analysis.

(** Modelled from the spec: the post-processing of the extracted key
    concepts in the analysis worker, which is back-end code and not among
    the sources. The spec has the list "capped at 5 concepts, deduplicated,
    order = relevance as returned by the extractor", duplicates being
    compared case-insensitively: the first occurrence of each concept is
    kept, in the extractor's order, and the result is cut to five. *)
Fixpoint dedup_ci (seen : list string) (raw : list string) : list string :=
  match raw with
  | [] => []
  | c :: rest =>
      if Js.includes seen (Js.toLowerCase c) then dedup_ci seen rest
      else c :: dedup_ci (Js.toLowerCase c :: seen) rest
  end.

Definition max_concepts : nat := 5.

Definition extract_key_concepts (raw : list string) : list string :=
  firstn max_concepts (dedup_ci [] raw).

(** Modelled from the spec: what the worker writes into the content record
    when the job succeeds ("update Content fields ... set processed=true"). *)
Definition analyzed (c : Library.content) (raw : list string)
    (level : string) (minutes : Z) : Library.content :=
  {| Library.id := Library.id c;
     Library.name := Library.name c;
     Library.content_text := Library.content_text c;
     Library.processed := true;
     Library.difficulty_level := Some level;
     Library.key_concepts := Some (extract_key_concepts raw);
     Library.estimated_study_time := Some minutes;
     Library.created_at := Library.created_at c |}.

End Analysis.

(** ** The debug panel ([DebugToolbar]) *)

Module DebugToolbar.

(** A property of a JSON payload: missing ([undefined]), [null], or there. *)
Inductive field (A : Type) : Type :=
| Absent
| Null
| Present (a : A).

Arguments Absent {A}.
Arguments Null {A}.
Arguments Present {A} a.

(** [x !== undefined] *)
Definition defined {A : Type} (x : field A) : bool :=
  match x with Absent => false | _ => true end.

(** What React prints for [{x}]: nothing for [undefined] and [null]. *)
Definition text_of (x : field string) : string :=
  match x with Present s => s | _ => "" end.

Definition number_of (x : field Z) : string :=
  match x with Present n => Js.num_str n | _ => "" end.

(** Truthiness of a string property. *)
Definition truthy_text (x : field string) : bool :=
  match x with Present s => Js.truthy_string s | _ => false end.

(** The query-analysis record of a debug trace; timings in milliseconds. *)
Record query_analysis : Type := {
  original_query : field string;
  extracted_keywords : field (list string);
  embedding_model : field string;
  search_time_ms : field Z;
  keyword_search_time_ms : field Z;
  vector_search_time_ms : field Z;
  total_indexed_contents : field Z;
  error : field string
}.

Record processing_info : Type := {
  generation_time_ms : field Z;
  model : field string;
  tokens_used : field Z;
  context_length : field Z
}.

Record debug_info : Type := {
  query_analysis_of : field query_analysis;
  processing_info_of : field processing_info
}.

(** One [debug-info-item]: the bold label, the text after it, and whether
    it carries the red error style. *)
Record info_item : Type := {
  label : string;
  value : string;
  red : bool
}.

Definition item (l v : string) : info_item :=
  {| label := l; value := v; red := false |}.

(** [c && <div .../>]: the element when the condition holds, else nothing. *)
Definition when (c : bool) (i : info_item) : list info_item :=
  if c then [i] else [].

(** [extracted_keywords && extracted_keywords.length > 0] *)
Definition has_keywords (x : field (list string)) : bool :=
  match x with
  | Present l => (0 <? List.length l)%nat
  | _ => false
  end.

Definition keywords_text (x : field (list string)) : string :=
  match x with Present l => Js.join ", " l | _ => "" end.

(** The items of the expanded query-analysis section, top to bottom. *)
Definition query_analysis_items (qa : query_analysis) : list info_item :=
  [item "Original Query:" (text_of (original_query qa))]
  ++ when (has_keywords (extracted_keywords qa))
       (item "Extracted Keywords:" (keywords_text (extracted_keywords qa)))
  ++ [item "Embedding Model:" (text_of (embedding_model qa));
      item "Total Search Time:" (number_of (search_time_ms qa) ++ "ms")]
  ++ when (defined (keyword_search_time_ms qa))
       (item "Keyword Search Time:" (number_of (keyword_search_time_ms qa) ++ "ms"))
  ++ when (defined (vector_search_time_ms qa))
       (item "Vector Search Time:" (number_of (vector_search_time_ms qa) ++ "ms"))
  ++ [item "Total Indexed Contents:" (number_of (total_indexed_contents qa))]
  ++ when (truthy_text (error qa))
       {| label := "Error:"; value := text_of (error qa); red := true |}.

(** The query-analysis section of the open panel: absent without
    [debugInfo?.query_analysis]; otherwise its header, and its items when
    [expandedSections.query] is set. *)
Record section : Type := {
  title : string;
  items : list info_item
}.

Definition query_section (expanded : bool) (debugInfo : option debug_info)
  : option section :=
  match debugInfo with
  | None => None
  | Some d =>
      match query_analysis_of d with
      | Present qa =>
          Some {| title := "Query Analysis";
                  items := if expanded then query_analysis_items qa else [] |}
      | _ => None
      end
  end.

End DebugToolbar.

(** ** The chat component ([ChatTab]) *)

Module ChatTab.

(** A message id: the temporary message takes [Date.now()], a number; the
    server's ids are numbers or strings, or missing. *)
Inductive js_id : Type :=
| IdUndefined
| IdNum (n : Z)
| IdStr (s : string).

(** [a !== b] on ids. *)
Definition id_neq (a b : js_id) : bool :=
  match a, b with
  | IdUndefined, IdUndefined => false
  | IdNum x, IdNum y => negb (x =? y)
  | IdStr x, IdStr y => negb (String.eqb x y)
  | _, _ => true
  end.

Record message : Type := {
  msg_id : js_id;
  role : string;
  content : string;
  timestamp : string
}.

Record session : Type := {
  session_id : string;
  title : string
}.

(** [response.data] of the messages endpoint: the bare array, or an object
    with [messages] and, possibly, [debug_info]. *)
Inductive response_data : Type :=
| DataArray (ms : list message)
| DataObject (ms : list message) (dbg : option DebugToolbar.debug_info).

(** [response.data.messages || response.data] *)
Definition newMessages (d : response_data) : list message :=
  match d with
  | DataArray ms => ms
  | DataObject ms _ => ms
  end.

(** [response.data.debug_info] *)
Definition debug_info_of (d : response_data) : option DebugToolbar.debug_info :=
  match d with
  | DataArray _ => None
  | DataObject _ dbg => dbg
  end.

Inductive toast : Type :=
| ToastSuccess (msg : string)
| ToastError (msg : string).

Inductive request : Type :=
| GetMessages (sid : string)
| PostMessage (sid : string) (content : string).

(** A live [setInterval]: its id, its period in milliseconds, and the
    session its callback closes over. *)
Record interval : Type := {
  interval_id : positive;
  period_ms : Z;
  polled_session : session
}.

(** The component state, with the browser's live intervals, the toasts
    shown and the requests issued so far (newest last). *)
Record state : Type := {
  currentSession : option session;
  messages : list message;
  messageInput : string;
  isSending : bool;
  isPolling : bool;
  debugInfo : option DebugToolbar.debug_info;
  pollingIntervalRef : option positive;
  intervals : list interval;
  next_interval : positive;
  toasts : list toast;
  requests : list request
}.

Definition setMessages (f : list message -> list message) (s : state) : state :=
  {| currentSession := currentSession s; messages := f (messages s);
     messageInput := messageInput s; isSending := isSending s;
     isPolling := isPolling s; debugInfo := debugInfo s;
     pollingIntervalRef := pollingIntervalRef s; intervals := intervals s;
     next_interval := next_interval s; toasts := toasts s;
     requests := requests s |}.

Definition setMessageInput (v : string) (s : state) : state :=
  {| currentSession := currentSession s; messages := messages s;
     messageInput := v; isSending := isSending s;
     isPolling := isPolling s; debugInfo := debugInfo s;
     pollingIntervalRef := pollingIntervalRef s; intervals := intervals s;
     next_interval := next_interval s; toasts := toasts s;
     requests := requests s |}.

Definition setIsSending (b : bool) (s : state) : state :=
  {| currentSession := currentSession s; messages := messages s;
     messageInput := messageInput s; isSending := b;
     isPolling := isPolling s; debugInfo := debugInfo s;
     pollingIntervalRef := pollingIntervalRef s; intervals := intervals s;
     next_interval := next_interval s; toasts := toasts s;
     requests := requests s |}.

Definition setIsPolling (b : bool) (s : state) : state :=
  {| currentSession := currentSession s; messages := messages s;
     messageInput := messageInput s; isSending := isSending s;
     isPolling := b; debugInfo := debugInfo s;
     pollingIntervalRef := pollingIntervalRef s; intervals := intervals s;
     next_interval := next_interval s; toasts := toasts s;
     requests := requests s |}.

Definition setDebugInfo (d : DebugToolbar.debug_info) (s : state) : state :=
  {| currentSession := currentSession s; messages := messages s;
     messageInput := messageInput s; isSending := isSending s;
     isPolling := isPolling s; debugInfo := Some d;
     pollingIntervalRef := pollingIntervalRef s; intervals := intervals s;
     next_interval := next_interval s; toasts := toasts s;
     requests := requests s |}.

Definition add_toast (t : toast) (s : state) : state :=
  {| currentSession := currentSession s; messages := messages s;
     messageInput := messageInput s; isSending := isSending s;
     isPolling := isPolling s; debugInfo := debugInfo s;
     pollingIntervalRef := pollingIntervalRef s; intervals := intervals s;
     next_interval := next_interval s; toasts := toasts s ++ [t];
     requests := requests s |}.

Definition add_request (r : request) (s : state) : state :=
  {| currentSession := currentSession s; messages := messages s;
     messageInput := messageInput s; isSending := isSending s;
     isPolling := isPolling s; debugInfo := debugInfo s;
     pollingIntervalRef := pollingIntervalRef s; intervals := intervals s;
     next_interval := next_interval s; toasts := toasts s;
     requests := requests s ++ [r] |}.

(** [pollingIntervalRef.current = setInterval(callback, 1000)]: the browser
    hands out a fresh positive id and keeps the interval alive. *)
Definition setInterval (period : Z) (cs : session) (s : state) : state :=
  {| currentSession := currentSession s; messages := messages s;
     messageInput := messageInput s; isSending := isSending s;
     isPolling := isPolling s; debugInfo := debugInfo s;
     pollingIntervalRef := Some (next_interval s);
     intervals := intervals s ++
       [{| interval_id := next_interval s; period_ms := period;
           polled_session := cs |}];
     next_interval := Pos.succ (next_interval s); toasts := toasts s;
     requests := requests s |}.

(** [clearInterval(ref.current); ref.current = null] *)
Definition clearInterval_ref (i : positive) (s : state) : state :=
  {| currentSession := currentSession s; messages := messages s;
     messageInput := messageInput s; isSending := isSending s;
     isPolling := isPolling s; debugInfo := debugInfo s;
     pollingIntervalRef := None;
     intervals := filter (fun t => negb (Pos.eqb (interval_id t) i)) (intervals s);
     next_interval := next_interval s; toasts := toasts s;
     requests := requests s |}.

(** [startPolling], called from a render in which [currentSession] is [cs]. *)
Definition startPolling (cs : session) (s : state) : state :=
  setInterval 1000 cs (setIsPolling true s).

(** [stopPolling]; an interval id is positive, hence truthy. *)
Definition stopPolling (s : state) : state :=
  let s := setIsPolling false s in
  match pollingIntervalRef s with
  | Some i => clearInterval_ref i s
  | None => s
  end.

(** How one poll request ends. *)
Inductive poll_outcome : Type :=
| PollOk (d : response_data)
| PollError.

(** [lastMessage && lastMessage.role === 'assistant'] with
    [lastMessage = newMessages[newMessages.length - 1]]. *)
Definition lastMessage (ms : list message) : option message :=
  nth_error ms (List.length ms - 1).

Definition last_is_assistant (ms : list message) : bool :=
  match lastMessage ms with
  | Some m => String.eqb (role m) "assistant"
  | None => false
  end.

(** The interval callback of [startPolling] for the interval [t], request
    and continuation taken as one step. *)
Definition poll_callback (t : interval) (o : poll_outcome) (s : state) : state :=
  let s := add_request (GetMessages (session_id (polled_session t))) s in
  match o with
  | PollOk d =>
      if last_is_assistant (newMessages d) then
        let s := setMessages (fun _ => newMessages d) s in
        let s := match debug_info_of d with
                 | Some dbg => setDebugInfo dbg s
                 | None => s
                 end in
        let s := stopPolling s in
        add_toast (ToastSuccess "AI has responded!") s
      else
        setMessages (fun _ => newMessages d) s
  | PollError => s
  end.

Definition find_interval (i : positive) (s : state) : option interval :=
  find (fun t => Pos.eqb (interval_id t) i) (intervals s).

(** The browser fires the interval [i] once: nothing happens when it has
    been cleared. *)
Definition tick (i : positive) (o : poll_outcome) (s : state) : state :=
  match find_interval i s with
  | Some t => poll_callback t o s
  | None => s
  end.

(** Successive firings of the interval [i], one outcome each. *)
Definition run_polls (i : positive) (os : list poll_outcome) (s : state) : state :=
  fold_left (fun acc o => tick i o acc) os s.

(** [Date.now()] and [new Date().toISOString()] at the time of a send. *)
Record clock : Type := {
  now : Z;
  iso : string
}.

(** How the POST ends: a response body, or a failure with the HTTP status,
    if there is one. *)
Inductive post_outcome : Type :=
| PostOk (d : response_data)
| PostFailed (http_status : option Z).

(** [!messageInput.trim() || !currentSession || isSending] *)
Definition send_blocked (s : state) : bool :=
  negb (Js.truthy_string (Js.trim (messageInput s)))
  || match currentSession s with None => true | Some _ => false end
  || isSending s.

Definition tempUserMessage (clk : clock) (s : state) : message :=
  {| msg_id := IdNum (now clk);
     role := "user";
     content := Js.trim (messageInput s);
     timestamp := iso clk |}.

(** What the pending POST of a send remembers: its temporary message and
    the session of the render it was started from. *)
Record pending_send : Type := {
  temp : message;
  send_session : session
}.

(** [sendMessage] up to the [await]: the guard, the optimistic append, the
    POST going out. *)
Definition sendMessage_begin (clk : clock) (s : state)
  : option (pending_send * state) :=
  if send_blocked s then None
  else match currentSession s with
       | None => None
       | Some cs =>
           let tmp := tempUserMessage clk s in
           let s1 := setMessageInput "" s in
           let s1 := setIsSending true s1 in
           let s1 := setMessages (fun prev => (prev ++ [tmp])%list) s1 in
           let s1 := add_request (PostMessage (session_id cs) (content tmp)) s1 in
           Some ({| temp := tmp; send_session := cs |}, s1)
       end.

(** The toast of the [catch] block: [error.response?.status === 401]. *)
Definition send_error_toast (http_status : option Z) : toast :=
  match http_status with
  | Some st =>
      if st =? 401 then ToastError "Please log in to send messages"
      else ToastError "Failed to send message"
  | None => ToastError "Failed to send message"
  end.

(** [sendMessage] after the [await]: the [try] continuation or the [catch]
    block, then [finally]. *)
Definition sendMessage_settle (p : pending_send) (o : post_outcome) (s : state)
  : state :=
  let s :=
    match o with
    | PostOk _ =>
        let s := startPolling (send_session p) s in
        add_toast (ToastSuccess "Message sent! AI is thinking...") s
    | PostFailed st =>
        let s := add_toast (send_error_toast st) s in
        setMessages (filter (fun msg => id_neq (msg_id msg) (msg_id (temp p)))) s
    end in
  setIsSending false s.

Definition sendMessage (clk : clock) (o : post_outcome) (s : state) : state :=
  match sendMessage_begin clk s with
  | None => s
  | Some (p, s1) => sendMessage_settle p o s1
  end.

(** The component as mounted: [useState] and [useRef] initial values, with
    a session selected. *)
Definition initial (cs : option session) : state :=
  {| currentSession := cs; messages := []; messageInput := "";
     isSending := false; isPolling := false; debugInfo := None;
     pollingIntervalRef := None; intervals := []; next_interval := 1%positive;
     toasts := []; requests := [] |}.

End ChatTab.

(** ** The message log behind the messages endpoint *)

Module Server.

(** Modelled from the spec: the message store and the two message
    endpoints of the gateway, which are back-end code and not among the
    sources. "Get session messages -> ordered by timestamp ascending" reads
    the log of the session, and reading "must not mutate state"; "Post
    message to session -> appends a user Message synchronously". The
    assistant's reply is appended later by the conversation engine, not by
    either endpoint. *)
Definition store : Type := list (string * list ChatTab.message).

Fixpoint log_of (sid : string) (st : store) : list ChatTab.message :=
  match st with
  | [] => []
  | (k, ms) :: rest => if String.eqb k sid then ms else log_of sid rest
  end.

Definition get_messages (sid : string) (st : store)
  : store * ChatTab.response_data :=
  (st, ChatTab.DataObject (log_of sid st) None).

End Server.

(** A poll of the interval [i] answered by the store: the request goes to
    the session the interval closes over. *)
Definition poll_store (i : positive) (sys : Server.store * ChatTab.state)
  : Server.store * ChatTab.state :=
  let (st, s) := sys in
  match ChatTab.find_interval i s with
  | Some t =>
      let (st', d) :=
        Server.get_messages (ChatTab.session_id (ChatTab.polled_session t)) st in
      (st', ChatTab.tick i (ChatTab.PollOk d) s)
  | None => (st, s)
  end.

(** ** More of [utils/helpers.js] *)

Module HelpersMore.

(** [s.substring(0, n)]: [n] is clamped to the length and to zero. *)
Fixpoint take (n : nat) (s : string) : string :=
  match n, s with
  | O, _ => EmptyString
  | S _, EmptyString => EmptyString
  | S n', String c r => String c (take n' r)
  end.

Definition substring0 (n : Z) (s : string) : string := take (Z.to_nat n) s.

(** [truncateText(text, maxLength = 100)]; [text] may be missing. *)
Definition truncateText (text : option string) (maxLength : option Z) : string :=
  let maxLength := match maxLength with Some m => m | None => 100 end in
  match text with
  | None => ""
  | Some text =>
      if negb (Js.truthy_string text) then ""
      else if Z.of_nat (String.length text) <=? maxLength then text
      else Js.trim (substring0 maxLength text) ++ "..."
  end.

(** [isValidFileType(file, allowedTypes = ['.txt', '.md'])] *)
Definition isValidFileType (file : option UploadTab.file)
    (allowedTypes : option (list string)) : bool :=
  let allowedTypes := match allowedTypes with Some l => l | None => [".txt"; ".md"] end in
  match file with
  | None => false
  | Some f =>
      if negb (Js.truthy_string (UploadTab.file_name f)) then false
      else Js.includes allowedTypes (UploadTab.fileExtension f)
  end.

(** [isValidFileSize(file, maxSizeInMB = 10)] *)
Definition isValidFileSize (file : option UploadTab.file) (maxSizeInMB : option N) : bool :=
  let maxSizeInMB := match maxSizeInMB with Some m => m | None => 10%N end in
  match file with
  | None => false
  | Some f =>
      let maxSizeInBytes := (maxSizeInMB * 1024 * 1024)%N in
      (UploadTab.file_size f <=? maxSizeInBytes)%N
  end.

End HelpersMore.

(** ** The rest of [UploadTab]: typing, submitting, clearing *)

Module UploadForm.

(** How [uploadContent] ends. *)
Inductive upload_outcome : Type :=
| Uploaded
| UploadFailed.

Inductive notice : Type :=
| NoticeError (msg : string)
| NoticeSuccess (msg : string)
| NoticeInfo (msg : string).

(** The form with what submitting touches: the busy flag, the toasts, the
    payloads handed to [uploadContent], the value of the file input and the
    number of [onUploadSuccess] calls. *)
Record state : Type := {
  formData : UploadTab.form_data;
  isLoading : bool;
  notices : list notice;
  uploads : list UploadTab.form_data;
  fileInputValue : string;
  successes : nat
}.

Definition emptyForm : UploadTab.form_data :=
  {| UploadTab.name := ""; UploadTab.content := "" |}.

(** [handleInputChange] for the two inputs of the form, named "name" and
    "content". *)
Inductive input_name : Type :=
| InputName
| InputContent.

Definition handleInputChange (field : input_name) (value : string) (st : state) : state :=
  {| formData :=
       match field with
       | InputName => {| UploadTab.name := value;
                         UploadTab.content := UploadTab.content (formData st) |}
       | InputContent => {| UploadTab.name := UploadTab.name (formData st);
                            UploadTab.content := value |}
       end;
     isLoading := isLoading st; notices := notices st; uploads := uploads st;
     fileInputValue := fileInputValue st; successes := successes st |}.

(** [!formData.name.trim() || !formData.content.trim()] *)
Definition incomplete (f : UploadTab.form_data) : bool :=
  negb (Js.truthy_string (Js.trim (UploadTab.name f)))
  || negb (Js.truthy_string (Js.trim (UploadTab.content f))).

(** [handleSubmit] up to the [await]; the flag tells whether the upload
    went out or the guard returned. *)
Definition handleSubmit_begin (st : state) : state * bool :=
  if incomplete (formData st) then
    ({| formData := formData st; isLoading := isLoading st;
        notices := notices st ++ [NoticeError "Please fill in both name and content"];
        uploads := uploads st; fileInputValue := fileInputValue st;
        successes := successes st |}, false)
  else
    ({| formData := formData st; isLoading := true; notices := notices st;
        uploads := uploads st ++ [formData st];
        fileInputValue := fileInputValue st; successes := successes st |}, true).

(** [handleSubmit] after the [await]: the [try] continuation or the
    [catch] block, then [finally]. *)
Definition handleSubmit_settle (o : upload_outcome) (st : state) : state :=
  match o with
  | Uploaded =>
      {| formData := emptyForm; isLoading := false;
         notices := notices st ++
           [NoticeSuccess "Content uploaded successfully! AI analysis in progress..."];
         uploads := uploads st; fileInputValue := ""; successes := S (successes st) |}
  | UploadFailed =>
      {| formData := formData st; isLoading := false;
         notices := notices st ++
           [NoticeError "Error uploading content. Please try again."];
         uploads := uploads st; fileInputValue := fileInputValue st;
         successes := successes st |}
  end.

Definition handleSubmit (o : upload_outcome) (st : state) : state :=
  let (st1, sent) := handleSubmit_begin st in
  if sent then handleSubmit_settle o st1 else st1.

Definition handleClear (st : state) : state :=
  {| formData := emptyForm; isLoading := isLoading st;
     notices := notices st ++ [NoticeInfo "Form cleared"];
     uploads := uploads st; fileInputValue := ""; successes := successes st |}.

End UploadForm.

(** ** The modal's concept list ([ContentModal]) *)

Module ContentModal.

(** [renderConcepts] of the modal: a placeholder without concepts, else one
    tag per concept. *)
Inductive concepts_view : Type :=
| AnalyzingConcepts
| ConceptTags (tags : list string).

Definition renderConcepts (c : Library.content) : concepts_view :=
  match Library.key_concepts c with
  | None => AnalyzingConcepts
  | Some [] => AnalyzingConcepts
  | Some ks => ConceptTags ks
  end.

End ContentModal.

(** ** Opening and closing the sections of the debug panel *)

Module DebugPanel.

(** [toggleSection] is called with three literals. *)
Inductive section_name : Type :=
| Passages
| Query
| Processing.

(** [expandedSections]: an object that starts as [{}]; a key is missing
    until its section is toggled for the first time. *)
Record expanded : Type := {
  passages : option bool;
  query : option bool;
  processing : option bool
}.

Definition no_sections : expanded :=
  {| passages := None; query := None; processing := None |}.

(** [prev[section]] *)
Definition get (k : section_name) (e : expanded) : option bool :=
  match k with
  | Passages => passages e
  | Query => query e
  | Processing => processing e
  end.

(** Truthiness of [prev[section]]: [undefined] and [false] are falsy. *)
Definition is_expanded (k : section_name) (e : expanded) : bool :=
  match get k e with
  | Some b => b
  | None => false
  end.

(** [{...prev, [section]: v}] *)
Definition set (k : section_name) (v : bool) (e : expanded) : expanded :=
  match k with
  | Passages => {| passages := Some v; query := query e; processing := processing e |}
  | Query => {| passages := passages e; query := Some v; processing := processing e |}
  | Processing => {| passages := passages e; query := query e; processing := Some v |}
  end.

(** [toggleSection] *)
Definition toggleSection (k : section_name) (e : expanded) : expanded :=
  set k (negb (is_expanded k e)) e.

(** The panel: [isOpen] and [expandedSections]. *)
Record state : Type := {
  isOpen : bool;
  expandedSections : expanded
}.

Definition initial : state := {| isOpen := false; expandedSections := no_sections |}.

(** The toggle button and the close button. *)
Definition toggle_open (st : state) : state :=
  {| isOpen := negb (isOpen st); expandedSections := expandedSections st |}.

Definition close (st : state) : state :=
  {| isOpen := false; expandedSections := expandedSections st |}.

Definition click_header (k : section_name) (st : state) : state :=
  {| isOpen := isOpen st; expandedSections := toggleSection k (expandedSections st) |}.

(** The query-analysis section as the panel renders it: nothing while the
    panel is closed. *)
Definition render_query_section (st : state) (debugInfo : option DebugToolbar.debug_info)
  : option DebugToolbar.section :=
  if isOpen st
  then DebugToolbar.query_section (is_expanded Query (expandedSections st)) debugInfo
  else None.

End DebugPanel.

(** ** Sessions in [ChatTab]: creating, deleting, selecting *)

Module Sessions.

(** The session list, which the component receives with its setter, next
    to the component's own state. *)
Record state : Type := {
  sessions : list ChatTab.session;
  chat : ChatTab.state
}.

Definition setCurrentSession (cs : option ChatTab.session) (s : ChatTab.state)
  : ChatTab.state :=
  {| ChatTab.currentSession := cs; ChatTab.messages := ChatTab.messages s;
     ChatTab.messageInput := ChatTab.messageInput s;
     ChatTab.isSending := ChatTab.isSending s; ChatTab.isPolling := ChatTab.isPolling s;
     ChatTab.debugInfo := ChatTab.debugInfo s;
     ChatTab.pollingIntervalRef := ChatTab.pollingIntervalRef s;
     ChatTab.intervals := ChatTab.intervals s;
     ChatTab.next_interval := ChatTab.next_interval s;
     ChatTab.toasts := ChatTab.toasts s; ChatTab.requests := ChatTab.requests s |}.

(** How a request of the session endpoints ends. *)
Inductive outcome (A : Type) : Type :=
| Done (a : A)
| Failed (http_status : option Z).

Arguments Done {A} a.
Arguments Failed {A} http_status.

(** The toast of a [catch] block: one text for status 401, one otherwise. *)
Definition error_toast (http_status : option Z) (login other : string) : ChatTab.toast :=
  match http_status with
  | Some st => if st =? 401 then ChatTab.ToastError login else ChatTab.ToastError other
  | None => ChatTab.ToastError other
  end.

(** [s.id !== sessionId] *)
Definition other_than (sessionId : string) (s : ChatTab.session) : bool :=
  negb (String.eqb (ChatTab.session_id s) sessionId).

(** [createNewSession] *)
Definition createNewSession (o : outcome ChatTab.session) (st : state) : state :=
  match o with
  | Done newSession =>
      {| sessions := newSession :: sessions st;
         chat := ChatTab.add_toast (ChatTab.ToastSuccess "New chat session created!")
                   (ChatTab.setMessages (fun _ => [])
                      (setCurrentSession (Some newSession) (chat st))) |}
  | Failed http_status =>
      {| sessions := sessions st;
         chat := ChatTab.add_toast
                   (error_toast http_status "Please log in to create a chat session"
                      "Failed to create new chat session")
                   (chat st) |}
  end.

(** What a pending DELETE of [deleteSession] remembers: the id, and the
    [currentSession] and [sessions] of the render the handler was called
    from, which its continuation closes over. *)
Record pending_delete : Type := {
  deleted_id : string;
  seen_current : option ChatTab.session;
  seen_sessions : list ChatTab.session
}.

(** [deleteSession] up to the [await]: the DELETE goes out, no state is
    set. *)
Definition deleteSession_begin (sessionId : string) (st : state) : pending_delete :=
  {| deleted_id := sessionId;
     seen_current := ChatTab.currentSession (chat st);
     seen_sessions := sessions st |}.

(** [deleteSession] after the [await], in the state [st] of that time.
    [setSessions(prev => ...)] filters the list of that time; the test
    [currentSession?.id === sessionId] and [remainingSessions] use what the
    handler saw when it was called. *)
Definition deleteSession_settle (p : pending_delete) (o : outcome unit) (st : state)
  : state :=
  match o with
  | Done _ =>
      let sessionId := deleted_id p in
      let c := chat st in
      let c :=
        match seen_current p with
        | Some cur =>
            if String.eqb (ChatTab.session_id cur) sessionId then
              let remainingSessions := filter (other_than sessionId) (seen_sessions p) in
              ChatTab.setMessages (fun _ => [])
                (setCurrentSession
                   (match remainingSessions with
                    | first :: _ => Some first
                    | [] => None
                    end) c)
            else c
        | None => c
        end in
      {| sessions := filter (other_than sessionId) (sessions st);
         chat := ChatTab.add_toast (ChatTab.ToastSuccess "Chat session deleted") c |}
  | Failed http_status =>
      {| sessions := sessions st;
         chat := ChatTab.add_toast
                   (error_toast http_status "Please log in to delete sessions"
                      "Failed to delete chat session")
                   (chat st) |}
  end.

(** [deleteSession] with its answer, when nothing else happens between
    the call and the answer. *)
Definition deleteSession (sessionId : string) (o : outcome unit) (st : state) : state :=
  deleteSession_settle (deleteSession_begin sessionId st) o st.

End Sessions.

(** ** [utils/auth.js] *)

Module Auth.

Definition TOKEN_KEY : string := "access_token".
Definition REFRESH_TOKEN_KEY : string := "refresh_token".
Definition USER_KEY : string := "user_info".

(** [localStorage] as [getItem] sees it: the pairs it holds. The storage is
    taken to be available, so that no access throws. *)
Definition storage : Type := list (string * string).

Fixpoint getItem (k : string) (st : storage) : option string :=
  match st with
  | [] => None
  | (k', v) :: rest => if String.eqb k' k then Some v else getItem k rest
  end.

Definition removeItem (k : string) (st : storage) : storage :=
  filter (fun kv => negb (String.eqb (fst kv) k)) st.

Definition setItem (k v : string) (st : storage) : storage :=
  (k, v) :: removeItem k st.

(** Truthiness of something that should be a string: [null], [undefined]
    and the empty string are falsy. *)
Definition truthy (v : option string) : bool :=
  match v with
  | Some s => Js.truthy_string s
  | None => false
  end.

Definition getAccessToken (st : storage) : option string := getItem TOKEN_KEY st.

Definition getRefreshToken (st : storage) : option string := getItem REFRESH_TOKEN_KEY st.

(** [setTokens]: the [throw] for a falsy token is caught inside, so the
    call stores nothing. *)
Definition setTokens (accessToken refreshToken : option string) (st : storage) : storage :=
  match accessToken, refreshToken with
  | Some a, Some r =>
      if negb (Js.truthy_string a) || negb (Js.truthy_string r) then st
      else setItem REFRESH_TOKEN_KEY r (setItem TOKEN_KEY a st)
  | _, _ => st
  end.

(** [setUserInfo(user)]: [Some json] stands for an object whose
    [JSON.stringify] text is [json]; anything else is refused. *)
Definition setUserInfo (user : option string) (st : storage) : storage :=
  match user with
  | Some json => setItem USER_KEY json st
  | None => st
  end.

Definition clearAuth (st : storage) : storage :=
  removeItem USER_KEY (removeItem REFRESH_TOKEN_KEY (removeItem TOKEN_KEY st)).

(** [!!getAccessToken()] *)
Definition isAuthenticated (st : storage) : bool := truthy (getAccessToken st).

(** The [Authorization] entry of [getAuthHeader()], if there is one. *)
Definition getAuthHeader (st : storage) : option string :=
  match getAccessToken st with
  | Some token => if Js.truthy_string token then Some ("Bearer " ++ token) else None
  | None => None
  end.

(** The body of a token reply: the two tokens, and the JSON text of the
    user object built from [user_id], [username] and [email]. *)
Record token_reply : Type := {
  access_token : option string;
  refresh_token : option string;
  user_json : string
}.

(** How the POST to [/api/auth/refresh] ends: no response, a response that
    is not [ok], or an [ok] response whose body parses or not. *)
Inductive refresh_reply : Type :=
| RefreshUnreachable
| RefreshRefused
| RefreshAnswered (body : option token_reply).

Record refresh_run : Type := {
  refreshed : bool;
  refresh_store : storage;
  refresh_requests : nat
}.

(** [refreshAccessToken] *)
Definition refreshAccessToken (reply : refresh_reply) (st : storage) : refresh_run :=
  if negb (truthy (getRefreshToken st)) then
    {| refreshed := false; refresh_store := st; refresh_requests := 0 |}
  else
    match reply with
    | RefreshAnswered (Some data) =>
        if truthy (access_token data) && truthy (refresh_token data) then
          {| refreshed := true;
             refresh_store :=
               setUserInfo (Some (user_json data))
                 (setTokens (access_token data) (refresh_token data) st);
             refresh_requests := 1 |}
        else {| refreshed := false; refresh_store := clearAuth st; refresh_requests := 1 |}
    | _ => {| refreshed := false; refresh_store := clearAuth st; refresh_requests := 1 |}
    end.

(** How a [fetch] ends, and what [authFetch] gives its caller: the error
    it throws for a first request that does not get through, the rejection
    of the retry passed on as it is, or a response. *)
Inductive fetch_reply : Type :=
| Unreachable
| Replied (status : Z) (body : string).

Inductive fetch_result : Type :=
| NetworkError (message : string)
| RetryRejected
| Response (status : Z) (body : string).

(** A run of [authFetch]: its result, the storage afterwards, the
    [Authorization] header of each request sent to the url, in order, and
    the number of refresh requests. *)
Record fetch_run : Type := {
  result : fetch_result;
  store : storage;
  sent : list (option string);
  refreshes : nat
}.

(** [authFetch(url, options)] for options without headers of their own, as
    [utils/api.js] calls it; [first] answers the request, [refresh] the
    refresh and [retry] the repeated request, where it comes to them. *)
Definition authFetch (first : fetch_reply) (refresh : refresh_reply) (retry : fetch_reply)
    (st : storage) : fetch_run :=
  let authorization := getAuthHeader st in
  match first with
  | Unreachable =>
      {| result := NetworkError "Network error. Please check your connection.";
         store := st; sent := [authorization]; refreshes := 0 |}
  | Replied status body =>
      if (status =? 401) && truthy (getRefreshToken st) then
        let r := refreshAccessToken refresh st in
        if refreshed r then
          let authorization' :=
            Some ("Bearer " ++ match getAccessToken (refresh_store r) with
                               | Some token => token
                               | None => "null"
                               end) in
          {| result := match retry with
                       | Unreachable => RetryRejected
                       | Replied status' body' => Response status' body'
                       end;
             store := refresh_store r;
             sent := [authorization; authorization'];
             refreshes := refresh_requests r |}
        else
          {| result := Response status body; store := refresh_store r;
             sent := [authorization]; refreshes := refresh_requests r |}
      else
        {| result := Response status body; store := st;
           sent := [authorization]; refreshes := 0 |}
  end.

End Auth.

(** ** The authentication context ([AuthContext]) and the sign-up form *)

Module AuthContext.

(** The body of an accepted login or sign-up: the tokens, [user_id] and
    the JSON text of the user object made of [user_id], [username] and
    [email]. *)
Record session_data : Type := {
  tokens : Auth.token_reply;
  user_id : option Z
}.

(** How the request ends: no response (with the message of the error), a
    response that is not [ok] (with the [error] of its body, if it has
    one), or an [ok] response whose body parses or not (with the message of
    the parse error). *)
Inductive reply : Type :=
| NoResponse (message : string)
| Refused (error : option string)
| Accepted (data : session_data)
| Unparsable (message : string).

Inductive post : Type :=
| LoginPost (username password : string)
| SignupPost (username email password first_name last_name : string).

(** The provider's state with the storage behind it and the requests
    issued so far. *)
Record state : Type := {
  user : option string;
  isAuthenticated : bool;
  store : Auth.storage;
  posts : list post
}.

(** What [login] and [signup] resolve to. *)
Record outcome : Type := {
  success : bool;
  error : option string
}.

Definition failure (message : string) : outcome :=
  {| success := false; error := Some message |}.

(** [!x]: falsy for [0], [null] and [undefined]. *)
Definition truthy_id (v : option Z) : bool :=
  match v with
  | Some n => negb (n =? 0)
  | None => false
  end.

Definition add_post (p : post) (st : state) : state :=
  {| user := user st; isAuthenticated := isAuthenticated st; store := store st;
     posts := posts st ++ [p] |}.

(** What follows the request in [login] and in [signup]: the two are the
    same but for the fallback message. *)
Definition settle (fallback : string) (r : reply) (st : state) : outcome * state :=
  match r with
  | NoResponse message => (failure message, st)
  | Refused e =>
      (failure (if Auth.truthy e then match e with Some m => m | None => fallback end
                else fallback), st)
  | Unparsable message => (failure message, st)
  | Accepted data =>
      if negb (Auth.truthy (Auth.access_token (tokens data)))
         || negb (Auth.truthy (Auth.refresh_token (tokens data)))
         || negb (truthy_id (user_id data))
      then (failure "Invalid response from server", st)
      else
        ({| success := true; error := None |},
         {| user := Some (Auth.user_json (tokens data));
            isAuthenticated := true;
            store := Auth.setUserInfo (Some (Auth.user_json (tokens data)))
                       (Auth.setTokens (Auth.access_token (tokens data))
                          (Auth.refresh_token (tokens data)) (store st));
            posts := posts st |})
  end.

(** [login] *)
Definition login (username password : string) (r : reply) (st : state) : outcome * state :=
  if negb (Js.truthy_string username) || negb (Js.truthy_string (Js.trim username)) then
    (failure "Username is required", st)
  else if negb (Js.truthy_string password) then
    (failure "Password is required", st)
  else
    settle "Login failed" r (add_post (LoginPost (Js.trim username) password) st).

(** [signup] *)
Definition signup (username email password firstName lastName : string)
    (r : reply) (st : state) : outcome * state :=
  if negb (Js.truthy_string username) || negb (Js.truthy_string (Js.trim username)) then
    (failure "Username is required", st)
  else if negb (Js.truthy_string email) || negb (Js.truthy_string (Js.trim email)) then
    (failure "Email is required", st)
  else if negb (Js.truthy_string password) || (String.length password <? 8)%nat then
    (failure "Password must be at least 8 characters long", st)
  else if negb (Library.str_includes email "@") then
    (failure "Please provide a valid email address", st)
  else
    settle "Signup failed" r
      (add_post (SignupPost (Js.trim username) (Js.toLowerCase (Js.trim email)) password
                   (Js.trim firstName) (Js.trim lastName)) st).

(** [logout] *)
Definition logout (st : state) : state :=
  {| user := None; isAuthenticated := false; store := Auth.clearAuth (store st);
     posts := posts st |}.

End AuthContext.

Module SignupForm.

Record form : Type := {
  username : string;
  email : string;
  password : string;
  confirmPassword : string;
  firstName : string;
  lastName : string
}.

(** [validateForm]: the [newErrors] object, its keys in the order they are
    set, and whether it has no key. *)
Definition validateForm (f : form) : list (string * string) * bool :=
  let newErrors :=
    ((if (String.length (password f) <? 8)%nat
      then [("password", "Password must be at least 8 characters long")] else [])
     ++ (if negb (String.eqb (password f) (confirmPassword f))
         then [("confirmPassword", "Passwords do not match")] else [])
     ++ (if negb (Library.str_includes (email f) "@")
         then [("email", "Please enter a valid email address")] else []))%list in
  (newErrors, (List.length newErrors =? 0)%nat).

Inductive toast : Type :=
| ToastSuccess (msg : string)
| ToastError (msg : string).

(** The form component: its [errors], its busy flag and its toasts, with
    the provider underneath. *)
Record state : Type := {
  errors : list (string * string);
  isLoading : bool;
  toasts : list toast;
  auth : AuthContext.state
}.

(** [handleSubmit] with the way the sign-up request ends. *)
Definition handleSubmit (f : form) (r : AuthContext.reply) (st : state) : state :=
  let (newErrors, valid) := validateForm f in
  if negb valid then
    {| errors := newErrors; isLoading := isLoading st; toasts := toasts st;
       auth := auth st |}
  else
    let (res, auth') :=
      AuthContext.signup (username f) (email f) (password f) (firstName f) (lastName f)
        r (auth st) in
    {| errors := newErrors; isLoading := false;
       toasts := toasts st ++
         [if AuthContext.success res
          then ToastSuccess "Account created successfully! Welcome aboard!"
          else ToastError
                 (match AuthContext.error res with
                  | Some m => if Js.truthy_string m then m else "Signup failed"
                  | None => "Signup failed"
                  end)];
       auth := auth' |}.

End SignupForm.

(** ** Vocabulary of the further statements *)

(** The string is empty or starts with a character that is not white
    space. *)
Definition starts_clean (s : string) : Prop :=
  match s with
  | EmptyString => True
  | String c _ => Js.is_whitespace c = false
  end.

(** The string holds white space only. *)
Fixpoint all_whitespace (s : string) : bool :=
  match s with
  | EmptyString => true
  | String c r => Js.is_whitespace c && all_whitespace r
  end.

(** A content passes the filters that are switched on. *)
Definition passes (f : Library.filters) (c : Library.content) : bool :=
  (negb (Js.truthy_string (Library.search f))
   || Library.matches_search (Js.toLowerCase (Library.search f)) c)
  && (negb (Js.truthy_string (Library.difficulty f))
      || Library.matches_difficulty (Library.difficulty f) c)
  && (negb (Js.truthy_string (Library.status f))
      || Library.matches_status (Library.status f) c).

Definition with_status (st : string) (f : Library.filters) : Library.filters :=
  {| Library.search := Library.search f; Library.difficulty := Library.difficulty f;
     Library.status := st |}.

Definition demo_content (processed : bool) : Library.content :=
  {| Library.id := 7; Library.name := "Intro to ML";
     Library.content_text := "Machine learning is a subset of AI...";
     Library.processed := processed;
     Library.difficulty_level := if processed then Some "beginner" else None;
     Library.key_concepts :=
       if processed then Some ["Machine Learning"; "AI"; "Models"; "Data"] else None;
     Library.estimated_study_time := if processed then Some 25 else None;
     Library.created_at := "2024-01-01T00:00:00Z" |}.

(** What happens to the upload form: typing into a field, a file that has
    been read, a submit with the way the upload ends, a click on Clear. *)
Inductive form_event : Type :=
| Typed (field : UploadForm.input_name) (value : string)
| FileLoaded (f : UploadTab.file) (text : string)
| Submitted (o : UploadForm.upload_outcome)
| Cleared.

Definition form_step (e : form_event) (st : UploadForm.state) : UploadForm.state :=
  match e with
  | Typed field value => UploadForm.handleInputChange field value st
  | FileLoaded f text =>
      {| UploadForm.formData :=
           UploadTab.formData
             (UploadTab.reader_done f (UploadTab.Loaded text)
                {| UploadTab.formData := UploadForm.formData st;
                   UploadTab.toasts := []; UploadTab.reads := [] |});
         UploadForm.isLoading := UploadForm.isLoading st;
         UploadForm.notices :=
           (UploadForm.notices st ++ [UploadForm.NoticeSuccess "File loaded successfully"])%list;
         UploadForm.uploads := UploadForm.uploads st;
         UploadForm.fileInputValue := UploadForm.fileInputValue st;
         UploadForm.successes := UploadForm.successes st |}
  | Submitted o => UploadForm.handleSubmit o st
  | Cleared => UploadForm.handleClear st
  end.

Definition form_run (es : list form_event) (st : UploadForm.state) : UploadForm.state :=
  fold_left (fun acc e => form_step e acc) es st.

Definition form_initial : UploadForm.state :=
  {| UploadForm.formData := UploadForm.emptyForm; UploadForm.isLoading := false;
     UploadForm.notices := []; UploadForm.uploads := [];
     UploadForm.fileInputValue := ""; UploadForm.successes := 0 |}.

(** Neither the name nor the content is blank. *)
Definition filled_in (f : UploadTab.form_data) : Prop :=
  all_whitespace (UploadTab.name f) = false /\
  all_whitespace (UploadTab.content f) = false.

(** The string holds no dot. *)
Fixpoint no_dot (s : string) : bool :=
  match s with
  | EmptyString => true
  | String c r => negb (Ascii.eqb c ".") && no_dot r
  end.

(** What happens to the chat component: the user types, a send with the
    way its POST ends, an interval firing with the way its poll ends. *)
Inductive chat_event : Type :=
| ChatTyped (text : string)
| ChatSent (clk : ChatTab.clock) (o : ChatTab.post_outcome)
| PollFired (i : positive) (o : ChatTab.poll_outcome).

Definition chat_step (e : chat_event) (s : ChatTab.state) : ChatTab.state :=
  match e with
  | ChatTyped text => ChatTab.setMessageInput text s
  | ChatSent clk o => ChatTab.sendMessage clk o s
  | PollFired i o => ChatTab.tick i o s
  end.

Definition chat_run (es : list chat_event) (s : ChatTab.state) : ChatTab.state :=
  fold_left (fun acc e => chat_step e acc) es s.

(** The typing indicator tells the truth: it is on exactly while the ref
    holds an interval, and that interval is live and fires once a second. *)
Definition indicator_consistent (s : ChatTab.state) : Prop :=
  match ChatTab.pollingIntervalRef s with
  | Some i =>
      ChatTab.isPolling s = true /\
      exists t, ChatTab.find_interval i s = Some t /\ ChatTab.period_ms t = 1000
  | None => ChatTab.isPolling s = false
  end.

(** A request of the chat component goes to the session [cs], and a
    message posted is not blank and carries no white space around it. *)
Definition well_addressed (cs : option ChatTab.session) (r : ChatTab.request) : Prop :=
  exists c, cs = Some c /\
    match r with
    | ChatTab.GetMessages sid => sid = ChatTab.session_id c
    | ChatTab.PostMessage sid body =>
        sid = ChatTab.session_id c /\ body <> "" /\ Js.trim body = body
    end.

(** What can be done to the storage through [auth.js]. *)
Inductive auth_op : Type :=
| OpSetTokens (accessToken refreshToken : option string)
| OpSetUserInfo (user : option string)
| OpClearAuth
| OpRefresh (reply : Auth.refresh_reply).

Definition auth_apply (op : auth_op) (st : Auth.storage) : Auth.storage :=
  match op with
  | OpSetTokens a r => Auth.setTokens a r st
  | OpSetUserInfo u => Auth.setUserInfo u st
  | OpClearAuth => Auth.clearAuth st
  | OpRefresh reply => Auth.refresh_store (Auth.refreshAccessToken reply st)
  end.

Definition auth_run (ops : list auth_op) (st : Auth.storage) : Auth.storage :=
  fold_left (fun acc op => auth_apply op acc) ops st.

(** The storage holds nothing under the three keys of [auth.js]. *)
Definition signed_out (st : Auth.storage) : Prop :=
  Auth.getAccessToken st = None /\
  Auth.getRefreshToken st = None /\
  Auth.getItem Auth.USER_KEY st = None.

Definition demo_tokens : Auth.token_reply :=
  {| Auth.access_token := Some "eyJhbGciOi.new"; Auth.refresh_token := Some "r-5521";
     Auth.user_json := "{id:7,username:ada,email:ada@example.org}" |}.

(** ** Vocabulary of the chat statements *)

(** The list ends in a message whose role is "assistant". *)
Definition ends_with_assistant (ms : list ChatTab.message) : Prop :=
  exists init m, ms = (init ++ [m])%list /\ ChatTab.role m = "assistant".

(** A poll that gives the loop no reason to stop: it failed, or its list
    does not end in an assistant message. *)
Definition inconclusive (o : ChatTab.poll_outcome) : Prop :=
  match o with
  | ChatTab.PollOk d => ~ ends_with_assistant (ChatTab.newMessages d)
  | ChatTab.PollError => True
  end.

(** An event that gives no loop a reason to stop: the user types, a
    message is sent, or an interval fires and its poll is inconclusive. *)
Definition no_answer (e : chat_event) : Prop :=
  match e with
  | PollFired _ o => inconclusive o
  | _ => True
  end.

(** The notices of [sendMessage]: the one after the POST, the two of its
    [catch] block. *)
Definition send_notice (x : ChatTab.toast) : Prop :=
  x = ChatTab.ToastSuccess "Message sent! AI is thinking..." \/
  x = ChatTab.ToastError "Please log in to send messages" \/
  x = ChatTab.ToastError "Failed to send message".

(** Interval ids come from the browser's counter: every live interval has
    an id below the next one to be handed out. *)
Definition fresh_ids (s : ChatTab.state) : Prop :=
  Forall (fun t => (ChatTab.interval_id t < ChatTab.next_interval s)%positive)
         (ChatTab.intervals s).

(** The loop [t] is running: the indicator is on, the ref holds its id and
    the browser still fires it. *)
Definition polling (t : ChatTab.interval) (s : ChatTab.state) : Prop :=
  ChatTab.isPolling s = true /\
  ChatTab.pollingIntervalRef s = Some (ChatTab.interval_id t) /\
  ChatTab.find_interval (ChatTab.interval_id t) s = Some t.

(** The part of the state a user can see. *)
Definition shown (s : ChatTab.state)
  : list ChatTab.message * bool * option DebugToolbar.debug_info :=
  (ChatTab.messages s, ChatTab.isPolling s, ChatTab.debugInfo s).

Definition demo_session : ChatTab.session :=
  {| ChatTab.session_id := "7f3c"; ChatTab.title := "Chat Session" |}.

Definition demo_user_message : ChatTab.message :=
  {| ChatTab.msg_id := ChatTab.IdNum 41; ChatTab.role := "user";
     ChatTab.content := "What is supervised learning?";
     ChatTab.timestamp := "2024-05-01T10:00:00.000Z" |}.

Definition demo_assistant_message : ChatTab.message :=
  {| ChatTab.msg_id := ChatTab.IdNum 42; ChatTab.role := "assistant";
     ChatTab.content := "Supervised learning trains a model on labelled examples.";
     ChatTab.timestamp := "2024-05-01T10:00:04.000Z" |}.

(** A clock reading, a state with a message typed in, and a store whose
    log holds the user message alone, for the examples below. *)
Definition demo_clock : ChatTab.clock :=
  {| ChatTab.now := 1714557600000; ChatTab.iso := "2024-05-01T10:00:00.000Z" |}.

Definition demo_typing : ChatTab.state :=
  ChatTab.setMessageInput "  What is supervised learning? "
    (ChatTab.initial (Some demo_session)).

Definition demo_store : Server.store := [("7f3c", [demo_user_message])].

Definition demo_polling : ChatTab.state :=
  ChatTab.startPolling demo_session (ChatTab.initial (Some demo_session)).

Definition demo_interval : ChatTab.interval :=
  {| ChatTab.interval_id := 1; ChatTab.period_ms := 1000;
     ChatTab.polled_session := demo_session |}.

(* ================================================================== *)
(** * Part II: theorems                                                *)
(* ================================================================== *)

(** Case analysis on the ref of [s], pushed through the setters. *)
Ltac ref_cases s :=
  let E := fresh "Eref" in
  destruct (ChatTab.pollingIntervalRef s) eqn:E;
  repeat (progress (cbn; rewrite ?E));
  try reflexivity.

(** ** [formatStudyTime] *)

Lemma formatStudyTime_under_an_hour (m : Z) (Hsafe : Helpers.safe_integer m = true) :
  1 <= m < 60 ->
  Helpers.formatStudyTime (Helpers.MNum m Hsafe) = Js.num_str m ++ " min".
Proof.
  intros [Hlo Hhi]. unfold Helpers.formatStudyTime. simpl.
  destruct (Z.eqb_spec m 0) as [E | _]; [lia |]. simpl.
  destruct (Z.ltb_spec m 60) as [_ | E]; [reflexivity | lia].
Qed.

Lemma formatStudyTime_hours (m : Z) (Hsafe : Helpers.safe_integer m = true) :
  60 <= m ->
  Helpers.formatStudyTime (Helpers.MNum m Hsafe) =
    if m mod 60 =? 0 then Js.num_str (m / 60) ++ "h"
    else Js.num_str (m / 60) ++ "h " ++ Js.num_str (m mod 60) ++ "m".
Proof.
  intros Hm. unfold Helpers.formatStudyTime. simpl.
  destruct (Z.eqb_spec m 0) as [E | _]; [lia |]. simpl.
  destruct (Z.ltb_spec m 60) as [E | _]; [lia |].
  rewrite Z.rem_mod_nonneg by lia. reflexivity.
Qed.

(** C10. [formatStudyTime] decomposes its argument faithfully, for the
    integers a JS number holds exactly (up to [Number.MAX_SAFE_INTEGER],
    2^53 - 1): an integer from 1 to 59 is printed as "<minutes> min"; a
    safe integer from 60 on is split into h = minutes div 60 and
    m = minutes mod 60 with h*60 + m = minutes, printed "<h>h" when m = 0
    and "<h>h <m>m" otherwise; 0, null and undefined give "TBD". *)
Theorem formatStudyTime_faithful (minutes : Z)
    (Hsafe : Helpers.safe_integer minutes = true) (Hpos : 1 <= minutes) :
  (minutes < 60 ->
     Helpers.formatStudyTime (Helpers.MNum minutes Hsafe) = Js.num_str minutes ++ " min") /\
  (60 <= minutes ->
     let h := minutes / 60 in
     let m := minutes mod 60 in
     h * 60 + m = minutes /\ 0 <= m < 60 /\ 1 <= h /\
     (m = 0 ->
        Helpers.formatStudyTime (Helpers.MNum minutes Hsafe) = Js.num_str h ++ "h") /\
     (m <> 0 ->
        Helpers.formatStudyTime (Helpers.MNum minutes Hsafe) =
          Js.num_str h ++ "h " ++ Js.num_str m ++ "m")) /\
  Helpers.formatStudyTime (Helpers.MNum 0 eq_refl) = "TBD" /\
  Helpers.formatStudyTime Helpers.MNull = "TBD" /\
  Helpers.formatStudyTime Helpers.MUndefined = "TBD".
Proof.
  split; [| split; [| repeat split]].
  - intros Hlt. apply formatStudyTime_under_an_hour. lia.
  - intros Hge h m.
    assert (Hdm : minutes = 60 * h + m) by (apply Z.div_mod; lia).
    assert (Hr : 0 <= m < 60) by (apply Z.mod_pos_bound; lia).
    assert (Hh : 1 <= h) by (subst h; apply Z.div_le_lower_bound; lia).
    split; [lia |]. split; [exact Hr |]. split; [exact Hh |].
    pose proof (formatStudyTime_hours minutes Hsafe Hge) as Hfmt.
    fold h m in Hfmt.
    split; intros Hm0.
    + rewrite Hfmt. destruct (Z.eqb_spec m 0) as [_ | E]; [reflexivity | contradiction].
    + rewrite Hfmt. destruct (Z.eqb_spec m 0) as [E | _]; [contradiction | reflexivity].
Qed.

Lemma formatStudyTime_faithful_witness :
  Helpers.formatStudyTime (Helpers.MNum 45 eq_refl) = "45 min" /\
  Helpers.formatStudyTime (Helpers.MNum 120 eq_refl) = "2h" /\
  Helpers.formatStudyTime (Helpers.MNum 125 eq_refl) = "2h 5m" /\
  Helpers.formatStudyTime (Helpers.MNum Helpers.MAX_SAFE_INTEGER eq_refl) =
    "150119987579016h 31m".
Proof.
  split; [| split; [| split]].
  - destruct (formatStudyTime_faithful 45 eq_refl ltac:(lia)) as [H _]. apply H. lia.
  - destruct (formatStudyTime_faithful 120 eq_refl ltac:(lia)) as [_ [H _]].
    destruct (H ltac:(lia)) as [_ [_ [_ [H0 _]]]]. apply H0. reflexivity.
  - destruct (formatStudyTime_faithful 125 eq_refl ltac:(lia)) as [_ [H _]].
    destruct (H ltac:(lia)) as [_ [_ [_ [_ H1]]]]. apply H1. discriminate.
  - destruct (formatStudyTime_faithful Helpers.MAX_SAFE_INTEGER eq_refl
                ltac:(vm_compute; discriminate)) as [_ [H _]].
    destruct (H ltac:(vm_compute; discriminate)) as [_ [_ [_ [_ H1]]]].
    apply H1. vm_compute. discriminate.
Defined.

(** ** File selection in [UploadTab] *)

(** [split] returns at least one segment, so [pop] always finds one. *)
Lemma split_pop_some (sep : ascii) (s : string) :
  exists seg, Js.pop (Js.split sep s) = Some seg.
Proof.
  assert (Hne : Js.split sep s <> []).
  { destruct s as [| c r]; simpl; [discriminate |].
    destruct (Ascii.eqb c sep); [discriminate |].
    destruct (Js.split sep r); discriminate. }
  unfold Js.pop. destruct (rev (Js.split sep s)) as [| x l] eqn:E.
  - apply (f_equal (@rev string)) in E. rewrite rev_involutive in E. contradiction.
  - exists x. reflexivity.
Qed.

Lemma includes_allowedTypes (ext : string) :
  Js.includes UploadTab.allowedTypes ext = true <-> ext = ".txt" \/ ext = ".md".
Proof.
  unfold Js.includes, UploadTab.allowedTypes. simpl.
  destruct (String.eqb_spec ext ".txt") as [E1 | N1];
    destruct (String.eqb_spec ext ".md") as [E2 | N2]; simpl; split; intros H;
    try tauto; try discriminate; destruct H; contradiction.
Qed.

Lemma handleFileSelect_keeps_form (f : UploadTab.file) (st : UploadTab.state) :
  UploadTab.formData (UploadTab.handleFileSelect f st) = UploadTab.formData st.
Proof.
  unfold UploadTab.handleFileSelect.
  destruct (negb _); [reflexivity |]. destruct (N.ltb _ _); reflexivity.
Qed.

Lemma app_one_neq {A : Type} (l : list A) (x : A) : (l ++ [x])%list <> l.
Proof.
  intros H. apply (f_equal (@List.length A)) in H.
  rewrite length_app in H. simpl in H. lia.
Qed.

(** C9. A file is handed to the reader only if its extension, lower-cased,
    is .txt or .md and its size is at most 10 * 1024 * 1024 bytes; for a
    file that violates either condition the form data (name and content)
    stays as it was and no read is started, whatever a reader would have
    reported. *)
Theorem handleFileSelect_gate (f : UploadTab.file) (st : UploadTab.state) :
  let valid :=
    (UploadTab.fileExtension f = ".txt" \/ UploadTab.fileExtension f = ".md") /\
    (UploadTab.file_size f <= 10 * 1024 * 1024)%N in
  (UploadTab.reads (UploadTab.handleFileSelect f st) <> UploadTab.reads st -> valid) /\
  (valid ->
     UploadTab.reads (UploadTab.handleFileSelect f st) = (UploadTab.reads st ++ [f])%list) /\
  (~ valid ->
     UploadTab.reads (UploadTab.handleFileSelect f st) = UploadTab.reads st /\
     UploadTab.formData (UploadTab.handleFileSelect f st) = UploadTab.formData st /\
     forall r, UploadTab.formData (UploadTab.select_then_settle f r st)
               = UploadTab.formData st).
Proof.
  intros valid.
  assert (Hcases :
    (valid /\ UploadTab.handleFileSelect f st =
       {| UploadTab.formData := UploadTab.formData st;
          UploadTab.toasts := UploadTab.toasts st;
          UploadTab.reads := (UploadTab.reads st ++ [f])%list |}) \/
    (~ valid /\ UploadTab.reads (UploadTab.handleFileSelect f st) = UploadTab.reads st)).
  { unfold UploadTab.handleFileSelect, valid.
    destruct (Js.includes UploadTab.allowedTypes (UploadTab.fileExtension f)) eqn:Hinc; simpl.
    - apply includes_allowedTypes in Hinc.
      change UploadTab.maxSize with (10 * 1024 * 1024)%N.
      destruct (N.ltb_spec (10 * 1024 * 1024) (UploadTab.file_size f)) as [Hbig | Hok].
      + right. split; [| reflexivity]. intros [_ Hle]. lia.
      + left. split; [split; assumption | reflexivity].
    - right. split; [| reflexivity]. intros [Hext _].
      apply includes_allowedTypes in Hext. congruence. }
  split; [| split].
  - intros Hneq. destruct Hcases as [[Hv _] | [_ Hsame]]; [exact Hv | contradiction].
  - intros Hv. destruct Hcases as [[_ Heq] | [Hnv _]]; [| contradiction].
    rewrite Heq. reflexivity.
  - intros Hnv. destruct Hcases as [[Hv _] | [_ Hsame]]; [contradiction |].
    split; [exact Hsame |]. split; [apply handleFileSelect_keeps_form |].
    intros r. unfold UploadTab.select_then_settle. rewrite Hsame.
    rewrite skipn_all. simpl. apply handleFileSelect_keeps_form.
Qed.

Lemma handleFileSelect_gate_witness :
  let f := {| UploadTab.file_name := "slides.PDF"; UploadTab.file_size := 2048 |} in
  let st := {| UploadTab.formData := {| UploadTab.name := "draft"; UploadTab.content := "text" |};
               UploadTab.toasts := []; UploadTab.reads := [] |} in
  UploadTab.formData (UploadTab.select_then_settle f (UploadTab.Loaded "%PDF") st)
  = UploadTab.formData st.
Proof.
  intros f st.
  destruct (handleFileSelect_gate f st) as [_ [_ H]].
  apply H. vm_compute. intros [[E | E] _]; discriminate.
Defined.

(** A name in upper case with an allowed extension passes, and the loaded
    text fills the form, the name taken from the file when it was empty. *)
Example select_notes_md :
  UploadTab.formData
    (UploadTab.select_then_settle
       {| UploadTab.file_name := "Notes.v2.MD"; UploadTab.file_size := 10485760 |}
       (UploadTab.Loaded "# title")
       {| UploadTab.formData := {| UploadTab.name := ""; UploadTab.content := "" |};
          UploadTab.toasts := []; UploadTab.reads := [] |})
  = {| UploadTab.name := "Notes.v2"; UploadTab.content := "# title" |}.
Proof. reflexivity. Qed.

(** ** The status a content shows *)

Lemma status_text_two_values (c : Library.content) :
  Library.status_text c = "Analyzed" \/ Library.status_text c = "Analyzing...".
Proof. unfold Library.status_text. destruct (Library.processed c); auto. Qed.

(** C5, as stated, fails: no three contents are shown with three different
    statuses, so there is no third, "failed", status on the client. *)
Lemma client_status_not_three_valued :
  ~ (exists c1 c2 c3 : Library.content,
       Library.status_text c1 <> Library.status_text c2 /\
       Library.status_text c2 <> Library.status_text c3 /\
       Library.status_text c1 <> Library.status_text c3).
Proof.
  intros [c1 [c2 [c3 [H12 [H23 H13]]]]].
  destruct (status_text_two_values c1) as [E1 | E1];
    destruct (status_text_two_values c2) as [E2 | E2];
    destruct (status_text_two_values c3) as [E3 | E3]; congruence.
Qed.

(** C5, amended. The status the client shows takes exactly two values,
    fixed by the [processed] flag alone: "Analyzed" when it is set and
    "Analyzing..." when it is not, and the library's status filter separates
    the same two classes; two contents with the same flag, such as one whose
    analysis failed and one still being analysed, show the same status and
    pass the same status filters. *)
Theorem client_status_from_processed_flag (c1 c2 : Library.content)
    (Hflag : Library.processed c1 = Library.processed c2) :
  Library.status_text c1 = Library.status_text c2 /\
  Library.status_icon c1 = Library.status_icon c2 /\
  (forall st, Library.matches_status st c1 = Library.matches_status st c2) /\
  Library.status_text c1 = (if Library.processed c1 then "Analyzed" else "Analyzing...") /\
  (Library.matches_status "processed" c1 = true <-> Library.status_text c1 = "Analyzed") /\
  (Library.matches_status "processing" c1 = true <-> Library.status_text c1 = "Analyzing...").
Proof.
  unfold Library.status_text, Library.status_icon, Library.matches_status.
  rewrite <- Hflag. simpl.
  repeat split; try reflexivity;
    destruct (Library.processed c1); simpl; intros H; congruence.
Qed.

Lemma client_status_from_processed_flag_witness :
  let failed := {| Library.id := 1; Library.name := "Intro to ML";
                   Library.content_text := "Machine learning is a subset of AI...";
                   Library.processed := false; Library.difficulty_level := None;
                   Library.key_concepts := None; Library.estimated_study_time := None;
                   Library.created_at := "2024-01-01T00:00:00Z" |} in
  let running := {| Library.id := 2; Library.name := "Graphs";
                    Library.content_text := "A graph is a set of vertices...";
                    Library.processed := false; Library.difficulty_level := None;
                    Library.key_concepts := None; Library.estimated_study_time := None;
                    Library.created_at := "2024-03-01T00:00:00Z" |} in
  Library.status_text failed = Library.status_text running.
Proof.
  intros failed running.
  destruct (client_status_from_processed_flag failed running eq_refl) as [H _].
  exact H.
Defined.

(** ** Key concepts *)

Lemma includes_false_not_In (seen : list string) (x : string) :
  Js.includes seen x = false -> ~ In x seen.
Proof.
  unfold Js.includes. intros Hf Hin.
  assert (Ht : existsb (String.eqb x) seen = true).
  { apply existsb_exists. exists x. split; [exact Hin | apply String.eqb_refl]. }
  congruence.
Qed.

Lemma dedup_ci_avoids_seen (raw seen : list string) (x : string) :
  In x (Analysis.dedup_ci seen raw) -> ~ In (Js.toLowerCase x) seen.
Proof.
  revert seen. induction raw as [| c rest IH]; intros seen Hin; simpl in Hin.
  - contradiction.
  - destruct (Js.includes seen (Js.toLowerCase c)) eqn:Hinc.
    + apply IH. exact Hin.
    + destruct Hin as [-> | Hin].
      * apply includes_false_not_In. exact Hinc.
      * intros Hs. apply (IH _ Hin). right. exact Hs.
Qed.

Lemma dedup_ci_incl (raw seen : list string) :
  incl (Analysis.dedup_ci seen raw) raw.
Proof.
  revert seen. induction raw as [| c rest IH]; intros seen x Hin; simpl in Hin.
  - contradiction.
  - destruct (Js.includes seen (Js.toLowerCase c)).
    + right. apply (IH _ _ Hin).
    + destruct Hin as [-> | Hin]; [left; reflexivity | right; apply (IH _ _ Hin)].
Qed.

Lemma dedup_ci_NoDup (raw seen : list string) :
  NoDup (map Js.toLowerCase (Analysis.dedup_ci seen raw)).
Proof.
  revert seen. induction raw as [| c rest IH]; intros seen; simpl.
  - constructor.
  - destruct (Js.includes seen (Js.toLowerCase c)).
    + apply IH.
    + simpl. constructor; [| apply IH].
      intros Hin. apply in_map_iff in Hin. destruct Hin as [x [Hx Hin]].
      apply dedup_ci_avoids_seen in Hin. apply Hin. left. symmetry. exact Hx.
Qed.

Lemma In_firstn {A : Type} (n : nat) (l : list A) (x : A) :
  In x (firstn n l) -> In x l.
Proof.
  revert l. induction n as [| n IH]; intros [| a l] Hin; simpl in Hin; try contradiction.
  destruct Hin as [-> | Hin]; [left; reflexivity | right; apply IH; exact Hin].
Qed.

Lemma NoDup_firstn {A : Type} (n : nat) (l : list A) :
  NoDup l -> NoDup (firstn n l).
Proof.
  revert l. induction n as [| n IH]; intros [| a l] Hnd; simpl; try constructor.
  - inversion Hnd as [| ? ? Hnin Hrest]; subst. intros Hin. apply Hnin.
    apply (In_firstn n l a Hin).
  - inversion Hnd; subst. apply IH. assumption.
Qed.

(** C6. The key concepts of an analyzed content are at most five and, when
    compared without regard to case, pairwise different; the card then shows
    at most three of them and at most "+2 more". *)
Theorem key_concepts_at_most_five_distinct
    (c : Library.content) (raw : list string) (level : string) (minutes : Z) :
  exists ks,
    Library.key_concepts (Analysis.analyzed c raw level minutes) = Some ks /\
    (List.length ks <= 5)%nat /\
    NoDup (map Js.toLowerCase ks) /\
    incl ks raw /\
    match Library.renderConcepts (Analysis.analyzed c raw level minutes) with
    | Some p =>
        (List.length (Library.visibleConcepts p) <= 3)%nat /\
        (Library.more p = None \/ Library.more p = Some 1 \/ Library.more p = Some 2)
    | None => ks = []
    end.
Proof.
  exists (Analysis.extract_key_concepts raw).
  assert (Hlen : (List.length (Analysis.extract_key_concepts raw) <= 5)%nat).
  { unfold Analysis.extract_key_concepts, Analysis.max_concepts.
    rewrite length_firstn. lia. }
  split; [reflexivity |]. split; [exact Hlen |]. split; [| split].
  - unfold Analysis.extract_key_concepts. rewrite <- firstn_map.
    apply NoDup_firstn. apply dedup_ci_NoDup.
  - intros x Hin. unfold Analysis.extract_key_concepts in Hin.
    apply In_firstn in Hin. apply (dedup_ci_incl raw [] x Hin).
  - unfold Library.renderConcepts. cbn [Library.key_concepts Analysis.analyzed].
    destruct (Analysis.extract_key_concepts raw) as [| k ks] eqn:E; [reflexivity |].
    cbv zeta. cbn [Library.visibleConcepts Library.more].
    split; [apply firstn_le_length |].
    remember (List.length (k :: ks)) as n eqn:Hn.
    assert (Hcases : (n = 1 \/ n = 2 \/ n = 3 \/ n = 4 \/ n = 5)%nat)
      by (simpl in Hn; lia).
    destruct Hcases as [-> | [-> | [-> | [-> | ->]]]]; simpl; auto.
Qed.

Example extract_key_concepts_example :
  Analysis.extract_key_concepts
    ["Machine Learning"; "AI"; "machine learning"; "Models"; "Data"; "ai"; "Training"; "Bias"]
  = ["Machine Learning"; "AI"; "Models"; "Data"; "Training"].
Proof. reflexivity. Qed.

(** ** The query-analysis section of the debug panel *)

(** C7. The query-analysis section renders for every debug trace that has
    a query analysis, whichever of the optional fields are missing: a
    missing keyword timing, vector timing or error leaves no item behind,
    while the four unconditional items are always there and a timing that
    is present is shown. *)
Theorem query_analysis_omits_absent_fields
    (dbg : DebugToolbar.debug_info) (qa : DebugToolbar.query_analysis)
    (Hqa : DebugToolbar.query_analysis_of dbg = DebugToolbar.Present qa) :
  let rendered := DebugToolbar.query_analysis_items qa in
  let labels := map DebugToolbar.label rendered in
  DebugToolbar.query_section true (Some dbg)
    = Some {| DebugToolbar.title := "Query Analysis"; DebugToolbar.items := rendered |} /\
  (DebugToolbar.keyword_search_time_ms qa = DebugToolbar.Absent ->
     ~ In "Keyword Search Time:" labels) /\
  (DebugToolbar.vector_search_time_ms qa = DebugToolbar.Absent ->
     ~ In "Vector Search Time:" labels) /\
  (DebugToolbar.error qa = DebugToolbar.Absent -> ~ In "Error:" labels) /\
  (forall n, DebugToolbar.keyword_search_time_ms qa = DebugToolbar.Present n ->
     In (DebugToolbar.item "Keyword Search Time:" (Js.num_str n ++ "ms")) rendered) /\
  (forall n, DebugToolbar.vector_search_time_ms qa = DebugToolbar.Present n ->
     In (DebugToolbar.item "Vector Search Time:" (Js.num_str n ++ "ms")) rendered) /\
  In "Original Query:" labels /\
  In "Embedding Model:" labels /\
  In "Total Search Time:" labels /\
  In "Total Indexed Contents:" labels.
Proof.
  intros rendered labels.
  split.
  { unfold DebugToolbar.query_section. rewrite Hqa. reflexivity. }
  subst labels rendered. unfold DebugToolbar.query_analysis_items.
  destruct (DebugToolbar.has_keywords (DebugToolbar.extracted_keywords qa));
    destruct (DebugToolbar.keyword_search_time_ms qa) as [| | kw];
    destruct (DebugToolbar.vector_search_time_ms qa) as [| | vec];
    destruct (DebugToolbar.error qa) as [| | err];
    try destruct (Js.truthy_string err) eqn:Herr;
    unfold DebugToolbar.truthy_text; try rewrite Herr;
    simpl;
    repeat split;
    try (intros n Hn; inversion Hn; subst; tauto);
    try (intros Habs Hin; try discriminate Habs;
         repeat (destruct Hin as [Hin | Hin]; [discriminate Hin |]);
         contradiction);
    tauto.
Qed.

Lemma query_analysis_omits_absent_fields_witness :
  let qa := {| DebugToolbar.original_query := DebugToolbar.Present "What is supervised learning?";
               DebugToolbar.extracted_keywords := DebugToolbar.Present ["supervised"; "learning"];
               DebugToolbar.embedding_model := DebugToolbar.Present "text-embedding";
               DebugToolbar.search_time_ms := DebugToolbar.Present 42;
               DebugToolbar.keyword_search_time_ms := DebugToolbar.Present 17;
               DebugToolbar.vector_search_time_ms := DebugToolbar.Absent;
               DebugToolbar.total_indexed_contents := DebugToolbar.Present 3;
               DebugToolbar.error := DebugToolbar.Absent |} in
  map DebugToolbar.label (DebugToolbar.query_analysis_items qa)
  = ["Original Query:"; "Extracted Keywords:"; "Embedding Model:";
     "Total Search Time:"; "Keyword Search Time:"; "Total Indexed Contents:"] /\
  ~ In "Vector Search Time:" (map DebugToolbar.label (DebugToolbar.query_analysis_items qa)).
Proof.
  intros qa. split; [reflexivity |].
  destruct (query_analysis_omits_absent_fields
              {| DebugToolbar.query_analysis_of := DebugToolbar.Present qa;
                 DebugToolbar.processing_info_of := DebugToolbar.Absent |}
              qa eq_refl) as [_ [_ [Hvec _]]].
  apply Hvec. reflexivity.
Defined.

(** ** The polling loop of [ChatTab] *)

Lemma last_is_assistant_spec (ms : list ChatTab.message) :
  ChatTab.last_is_assistant ms = true <-> ends_with_assistant ms.
Proof.
  unfold ChatTab.last_is_assistant, ChatTab.lastMessage, ends_with_assistant. split.
  - destruct (nth_error ms (List.length ms - 1)) as [m |] eqn:Hnth; [| discriminate].
    intros Hrole. apply String.eqb_eq in Hrole.
    destruct (nth_error_split ms (List.length ms - 1) Hnth) as [l1 [l2 [Hms Hlen]]].
    exists l1, m. split; [| exact Hrole].
    assert (Hl2 : List.length l2 = 0%nat).
    { apply (f_equal (@List.length _)) in Hms.
      rewrite length_app in Hms. simpl in Hms. lia. }
    destruct l2; [exact Hms | discriminate].
  - intros [init [m [-> Hrole]]].
    rewrite length_app. simpl.
    replace (List.length init + 1 - 1)%nat with (List.length init) by lia.
    rewrite nth_error_app2 by lia. rewrite Nat.sub_diag. simpl.
    apply String.eqb_eq. exact Hrole.
Qed.

Lemma last_is_assistant_false (ms : list ChatTab.message) :
  ChatTab.last_is_assistant ms = false <-> ~ ends_with_assistant ms.
Proof.
  rewrite <- last_is_assistant_spec.
  destruct (ChatTab.last_is_assistant ms); split; intros H; congruence.
Qed.

Lemma find_app_last {A : Type} (f : A -> bool) (l : list A) (x : A) :
  (forall y, In y l -> f y = false) -> f x = true -> find f (l ++ [x]) = Some x.
Proof.
  intros Hl Hx. induction l as [| a l IH]; simpl.
  - rewrite Hx. reflexivity.
  - rewrite (Hl a (or_introl eq_refl)). apply IH. intros y Hy. apply Hl. right. exact Hy.
Qed.

Lemma find_filter_other (i j : positive) (l : list ChatTab.interval) :
  i <> j ->
  find (fun t => Pos.eqb (ChatTab.interval_id t) i)
       (filter (fun t => negb (Pos.eqb (ChatTab.interval_id t) j)) l)
  = find (fun t => Pos.eqb (ChatTab.interval_id t) i) l.
Proof.
  intros Hij. induction l as [| a l IH]; simpl; [reflexivity |].
  destruct (Pos.eqb_spec (ChatTab.interval_id a) j) as [Ej | Nj]; simpl.
  - destruct (Pos.eqb_spec (ChatTab.interval_id a) i) as [Ei | Ni]; [congruence | exact IH].
  - destruct (Pos.eqb (ChatTab.interval_id a) i); [reflexivity | exact IH].
Qed.

Lemma find_filter_same (i : positive) (l : list ChatTab.interval) :
  find (fun t => Pos.eqb (ChatTab.interval_id t) i)
       (filter (fun t => negb (Pos.eqb (ChatTab.interval_id t) i)) l) = None.
Proof.
  induction l as [| a l IH]; simpl; [reflexivity |].
  destruct (Pos.eqb (ChatTab.interval_id a) i) eqn:E; simpl; [exact IH |].
  rewrite E. exact IH.
Qed.

(** [startPolling] creates a one-second interval on the captured session
    and leaves the loop running. *)
Lemma startPolling_polling (cs : ChatTab.session) (s : ChatTab.state) :
  fresh_ids s ->
  polling {| ChatTab.interval_id := ChatTab.next_interval s;
             ChatTab.period_ms := 1000;
             ChatTab.polled_session := cs |}
          (ChatTab.startPolling cs s).
Proof.
  intros Hwf. unfold polling. simpl. repeat split.
  unfold ChatTab.find_interval. simpl. apply find_app_last.
  - intros y Hy. unfold fresh_ids in Hwf. rewrite Forall_forall in Hwf.
    specialize (Hwf y Hy). apply Pos.eqb_neq. lia.
  - simpl. apply Pos.eqb_refl.
Qed.

Lemma startPolling_frame (cs : ChatTab.session) (s : ChatTab.state) :
  ChatTab.messages (ChatTab.startPolling cs s) = ChatTab.messages s /\
  ChatTab.toasts (ChatTab.startPolling cs s) = ChatTab.toasts s /\
  ChatTab.requests (ChatTab.startPolling cs s) = ChatTab.requests s.
Proof. repeat split. Qed.

(** One inconclusive poll: the list on display follows the response, an
    error changes nothing, and the loop runs on. *)
Lemma tick_inconclusive (t : ChatTab.interval) (o : ChatTab.poll_outcome)
    (s : ChatTab.state) :
  polling t s -> inconclusive o ->
  let s' := ChatTab.tick (ChatTab.interval_id t) o s in
  polling t s' /\
  ChatTab.messages s' =
    match o with
    | ChatTab.PollOk d => ChatTab.newMessages d
    | ChatTab.PollError => ChatTab.messages s
    end /\
  ChatTab.toasts s' = ChatTab.toasts s /\
  ChatTab.requests s' =
    (ChatTab.requests s
       ++ [ChatTab.GetMessages (ChatTab.session_id (ChatTab.polled_session t))])%list.
Proof.
  intros [Hon [Href Hfind]] Hinc. unfold ChatTab.tick. rewrite Hfind.
  unfold ChatTab.poll_callback. destruct o as [d |]; simpl in Hinc.
  - apply last_is_assistant_false in Hinc. rewrite Hinc.
    unfold polling. simpl. repeat split; assumption.
  - unfold polling. simpl. repeat split; assumption.
Qed.

(** The poll that ends the loop: the list is shown, the indicator goes
    off, the interval is cleared and never fires again. *)
Lemma tick_conclusive (t : ChatTab.interval) (d : ChatTab.response_data)
    (s : ChatTab.state) :
  polling t s -> ends_with_assistant (ChatTab.newMessages d) ->
  let s' := ChatTab.tick (ChatTab.interval_id t) (ChatTab.PollOk d) s in
  ChatTab.messages s' = ChatTab.newMessages d /\
  ChatTab.isPolling s' = false /\
  ChatTab.pollingIntervalRef s' = None /\
  ChatTab.find_interval (ChatTab.interval_id t) s' = None.
Proof.
  intros [Hon [Href Hfind]] Hend. unfold ChatTab.tick. rewrite Hfind.
  unfold ChatTab.poll_callback. apply last_is_assistant_spec in Hend. rewrite Hend.
  unfold ChatTab.stopPolling.
  destruct (ChatTab.debug_info_of d); simpl; rewrite Href; simpl;
    repeat split; apply find_filter_same.
Qed.

Lemma run_polls_inconclusive (t : ChatTab.interval) (os : list ChatTab.poll_outcome) :
  forall s, polling t s -> Forall inconclusive os ->
  let s' := ChatTab.run_polls (ChatTab.interval_id t) os s in
  polling t s' /\
  ChatTab.toasts s' = ChatTab.toasts s /\
  List.length (ChatTab.requests s') = (List.length (ChatTab.requests s) + List.length os)%nat.
Proof.
  induction os as [| o os IH]; intros s Hp Hall; simpl.
  - repeat split; try apply Hp. lia.
  - inversion Hall as [| ? ? Ho Hos]; subst.
    destruct (tick_inconclusive t o s Hp Ho) as [Hp' [_ [Ht Hr]]].
    destruct (IH _ Hp' Hos) as [Hp'' [Ht' Hr']].
    unfold ChatTab.run_polls in *. simpl.
    split; [exact Hp'' |]. split; [congruence |].
    rewrite Hr', Hr, length_app. simpl. lia.
Qed.

Lemma last_cons_default {A : Type} (x : A) (l : list A) (d d' : A) :
  last (x :: l) d = last (x :: l) d'.
Proof.
  revert x. induction l as [| y l IH]; intros x; [reflexivity |].
  change (last (y :: l) d = last (y :: l) d'). apply IH.
Qed.

Lemma run_polls_messages (t : ChatTab.interval) (ds : list ChatTab.response_data) :
  forall s, polling t s ->
  Forall (fun d => ~ ends_with_assistant (ChatTab.newMessages d)) ds ->
  ChatTab.messages (ChatTab.run_polls (ChatTab.interval_id t) (map ChatTab.PollOk ds) s)
  = last (map ChatTab.newMessages ds) (ChatTab.messages s).
Proof.
  induction ds as [| d ds IH]; intros s Hp Hall; [reflexivity |].
  inversion Hall as [| ? ? Hd Hds]; subst.
  destruct (tick_inconclusive t (ChatTab.PollOk d) s Hp Hd) as [Hp' [Hm _]].
  unfold ChatTab.run_polls in *. simpl map. simpl fold_left.
  rewrite (IH _ Hp' Hds). rewrite Hm.
  destruct ds as [| r ds]; [reflexivity |].
  change (last (ChatTab.newMessages r :: map ChatTab.newMessages ds) (ChatTab.newMessages d)
          = last (ChatTab.newMessages r :: map ChatTab.newMessages ds) (ChatTab.messages s)).
  apply last_cons_default.
Qed.

(** [fresh_ids] is an invariant of the component: it holds when it
    mounts and every operation keeps it. *)
Lemma fresh_ids_initial (cs : option ChatTab.session) : fresh_ids (ChatTab.initial cs).
Proof. constructor. Qed.

Lemma fresh_ids_startPolling (cs : ChatTab.session) (s : ChatTab.state) :
  fresh_ids s -> fresh_ids (ChatTab.startPolling cs s).
Proof.
  unfold fresh_ids. simpl. intros H. apply Forall_app. split.
  - eapply Forall_impl; [| exact H]. simpl. intros a Ha. lia.
  - constructor; [simpl; lia | constructor].
Qed.

Lemma fresh_ids_tick (i : positive) (o : ChatTab.poll_outcome) (s : ChatTab.state) :
  fresh_ids s -> fresh_ids (ChatTab.tick i o s).
Proof.
  intros H. unfold ChatTab.tick. destruct (ChatTab.find_interval i s); [| exact H].
  unfold ChatTab.poll_callback, ChatTab.stopPolling.
  destruct o as [d |]; [| exact H].
  destruct (ChatTab.last_is_assistant (ChatTab.newMessages d)); [| exact H].
  unfold fresh_ids in *.
  destruct (ChatTab.debug_info_of d); ref_cases s; try exact H;
    apply Forall_forall; intros a Ha; apply filter_In in Ha;
    rewrite Forall_forall in H; apply H; tauto.
Qed.

Lemma fresh_ids_sendMessage (clk : ChatTab.clock) (o : ChatTab.post_outcome)
    (s : ChatTab.state) :
  fresh_ids s -> fresh_ids (ChatTab.sendMessage clk o s).
Proof.
  intros H. unfold ChatTab.sendMessage, ChatTab.sendMessage_begin.
  destruct (ChatTab.send_blocked s); [exact H |].
  destruct (ChatTab.currentSession s) as [cs |]; [| exact H].
  destruct o as [d | st]; [| exact H].
  apply (fresh_ids_startPolling cs
           (ChatTab.add_request
              (ChatTab.PostMessage (ChatTab.session_id cs) (Js.trim (ChatTab.messageInput s)))
              (ChatTab.setMessages
                 (fun prev => (prev ++ [ChatTab.tempUserMessage clk s])%list)
                 (ChatTab.setIsSending true (ChatTab.setMessageInput "" s))))).
  exact H.
Qed.

(** The loop that the ref holds, left alone ([run_polls] fires that one
    interval and nothing else happens in between, each poll with its
    response taken as one step): every poll whose list does not end in an
    assistant message replaces the list on display and leaves the loop
    running, and the loop stops at a poll exactly when the list it returns
    ends in an assistant message.  A loop whose interval a later send has
    taken out of the ref is not covered: see the two sends below. *)
Lemma polling_stops_exactly_on_assistant
    (s : ChatTab.state) (cs : ChatTab.session)
    (ds : list ChatTab.response_data) (d : ChatTab.response_data)
    (Hids : fresh_ids s)
    (Hds : Forall (fun d' => ~ ends_with_assistant (ChatTab.newMessages d')) ds) :
  let i := ChatTab.next_interval s in
  let t := {| ChatTab.interval_id := i; ChatTab.period_ms := 1000;
              ChatTab.polled_session := cs |} in
  let s1 := ChatTab.run_polls i (map ChatTab.PollOk ds) (ChatTab.startPolling cs s) in
  let s2 := ChatTab.tick i (ChatTab.PollOk d) s1 in
  polling t s1 /\
  ChatTab.messages s1 = last (map ChatTab.newMessages ds) (ChatTab.messages s) /\
  ChatTab.messages s2 = ChatTab.newMessages d /\
  (ChatTab.isPolling s2 = false <-> ends_with_assistant (ChatTab.newMessages d)) /\
  (ChatTab.find_interval i s2 = None <-> ends_with_assistant (ChatTab.newMessages d)) /\
  (ends_with_assistant (ChatTab.newMessages d) -> forall o, ChatTab.tick i o s2 = s2) /\
  (~ ends_with_assistant (ChatTab.newMessages d) -> polling t s2).
Proof.
  intros i t s1 s2.
  pose proof (startPolling_polling cs s Hids) as Hstart. fold i t in Hstart.
  assert (Hinc : Forall inconclusive (map ChatTab.PollOk ds)).
  { apply Forall_map. exact Hds. }
  destruct (run_polls_inconclusive t _ _ Hstart Hinc) as [Hp1 _].
  change (ChatTab.interval_id t) with i in Hp1. fold s1 in Hp1.
  split; [exact Hp1 |]. split.
  { subst s1. change i with (ChatTab.interval_id t).
    rewrite (run_polls_messages t ds _ Hstart Hds). reflexivity. }
  destruct (ChatTab.last_is_assistant (ChatTab.newMessages d)) eqn:Hlast.
  - apply last_is_assistant_spec in Hlast.
    destruct (tick_conclusive t d s1 Hp1 Hlast) as [Hm [Hoff [_ Hgone]]].
    change (ChatTab.interval_id t) with i in Hm, Hoff, Hgone. fold s2 in Hm, Hoff, Hgone.
    split; [exact Hm |]. split; [tauto |]. split; [tauto |]. split.
    + intros _ o. unfold ChatTab.tick. rewrite Hgone. reflexivity.
    + intros Hn. contradiction.
  - apply last_is_assistant_false in Hlast.
    destruct (tick_inconclusive t (ChatTab.PollOk d) s1 Hp1 Hlast) as [Hp2 [Hm _]].
    change (ChatTab.interval_id t) with i in Hp2, Hm. fold s2 in Hp2, Hm.
    destruct Hp2 as [Hon [Href Hfind]]. change (ChatTab.interval_id t) with i in Hfind.
    split; [exact Hm |].
    split; [split; [intros H; congruence | intros H; contradiction] |].
    split; [split; [intros H; congruence | intros H; contradiction] |].
    split; [intros H; contradiction |].
    intros _. repeat split; assumption.
Qed.

Lemma polling_stops_exactly_on_assistant_witness :
  let s := ChatTab.initial (Some demo_session) in
  let only_user := ChatTab.DataObject [demo_user_message] None in
  let answered := ChatTab.DataObject [demo_user_message; demo_assistant_message] None in
  let s1 := ChatTab.run_polls 1 [ChatTab.PollOk only_user; ChatTab.PollOk only_user]
              (ChatTab.startPolling demo_session s) in
  ChatTab.messages s1 = [demo_user_message] /\
  ChatTab.messages (ChatTab.tick 1 (ChatTab.PollOk answered) s1)
    = [demo_user_message; demo_assistant_message].
Proof.
  intros s only_user answered s1.
  assert (Hds : Forall (fun d' => ~ ends_with_assistant (ChatTab.newMessages d'))
                       [only_user; only_user]).
  { repeat constructor; apply last_is_assistant_false; reflexivity. }
  destruct (polling_stops_exactly_on_assistant s demo_session [only_user; only_user]
              answered (fresh_ids_initial _) Hds) as [_ [H1 [H2 _]]].
  split; [exact H1 | exact H2].
Defined.

(** C2, as stated, fails: no number of polls makes the client give up;
    when every poll errors the typing indicator is still on after any
    number of them. *)
Lemma polling_is_not_bounded :
  ~ (exists max_polls : nat,
       forall os : list ChatTab.poll_outcome,
         List.length os = max_polls ->
         ChatTab.isPolling
           (ChatTab.run_polls 1 os
              (ChatTab.startPolling demo_session (ChatTab.initial (Some demo_session))))
         = false).
Proof.
  intros [n Hbound].
  specialize (Hbound (repeat ChatTab.PollError n) (repeat_length _ _)).
  pose proof (startPolling_polling demo_session _ (fresh_ids_initial (Some demo_session)))
    as Hstart.
  assert (Hinc : Forall inconclusive (repeat ChatTab.PollError n)).
  { apply Forall_forall. intros o Ho. apply repeat_spec in Ho. subst o. exact I. }
  destruct (run_polls_inconclusive _ _ _ Hstart Hinc) as [[Hon _] _].
  simpl ChatTab.interval_id in Hon. simpl ChatTab.next_interval in Hon.
  congruence.
Qed.

(** The statements above follow the loop that the ref holds. A second
    send while a loop is running overwrites the ref without clearing the
    interval it held: the poll that ends the newer loop leaves the older
    interval live. *)
Example overlapping_sends_keep_first_interval :
  let s1 := ChatTab.sendMessage demo_clock (ChatTab.PostOk (ChatTab.DataArray []))
              (ChatTab.setMessageInput "first" (ChatTab.initial (Some demo_session))) in
  let s2 := ChatTab.sendMessage demo_clock (ChatTab.PostOk (ChatTab.DataArray []))
              (ChatTab.setMessageInput "second" s1) in
  let s3 := ChatTab.tick 2
              (ChatTab.PollOk (ChatTab.DataArray [demo_user_message; demo_assistant_message]))
              s2 in
  ChatTab.isPolling s3 = false /\
  ChatTab.find_interval 2 s3 = None /\
  ChatTab.find_interval 1 s3
    = Some {| ChatTab.interval_id := 1; ChatTab.period_ms := 1000;
              ChatTab.polled_session := demo_session |}.
Proof. repeat split. Qed.

(** C1, at the input where the code departs from it.  The component is
    mounted on a session; a first message is sent and, before the
    assistant has answered, a second one ([sendMessage] is guarded by
    [isSending] only, which is off again once the first POST has
    returned).  The second [startPolling] overwrites the ref without
    clearing the interval it held, and [stopPolling] clears what the ref
    holds: when the first loop receives a list whose last message has role
    "assistant", that list is shown and the indicator goes off, but the
    first loop has not stopped polling -- its interval is still live, and
    at its next firing it reads the message list again and shows the
    notice again. *)
Theorem second_send_leaves_first_loop_polling :
  let later := {| ChatTab.now := 1714557602500;
                  ChatTab.iso := "2024-05-01T10:00:02.500Z" |} in
  let answered :=
    ChatTab.PollOk (ChatTab.DataArray [demo_user_message; demo_assistant_message]) in
  let s1 := ChatTab.sendMessage demo_clock (ChatTab.PostOk (ChatTab.DataArray []))
              (ChatTab.setMessageInput "first" (ChatTab.initial (Some demo_session))) in
  let s2 := ChatTab.sendMessage later (ChatTab.PostOk (ChatTab.DataArray []))
              (ChatTab.setMessageInput "second" s1) in
  let s3 := ChatTab.tick 1 answered s2 in
  let s4 := ChatTab.tick 1 answered s3 in
  ChatTab.find_interval 1 s1 = Some demo_interval /\
  ChatTab.pollingIntervalRef s1 = Some 1%positive /\
  ChatTab.pollingIntervalRef s2 = Some 2%positive /\
  ChatTab.last_is_assistant [demo_user_message; demo_assistant_message] = true /\
  ChatTab.messages s3 = [demo_user_message; demo_assistant_message] /\
  ChatTab.isPolling s3 = false /\
  ChatTab.find_interval 2 s3 = None /\
  ChatTab.find_interval 1 s3 = Some demo_interval /\
  ChatTab.requests s4 = (ChatTab.requests s3 ++ [ChatTab.GetMessages "7f3c"])%list /\
  ChatTab.toasts s4
    = (ChatTab.toasts s3 ++ [ChatTab.ToastSuccess "AI has responded!"])%list /\
  ChatTab.find_interval 1 s4 = Some demo_interval.
Proof. vm_compute. repeat split. Qed.

(** ** Sending a message *)

Lemma sendMessage_begin_inv (clk : ChatTab.clock) (s : ChatTab.state)
    (p : ChatTab.pending_send) (s1 : ChatTab.state) :
  ChatTab.sendMessage_begin clk s = Some (p, s1) ->
  exists cs,
    ChatTab.currentSession s = Some cs /\
    ChatTab.send_blocked s = false /\
    p = {| ChatTab.temp := ChatTab.tempUserMessage clk s; ChatTab.send_session := cs |} /\
    s1 = ChatTab.add_request
           (ChatTab.PostMessage (ChatTab.session_id cs) (Js.trim (ChatTab.messageInput s)))
           (ChatTab.setMessages (fun prev => (prev ++ [ChatTab.tempUserMessage clk s])%list)
              (ChatTab.setIsSending true (ChatTab.setMessageInput "" s))).
Proof.
  unfold ChatTab.sendMessage_begin.
  destruct (ChatTab.send_blocked s) eqn:Hb; [discriminate |].
  destruct (ChatTab.currentSession s) as [cs |]; [| discriminate].
  intros H. inversion H; subst. exists cs. repeat split.
Qed.

Lemma sendMessage_begin_fresh_ids (clk : ChatTab.clock) (s : ChatTab.state)
    (p : ChatTab.pending_send) (s1 : ChatTab.state) :
  ChatTab.sendMessage_begin clk s = Some (p, s1) -> fresh_ids s -> fresh_ids s1.
Proof.
  intros Hb Hids. destruct (sendMessage_begin_inv _ _ _ _ Hb) as [cs [_ [_ [_ ->]]]].
  exact Hids.
Qed.

(** C3. A send that goes out puts the user's message at the end of the
    list on display before the POST is answered, and the answer to the POST
    is only an acknowledgement: whatever its body holds, the list on display
    stays as it was and the resulting state is the same; the reply reaches
    the display through the poll that follows. *)
Theorem sendMessage_appends_and_ignores_reply
    (clk : ChatTab.clock) (s s1 : ChatTab.state) (p : ChatTab.pending_send)
    (Hids : fresh_ids s)
    (Hbegin : ChatTab.sendMessage_begin clk s = Some (p, s1)) :
  ChatTab.messages s1 = (ChatTab.messages s ++ [ChatTab.temp p])%list /\
  ChatTab.role (ChatTab.temp p) = "user" /\
  ChatTab.content (ChatTab.temp p) = Js.trim (ChatTab.messageInput s) /\
  ChatTab.isSending s1 = true /\
  (exists sid,
     ChatTab.requests s1 =
       (ChatTab.requests s ++ [ChatTab.PostMessage sid (ChatTab.content (ChatTab.temp p))])%list) /\
  (forall d, ChatTab.messages (ChatTab.sendMessage_settle p (ChatTab.PostOk d) s1)
             = ChatTab.messages s1) /\
  (forall d d', ChatTab.sendMessage_settle p (ChatTab.PostOk d) s1
                = ChatTab.sendMessage_settle p (ChatTab.PostOk d') s1) /\
  (forall d polled,
     ChatTab.messages
       (ChatTab.tick (ChatTab.next_interval s1) (ChatTab.PollOk polled)
          (ChatTab.sendMessage_settle p (ChatTab.PostOk d) s1))
     = ChatTab.newMessages polled).
Proof.
  pose proof (sendMessage_begin_fresh_ids _ _ _ _ Hbegin Hids) as Hids1.
  destruct (sendMessage_begin_inv _ _ _ _ Hbegin) as [cs [Hcs [Hgo [Hp Hs1]]]].
  subst p. simpl ChatTab.temp.
  split; [rewrite Hs1; reflexivity |].
  split; [reflexivity |]. split; [reflexivity |].
  split; [rewrite Hs1; reflexivity |].
  split; [exists (ChatTab.session_id cs); rewrite Hs1; reflexivity |].
  split; [intros d; reflexivity |].
  split; [intros d d'; reflexivity |].
  intros d polled.
  pose proof (startPolling_polling cs s1 Hids1) as Hpoll.
  set (t := {| ChatTab.interval_id := ChatTab.next_interval s1;
               ChatTab.period_ms := 1000; ChatTab.polled_session := cs |}) in *.
  destruct Hpoll as [_ [_ Hfind]]. simpl ChatTab.interval_id in Hfind.
  unfold ChatTab.tick, ChatTab.sendMessage_settle. simpl ChatTab.send_session.
  assert (Hfind' :
    ChatTab.find_interval (ChatTab.next_interval s1)
      (ChatTab.setIsSending false
         (ChatTab.add_toast (ChatTab.ToastSuccess "Message sent! AI is thinking...")
            (ChatTab.startPolling cs s1))) = Some t) by exact Hfind.
  rewrite Hfind'. unfold ChatTab.poll_callback.
  destruct (ChatTab.last_is_assistant (ChatTab.newMessages polled)).
  - unfold ChatTab.stopPolling. destruct (ChatTab.debug_info_of polled); reflexivity.
  - reflexivity.
Qed.

Lemma sendMessage_appends_and_ignores_reply_witness :
  exists p s1,
    ChatTab.sendMessage_begin demo_clock demo_typing = Some (p, s1) /\
    ChatTab.messages s1 =
      [{| ChatTab.msg_id := ChatTab.IdNum 1714557600000; ChatTab.role := "user";
          ChatTab.content := "What is supervised learning?";
          ChatTab.timestamp := "2024-05-01T10:00:00.000Z" |}] /\
    ChatTab.messages
      (ChatTab.sendMessage_settle p
         (ChatTab.PostOk (ChatTab.DataArray [demo_assistant_message])) s1)
    = ChatTab.messages s1.
Proof.
  destruct (ChatTab.sendMessage_begin demo_clock demo_typing) as [[p s1] |] eqn:Hb;
    [| discriminate Hb].
  exists p, s1.
  destruct (sendMessage_appends_and_ignores_reply demo_clock demo_typing s1 p
              (fresh_ids_initial _) Hb) as [Hm [_ [_ [_ [_ [Hack _]]]]]].
  split; [reflexivity |]. split.
  - rewrite Hm. inversion Hb; subst. reflexivity.
  - apply Hack.
Defined.

Lemma filter_id_neq_fresh (i : ChatTab.js_id) (ms : list ChatTab.message) :
  Forall (fun m => ChatTab.msg_id m <> i) ms ->
  filter (fun msg => ChatTab.id_neq (ChatTab.msg_id msg) i) ms = ms.
Proof.
  intros Hall. apply forallb_filter_id. apply forallb_forall. intros m Hm.
  rewrite Forall_forall in Hall. specialize (Hall m Hm).
  destruct (ChatTab.msg_id m) as [| x | x], i as [| y | y]; simpl; try reflexivity.
  - congruence.
  - destruct (Z.eqb_spec x y); [congruence | reflexivity].
  - destruct (String.eqb_spec x y); [congruence | reflexivity].
Qed.

Lemma id_neq_refl (i : ChatTab.js_id) : ChatTab.id_neq i i = false.
Proof.
  destruct i; simpl; [reflexivity | rewrite Z.eqb_refl | rewrite String.eqb_refl];
    reflexivity.
Qed.

(** C8. A send whose POST fails is undone: the temporary message, the only
    one with the id taken from the clock, is removed again, so the list on
    display is the one from before the send; no interval is created, the
    typing indicator is untouched, the only request issued is the POST, an
    error is shown, and the input is free for the next send. *)
Theorem failed_send_restores_messages
    (clk : ChatTab.clock) (s : ChatTab.state) (http_status : option Z)
    (Hgo : ChatTab.send_blocked s = false)
    (Hfresh : Forall (fun m => ChatTab.msg_id m <> ChatTab.IdNum (ChatTab.now clk))
                     (ChatTab.messages s)) :
  let s' := ChatTab.sendMessage clk (ChatTab.PostFailed http_status) s in
  ChatTab.messages s' = ChatTab.messages s /\
  ~ In (ChatTab.tempUserMessage clk s) (ChatTab.messages s') /\
  ChatTab.intervals s' = ChatTab.intervals s /\
  ChatTab.pollingIntervalRef s' = ChatTab.pollingIntervalRef s /\
  ChatTab.isPolling s' = ChatTab.isPolling s /\
  ChatTab.isSending s' = false /\
  (exists sid body, ChatTab.requests s' =
     (ChatTab.requests s ++ [ChatTab.PostMessage sid body])%list) /\
  (exists msg, ChatTab.toasts s' = (ChatTab.toasts s ++ [ChatTab.ToastError msg])%list).
Proof.
  intros s'. subst s'. unfold ChatTab.sendMessage, ChatTab.sendMessage_begin.
  rewrite Hgo.
  unfold ChatTab.send_blocked in Hgo.
  destruct (ChatTab.currentSession s) as [cs |] eqn:Hcs.
  2:{ rewrite orb_true_r in Hgo. discriminate Hgo. }
  unfold ChatTab.sendMessage_settle. simpl ChatTab.temp.
  assert (Hm :
    filter (fun msg => ChatTab.id_neq (ChatTab.msg_id msg) (ChatTab.IdNum (ChatTab.now clk)))
           (ChatTab.messages s ++ [ChatTab.tempUserMessage clk s])
    = ChatTab.messages s).
  { rewrite filter_app, (filter_id_neq_fresh _ _ Hfresh). simpl.
    rewrite Z.eqb_refl. simpl. apply app_nil_r. }
  assert (Herr : exists msg, ChatTab.send_error_toast http_status = ChatTab.ToastError msg).
  { unfold ChatTab.send_error_toast. destruct http_status as [st |]; [| eauto].
    destruct (st =? 401); eauto. }
  destruct Herr as [msg Herr].
  simpl. rewrite Hm. split; [reflexivity |]. split.
  - intros Hin. rewrite Forall_forall in Hfresh. apply (Hfresh _ Hin). reflexivity.
  - repeat split; eauto. exists msg. rewrite Herr. reflexivity.
Qed.

Lemma failed_send_restores_messages_witness :
  let s := ChatTab.setMessageInput "and unsupervised?"
             (ChatTab.setMessages (fun _ => [demo_user_message; demo_assistant_message])
                (ChatTab.initial (Some demo_session))) in
  let s' := ChatTab.sendMessage demo_clock (ChatTab.PostFailed (Some 500)) s in
  ChatTab.messages s' = [demo_user_message; demo_assistant_message] /\
  ChatTab.intervals s' = [].
Proof.
  intros s s'.
  assert (Hfresh : Forall (fun m => ChatTab.msg_id m <> ChatTab.IdNum (ChatTab.now demo_clock))
                          (ChatTab.messages s)).
  { repeat constructor; discriminate. }
  destruct (failed_send_restores_messages demo_clock s (Some 500) eq_refl Hfresh)
    as [Hm [_ [Hi _]]].
  split; [exact Hm | exact Hi].
Defined.

(** Without the assumption on ids the [catch] block still filters by id:
    what is on display afterwards is the earlier list without the messages
    that carry the temporary id. *)
Lemma failed_send_filters_by_id
    (clk : ChatTab.clock) (s : ChatTab.state) (http_status : option Z) :
  ChatTab.send_blocked s = false ->
  ChatTab.messages (ChatTab.sendMessage clk (ChatTab.PostFailed http_status) s)
  = filter (fun msg => ChatTab.id_neq (ChatTab.msg_id msg) (ChatTab.IdNum (ChatTab.now clk)))
           (ChatTab.messages s).
Proof.
  intros Hgo. unfold ChatTab.sendMessage, ChatTab.sendMessage_begin. rewrite Hgo.
  unfold ChatTab.send_blocked in Hgo.
  destruct (ChatTab.currentSession s) as [cs |].
  2:{ rewrite orb_true_r in Hgo. discriminate Hgo. }
  simpl. rewrite filter_app. simpl. rewrite Z.eqb_refl. simpl. apply app_nil_r.
Qed.

(** ** Repeated polls *)

(** What a poll shows depends on the response alone once it has been
    applied: applying the same outcome again changes nothing on display. *)
Lemma poll_callback_shown_twice (t t' : ChatTab.interval) (o : ChatTab.poll_outcome)
    (s : ChatTab.state) :
  shown (ChatTab.poll_callback t' o (ChatTab.poll_callback t o s))
  = shown (ChatTab.poll_callback t o s).
Proof.
  unfold shown, ChatTab.poll_callback, ChatTab.stopPolling.
  destruct o as [d |]; [| reflexivity].
  destruct (ChatTab.last_is_assistant (ChatTab.newMessages d)); [| reflexivity].
  destruct (ChatTab.debug_info_of d); ref_cases s.
Qed.

Lemma tick_shown_twice (i : positive) (o : ChatTab.poll_outcome) (s : ChatTab.state)
    (t : ChatTab.interval) :
  ChatTab.find_interval i s = Some t ->
  shown (ChatTab.tick i o (ChatTab.tick i o s)) = shown (ChatTab.tick i o s).
Proof.
  intros Hlive. unfold ChatTab.tick at 2 3. rewrite Hlive.
  unfold ChatTab.tick.
  destruct (ChatTab.find_interval i (ChatTab.poll_callback t o s)) as [t' |];
    [apply poll_callback_shown_twice | reflexivity].
Qed.

(** A firing leaves the interval it belongs to as it is, or clears it. *)
Lemma tick_find_interval (i : positive) (o : ChatTab.poll_outcome) (s : ChatTab.state)
    (t : ChatTab.interval) :
  ChatTab.find_interval i s = Some t ->
  ChatTab.find_interval i (ChatTab.tick i o s) = Some t \/
  ChatTab.find_interval i (ChatTab.tick i o s) = None.
Proof.
  intros Hlive. unfold ChatTab.tick. rewrite Hlive.
  unfold ChatTab.poll_callback, ChatTab.stopPolling.
  destruct o as [d |]; [| left; exact Hlive].
  destruct (ChatTab.last_is_assistant (ChatTab.newMessages d)); [| left; exact Hlive].
  assert (Hclear : forall j,
    find (fun t0 => Pos.eqb (ChatTab.interval_id t0) i)
         (filter (fun t0 => negb (Pos.eqb (ChatTab.interval_id t0) j)) (ChatTab.intervals s))
      = Some t \/
    find (fun t0 => Pos.eqb (ChatTab.interval_id t0) i)
         (filter (fun t0 => negb (Pos.eqb (ChatTab.interval_id t0) j)) (ChatTab.intervals s))
      = None).
  { intros j. destruct (Pos.eq_dec i j) as [<- | Hij].
    - right. apply find_filter_same.
    - left. rewrite (find_filter_other i j _ Hij). exact Hlive. }
  destruct (ChatTab.debug_info_of d); simpl;
    destruct (ChatTab.pollingIntervalRef s) as [j |]; simpl;
    try apply Hclear; left; exact Hlive.
Qed.

Lemma tick_requests (i : positive) (o : ChatTab.poll_outcome) (s : ChatTab.state)
    (t : ChatTab.interval) :
  ChatTab.find_interval i s = Some t ->
  ChatTab.requests (ChatTab.tick i o s)
  = (ChatTab.requests s
       ++ [ChatTab.GetMessages (ChatTab.session_id (ChatTab.polled_session t))])%list.
Proof.
  intros Hlive. unfold ChatTab.tick. rewrite Hlive.
  unfold ChatTab.poll_callback, ChatTab.stopPolling.
  destruct o as [d |]; [| reflexivity].
  destruct (ChatTab.last_is_assistant (ChatTab.newMessages d)); [| reflexivity].
  destruct (ChatTab.debug_info_of d); ref_cases s.
Qed.

Lemma tick_ok_messages (i : positive) (d : ChatTab.response_data) (s : ChatTab.state)
    (t : ChatTab.interval) :
  ChatTab.find_interval i s = Some t ->
  ChatTab.messages (ChatTab.tick i (ChatTab.PollOk d) s) = ChatTab.newMessages d.
Proof.
  intros Hlive. unfold ChatTab.tick. rewrite Hlive.
  unfold ChatTab.poll_callback, ChatTab.stopPolling.
  destruct (ChatTab.last_is_assistant (ChatTab.newMessages d)); [| reflexivity].
  destruct (ChatTab.debug_info_of d); ref_cases s.
Qed.

(** Polls answered by an unchanged store: the store stays as it is, and
    from the first poll on the display stays as the first poll left it. *)
Lemma poll_store_iter (st : Server.store) (s : ChatTab.state) (t : ChatTab.interval)
    (n : nat) :
  ChatTab.find_interval (ChatTab.interval_id t) s = Some t ->
  let i := ChatTab.interval_id t in
  let sid := ChatTab.session_id (ChatTab.polled_session t) in
  let d := ChatTab.DataObject (Server.log_of sid st) None in
  exists sn,
    Nat.iter (S n) (poll_store i) (st, s) = (st, sn) /\
    shown sn = shown (ChatTab.tick i (ChatTab.PollOk d) s) /\
    (ChatTab.find_interval i sn = Some t \/ ChatTab.find_interval i sn = None) /\
    (forall r, In r (ChatTab.requests sn) ->
       In r (ChatTab.requests s) \/ r = ChatTab.GetMessages sid).
Proof.
  intros Hlive i sid d. change (ChatTab.find_interval i s = Some t) in Hlive.
  induction n as [| n IH].
  - exists (ChatTab.tick i (ChatTab.PollOk d) s).
    change (Nat.iter 1 (poll_store i) (st, s)) with (poll_store i (st, s)).
    unfold poll_store. rewrite Hlive. unfold Server.get_messages.
    split; [reflexivity |]. split; [reflexivity |].
    split; [apply tick_find_interval; exact Hlive |].
    intros r Hr. rewrite (tick_requests i _ s t Hlive) in Hr.
    apply in_app_or in Hr. destruct Hr as [Hr | [Hr | []]]; [left; exact Hr | right].
    symmetry. exact Hr.
  - destruct IH as [sn [Hiter [Hshown [Hfind Hreq]]]].
    change (Nat.iter (S (S n)) (poll_store i) (st, s))
      with (poll_store i (Nat.iter (S n) (poll_store i) (st, s))).
    rewrite Hiter. unfold poll_store at 1.
    destruct Hfind as [Hsome | Hnone].
    + rewrite Hsome. unfold Server.get_messages. fold sid d.
      exists (ChatTab.tick i (ChatTab.PollOk d) sn).
      split; [reflexivity |]. split; [| split].
      * unfold ChatTab.tick at 1. rewrite Hsome.
        transitivity (shown sn); [| exact Hshown].
        unfold shown in Hshown |- *.
        assert (Hsn : shown sn = shown (ChatTab.poll_callback t (ChatTab.PollOk d) s)).
        { unfold ChatTab.tick in Hshown. rewrite Hlive in Hshown. exact Hshown. }
        clear Hshown. revert Hsn.
        unfold shown, ChatTab.poll_callback, ChatTab.stopPolling. simpl.
        destruct (ChatTab.last_is_assistant (Server.log_of sid st)); simpl.
        -- destruct (ChatTab.pollingIntervalRef s); simpl; intros Hsn;
             inversion Hsn as [[Hm Hp Hd]];
             destruct (ChatTab.pollingIntervalRef sn); simpl; congruence.
        -- intros Hsn. inversion Hsn as [[Hm Hp Hd]]. congruence.
      * apply tick_find_interval. exact Hsome.
      * intros r Hr. rewrite (tick_requests i _ sn t Hsome) in Hr.
        apply in_app_or in Hr. destruct Hr as [Hr | [Hr | []]];
          [apply Hreq; exact Hr | right; symmetry; exact Hr].
    + rewrite Hnone. exists sn. repeat split; auto.
Qed.

(** While the log does not end in an assistant message, the polls leave
    the loop as it is: same interval, same indicator. *)
Lemma poll_store_iter_inconclusive (st : Server.store) (s : ChatTab.state)
    (t : ChatTab.interval) (n : nat) :
  ChatTab.find_interval (ChatTab.interval_id t) s = Some t ->
  let i := ChatTab.interval_id t in
  let sid := ChatTab.session_id (ChatTab.polled_session t) in
  ~ ends_with_assistant (Server.log_of sid st) ->
  exists sn,
    Nat.iter (S n) (poll_store i) (st, s) = (st, sn) /\
    ChatTab.find_interval i sn = Some t /\
    ChatTab.isPolling sn = ChatTab.isPolling s /\
    ChatTab.messages sn = Server.log_of sid st.
Proof.
  intros Hlive i sid Hlog. change (ChatTab.find_interval i s = Some t) in Hlive.
  apply last_is_assistant_false in Hlog.
  assert (Hstep : forall s0, ChatTab.find_interval i s0 = Some t ->
    exists s1, poll_store i (st, s0) = (st, s1) /\
      ChatTab.find_interval i s1 = Some t /\
      ChatTab.isPolling s1 = ChatTab.isPolling s0 /\
      ChatTab.messages s1 = Server.log_of sid st).
  { intros s0 H0. unfold poll_store. rewrite H0. unfold Server.get_messages. fold sid.
    eexists. split; [reflexivity |].
    unfold ChatTab.tick. rewrite H0. unfold ChatTab.poll_callback.
    cbn [ChatTab.newMessages]. rewrite Hlog. repeat split. exact H0. }
  induction n as [| n IH].
  - apply Hstep. exact Hlive.
  - destruct IH as [sn [Hiter [Hfind [Hpoll _]]]].
    change (Nat.iter (S (S n)) (poll_store i) (st, s))
      with (poll_store i (Nat.iter (S n) (poll_store i) (st, s))).
    rewrite Hiter. destruct (Hstep sn Hfind) as [s1 [H1 [Hf1 [Hp1 Hm1]]]].
    exists s1. repeat split; try assumption. congruence.
Qed.

(** C4. Polling again and again while nothing is posted is idempotent: a
    read leaves the message log as it is and only ever issues the read
    request, the list, the typing indicator and the debug record on display
    after any number of polls are those after the first one, a poll applied
    twice shows what it shows applied once, and a log that so far holds the
    user message alone is displayed as it is while the loop runs on. *)
Theorem repeated_polls_are_idempotent
    (st : Server.store) (s : ChatTab.state) (t : ChatTab.interval) (n : nat)
    (Hlive : ChatTab.find_interval (ChatTab.interval_id t) s = Some t) :
  let i := ChatTab.interval_id t in
  let sid := ChatTab.session_id (ChatTab.polled_session t) in
  let once := poll_store i (st, s) in
  let again := Nat.iter (S n) (poll_store i) (st, s) in
  fst again = st /\
  fst (Server.get_messages sid (fst (Server.get_messages sid st))) = st /\
  snd (Server.get_messages sid (fst (Server.get_messages sid st)))
    = snd (Server.get_messages sid st) /\
  shown (snd again) = shown (snd once) /\
  ChatTab.messages (snd again) = Server.log_of sid st /\
  (forall r, In r (ChatTab.requests (snd again)) ->
     In r (ChatTab.requests s) \/ r = ChatTab.GetMessages sid) /\
  (forall o, shown (ChatTab.tick i o (ChatTab.tick i o s)) = shown (ChatTab.tick i o s)) /\
  (forall u, Server.log_of sid st = [u] -> ChatTab.role u = "user" ->
     ChatTab.messages (snd again) = [u] /\
     ChatTab.isPolling (snd again) = ChatTab.isPolling s /\
     ChatTab.find_interval i (snd again) = Some t).
Proof.
  intros i sid once again.
  destruct (poll_store_iter st s t n Hlive) as [sn [Hiter [Hshown [_ Hreq]]]].
  fold i sid in Hiter, Hshown, Hreq. fold again in Hiter.
  assert (Honce : once = (st, ChatTab.tick i
                     (ChatTab.PollOk (ChatTab.DataObject (Server.log_of sid st) None)) s)).
  { change (ChatTab.find_interval i s = Some t) in Hlive.
    unfold once, poll_store. rewrite Hlive. reflexivity. }
  rewrite Hiter, Honce. cbn [fst snd].
  split; [reflexivity |]. split; [reflexivity |]. split; [reflexivity |].
  split; [exact Hshown |]. split.
  { unfold shown in Hshown. inversion Hshown as [[Hm Hp Hd]].
    rewrite Hm.
    apply (tick_ok_messages i (ChatTab.DataObject (Server.log_of sid st) None) s t Hlive). }
  split; [exact Hreq |]. split.
  { intros o. apply (tick_shown_twice i o s t Hlive). }
  intros u Hlog Hrole.
  assert (Hinc : ~ ends_with_assistant (Server.log_of sid st)).
  { apply last_is_assistant_false. rewrite Hlog.
    unfold ChatTab.last_is_assistant, ChatTab.lastMessage. simpl. rewrite Hrole. reflexivity. }
  destruct (poll_store_iter_inconclusive st s t n Hlive Hinc) as [sn' [Hiter' [Hf [Hp Hm]]]].
  fold i sid in Hiter', Hf, Hp, Hm. fold again in Hiter'.
  assert (Esn : sn' = sn) by congruence. subst sn'.
  rewrite Hm, Hlog. repeat split; assumption.
Qed.

Lemma repeated_polls_are_idempotent_witness :
  fst (Nat.iter 3 (poll_store 1) (demo_store, demo_polling)) = demo_store /\
  ChatTab.messages (snd (Nat.iter 3 (poll_store 1) (demo_store, demo_polling)))
    = [demo_user_message] /\
  ChatTab.isPolling (snd (Nat.iter 3 (poll_store 1) (demo_store, demo_polling))) = true.
Proof.
  destruct (repeated_polls_are_idempotent demo_store demo_polling demo_interval 2 eq_refl)
    as [Hst [_ [_ [_ [_ [_ [_ Huser]]]]]]].
  destruct (Huser demo_user_message eq_refl eq_refl) as [Hm [Hp _]].
  split; [exact Hst |]. split; [exact Hm | exact Hp].
Defined.

(* ================================================================== *)
(** * Part III: further properties of the code                         *)
(* ================================================================== *)

(** ** Strings *)

Lemma string_length_append (a b : string) :
  String.length (a ++ b) = (String.length a + String.length b)%nat.
Proof. induction a as [| c a IH]; simpl; [reflexivity | rewrite IH; reflexivity]. Qed.

Lemma trimStart_length (s : string) :
  (String.length (Js.trimStart s) <= String.length s)%nat.
Proof.
  induction s as [| c r IH]; simpl; [lia |].
  destruct (Js.is_whitespace c); simpl; lia.
Qed.

Lemma trimEnd_length (s : string) :
  (String.length (Js.trimEnd s) <= String.length s)%nat.
Proof.
  induction s as [| c r IH]; simpl; [lia |].
  destruct (Js.trimEnd r) as [| c' r'].
  - destruct (Js.is_whitespace c); simpl; lia.
  - simpl in *. lia.
Qed.

Lemma trim_length (s : string) : (String.length (Js.trim s) <= String.length s)%nat.
Proof.
  unfold Js.trim. pose proof (trimEnd_length (Js.trimStart s)).
  pose proof (trimStart_length s). lia.
Qed.

Lemma take_length (n : nat) (s : string) :
  (String.length (HelpersMore.take n s) <= n)%nat.
Proof.
  revert s. induction n as [| n IH]; intros [| c r]; simpl; try lia.
  specialize (IH r). lia.
Qed.

Lemma trimStart_starts_clean (s : string) : starts_clean (Js.trimStart s).
Proof.
  induction s as [| c r IH]; simpl; [exact I |].
  destruct (Js.is_whitespace c) eqn:E; [exact IH | simpl; exact E].
Qed.

Lemma trimStart_clean_id (s : string) : starts_clean s -> Js.trimStart s = s.
Proof. destruct s as [| c r]; simpl; [reflexivity |]. intros ->. reflexivity. Qed.

Lemma trimEnd_starts_clean (s : string) : starts_clean s -> starts_clean (Js.trimEnd s).
Proof.
  destruct s as [| c r]; simpl; [exact id |]. intros Hc.
  destruct (Js.trimEnd r); [rewrite Hc |]; simpl; exact Hc.
Qed.

Lemma trimEnd_idempotent (s : string) : Js.trimEnd (Js.trimEnd s) = Js.trimEnd s.
Proof.
  induction s as [| c r IH]; simpl; [reflexivity |].
  destruct (Js.trimEnd r) as [| c' r'] eqn:E.
  - destruct (Js.is_whitespace c) eqn:Ec; simpl; [reflexivity |]. rewrite Ec. reflexivity.
  - simpl. simpl in IH. rewrite IH. reflexivity.
Qed.

Lemma trim_idempotent (s : string) : Js.trim (Js.trim s) = Js.trim s.
Proof.
  unfold Js.trim.
  rewrite (trimStart_clean_id (Js.trimEnd (Js.trimStart s))).
  - apply trimEnd_idempotent.
  - apply trimEnd_starts_clean. apply trimStart_starts_clean.
Qed.

Lemma trimStart_all_whitespace (s : string) :
  all_whitespace s = true -> Js.trimStart s = "".
Proof.
  induction s as [| c r IH]; simpl; [reflexivity |].
  intros H. apply andb_prop in H. destruct H as [Hc Hr]. rewrite Hc. apply IH. exact Hr.
Qed.

Lemma trimEnd_empty_iff (s : string) :
  Js.trimEnd s = "" <-> all_whitespace s = true.
Proof.
  induction s as [| c r IH]; simpl; [tauto |].
  destruct (Js.trimEnd r) as [| c' r'].
  - destruct (Js.is_whitespace c); simpl; split; intros H; try discriminate.
    + apply IH. reflexivity.
    + reflexivity.
  - split; intros H; [discriminate |].
    apply andb_prop in H. destruct H as [_ Hr]. apply IH in Hr. discriminate.
Qed.

Lemma trim_empty_iff (s : string) : Js.trim s = "" <-> all_whitespace s = true.
Proof.
  unfold Js.trim. rewrite trimEnd_empty_iff. split.
  - induction s as [| c r IH]; simpl; [tauto |].
    destruct (Js.is_whitespace c) eqn:E; simpl.
    + exact IH.
    + rewrite E. simpl. discriminate.
  - intros H. rewrite (trimStart_all_whitespace s H). reflexivity.
Qed.

Lemma lower_char_idempotent (c : ascii) : Js.lower_char (Js.lower_char c) = Js.lower_char c.
Proof.
  destruct c as [[] [] [] [] [] [] [] []]; vm_compute; reflexivity.
Qed.

Lemma toLowerCase_idempotent (s : string) :
  Js.toLowerCase (Js.toLowerCase s) = Js.toLowerCase s.
Proof.
  induction s as [| c r IH]; simpl; [reflexivity |].
  rewrite lower_char_idempotent, IH. reflexivity.
Qed.

(** ** [truncateText] *)

(** X1. For a limit that is not negative, [truncateText] returns a text
    that fits as it is; a longer one is cut to at most [maxLength]
    characters followed by "...", so the result is never longer than
    [maxLength + 3]; a missing or empty text gives "". *)
Theorem truncateText_bounds (text : string) (maxLength : Z) (Hmax : 0 <= maxLength) :
  (Z.of_nat (String.length text) <= maxLength ->
     HelpersMore.truncateText (Some text) (Some maxLength) = text) /\
  (maxLength < Z.of_nat (String.length text) ->
     exists body,
       HelpersMore.truncateText (Some text) (Some maxLength) = body ++ "..." /\
       Z.of_nat (String.length body) <= maxLength) /\
  Z.of_nat (String.length (HelpersMore.truncateText (Some text) (Some maxLength)))
    <= maxLength + 3 /\
  HelpersMore.truncateText None (Some maxLength) = "" /\
  HelpersMore.truncateText (Some "") (Some maxLength) = "".
Proof.
  assert (Hlong : maxLength < Z.of_nat (String.length text) ->
     exists body,
       HelpersMore.truncateText (Some text) (Some maxLength) = body ++ "..." /\
       Z.of_nat (String.length body) <= maxLength).
  { intros Hlt. unfold HelpersMore.truncateText.
    destruct text as [| c r]; [simpl in Hlt; lia |].
    cbn [Js.truthy_string negb].
    destruct (Z.leb_spec (Z.of_nat (String.length (String c r))) maxLength); [lia |].
    eexists. split; [reflexivity |].
    unfold HelpersMore.substring0.
    pose proof (trim_length (HelpersMore.take (Z.to_nat maxLength) (String c r))).
    pose proof (take_length (Z.to_nat maxLength) (String c r)). lia. }
  assert (Hfit : Z.of_nat (String.length text) <= maxLength ->
     HelpersMore.truncateText (Some text) (Some maxLength) = text).
  { intros Hle. unfold HelpersMore.truncateText.
    destruct text as [| c r]; [reflexivity |]. cbn [Js.truthy_string negb].
    destruct (Z.leb_spec (Z.of_nat (String.length (String c r))) maxLength);
      [reflexivity | lia]. }
  split; [exact Hfit |]. split; [exact Hlong |]. split; [| split; reflexivity].
  destruct (Z.le_gt_cases (Z.of_nat (String.length text)) maxLength) as [Hle | Hgt].
  - rewrite (Hfit Hle). lia.
  - destruct (Hlong Hgt) as [body [-> Hb]].
    rewrite string_length_append. simpl String.length. lia.
Qed.

Lemma truncateText_bounds_witness :
  HelpersMore.truncateText (Some "short") (Some 10) = "short" /\
  Z.of_nat (String.length
     (HelpersMore.truncateText (Some "a long   preview text") (Some 7))) <= 10.
Proof.
  destruct (truncateText_bounds "short" 10 ltac:(lia)) as [Hfit _].
  destruct (truncateText_bounds "a long   preview text" 7 ltac:(lia)) as [_ [_ [Hb _]]].
  split; [apply Hfit; simpl; lia | exact Hb].
Defined.

(** ** The two file validators of [helpers.js] *)

(** X2. With their default arguments, [isValidFileType] and
    [isValidFileSize] together accept exactly the files that
    [handleFileSelect] hands to the reader. *)
Theorem helpers_validators_agree_with_handleFileSelect
    (f : UploadTab.file) (st : UploadTab.state) :
  HelpersMore.isValidFileType (Some f) None && HelpersMore.isValidFileSize (Some f) None = true
  <-> UploadTab.reads (UploadTab.handleFileSelect f st) = (UploadTab.reads st ++ [f])%list.
Proof.
  unfold HelpersMore.isValidFileType, HelpersMore.isValidFileSize, UploadTab.handleFileSelect.
  change [".txt"; ".md"] with UploadTab.allowedTypes.
  change (10 * 1024 * 1024)%N with UploadTab.maxSize.
  assert (Hempty : UploadTab.file_name f = "" ->
            Js.includes UploadTab.allowedTypes (UploadTab.fileExtension f) = false).
  { intros E. unfold UploadTab.fileExtension. rewrite E. reflexivity. }
  destruct (Js.includes UploadTab.allowedTypes (UploadTab.fileExtension f)) eqn:Hinc.
  - destruct (UploadTab.file_name f) as [| c r] eqn:En.
    { discriminate (Hempty eq_refl). }
    cbn [Js.truthy_string negb andb].
    rewrite N.leb_antisym.
    destruct (N.ltb UploadTab.maxSize (UploadTab.file_size f)); cbn [negb].
    + split; [discriminate |]. cbn [UploadTab.reads UploadTab.add_toast].
      intros H. symmetry in H. apply app_one_neq in H. contradiction.
    + split; reflexivity.
  - assert (Hfalse : (if negb (Js.truthy_string (UploadTab.file_name f)) then false else false)
                     = false) by (destruct (negb _); reflexivity).
    rewrite Hfalse. cbn [andb negb UploadTab.reads UploadTab.add_toast].
    split; [discriminate |].
    intros H. symmetry in H. apply app_one_neq in H. contradiction.
Qed.

(** ** Concept tags on the card and in the modal *)

(** X3. The card shows the first three concepts and counts the others:
    the tags shown and the "+N more" number add up to the number of
    concepts, "+N more" appears exactly when there are more than three, and
    the modal lists them all; without concepts the card shows no tags and
    the modal its placeholder. *)
Theorem renderConcepts_counts_every_concept (c : Library.content) :
  match Library.key_concepts c with
  | Some (k :: ks) =>
      exists p,
        Library.renderConcepts c = Some p /\
        Library.visibleConcepts p = firstn 3 (k :: ks) /\
        Z.of_nat (List.length (Library.visibleConcepts p))
          + match Library.more p with Some n => n | None => 0 end
        = Z.of_nat (List.length (k :: ks)) /\
        (Library.more p = None <-> (List.length (k :: ks) <= 3)%nat) /\
        ContentModal.renderConcepts c = ContentModal.ConceptTags (k :: ks)
  | _ =>
      Library.renderConcepts c = None /\
      ContentModal.renderConcepts c = ContentModal.AnalyzingConcepts
  end.
Proof.
  unfold Library.renderConcepts, ContentModal.renderConcepts.
  destruct (Library.key_concepts c) as [[| k ks] |]; try (split; reflexivity).
  eexists. split; [reflexivity |]. cbn [Library.visibleConcepts Library.more].
  split; [reflexivity |].
  pose proof (length_firstn 3 (k :: ks)) as Hlen.
  destruct (Z.ltb_spec 0 (Z.of_nat (List.length (k :: ks)) - 3)) as [Hgt | Hle].
  - split; [lia |]. split; [| reflexivity].
    split; [discriminate | intros H; lia].
  - split; [lia |]. split; [| reflexivity].
    split; [intros _; lia | reflexivity].
Qed.

(** ** The library filters *)

Lemma filter_filter {A : Type} (p q : A -> bool) (l : list A) :
  filter p (filter q l) = filter (fun x => q x && p x) l.
Proof.
  induction l as [| a l IH]; simpl; [reflexivity |].
  destruct (q a); simpl; [destruct (p a) |]; rewrite IH; reflexivity.
Qed.

Lemma filter_true {A : Type} (l : list A) : filter (fun _ => true) l = l.
Proof. induction l as [| a l IH]; simpl; [| rewrite IH]; reflexivity. Qed.

Lemma filterContents_as_filter (f : Library.filters) (cs : list Library.content) :
  Library.filterContents f cs = filter (passes f) cs.
Proof.
  unfold Library.filterContents, passes.
  destruct (Js.truthy_string (Library.search f));
    destruct (Js.truthy_string (Library.difficulty f));
    destruct (Js.truthy_string (Library.status f)); simpl;
    rewrite ?filter_filter;
    first [ symmetry; apply filter_true
          | apply filter_ext; intros a;
            repeat match goal with
                   | |- context [Library.matches_search ?t a] =>
                       destruct (Library.matches_search t a)
                   | |- context [Library.matches_difficulty ?t a] =>
                       destruct (Library.matches_difficulty t a)
                   | |- context [Library.matches_status ?t a] =>
                       destruct (Library.matches_status t a)
                   end; reflexivity ].
Qed.

(** X4. [filterContents] decides content by content: what it returns is
    the list with the contents that fail a switched-on filter left out, in
    the same order; hence no content is invented, filtering twice changes
    nothing, filtering two lists one after the other is filtering both
    apart, and with every filter empty the list is returned as it is. *)
Theorem filterContents_keeps_what_passes
    (f : Library.filters) (cs ds : list Library.content) :
  Library.filterContents f cs = filter (passes f) cs /\
  (forall c, In c (Library.filterContents f cs) <-> In c cs /\ passes f c = true) /\
  Library.filterContents f (Library.filterContents f cs) = Library.filterContents f cs /\
  Library.filterContents f (cs ++ ds)
    = (Library.filterContents f cs ++ Library.filterContents f ds)%list /\
  Library.filterContents
    {| Library.search := ""; Library.difficulty := ""; Library.status := "" |} cs = cs.
Proof.
  rewrite !filterContents_as_filter.
  split; [reflexivity |]. split; [intros c; apply filter_In |].
  split; [| split].
  - rewrite filter_filter. apply filter_ext. intros a. apply andb_diag.
  - apply filter_app.
  - apply filter_true.
Qed.

(** X5. The status filter splits the library in two: with the other
    filters fixed, every content that is listed without a status filter is
    listed under exactly one of "processed" and "processing", and any other
    value of the filter leaves the list as without it. *)
Theorem status_filter_splits_the_list
    (f : Library.filters) (cs : list Library.content) :
  (forall c, In c (Library.filterContents (with_status "" f) cs) ->
     (In c (Library.filterContents (with_status "processed" f) cs) /\
      ~ In c (Library.filterContents (with_status "processing" f) cs)) \/
     (In c (Library.filterContents (with_status "processing" f) cs) /\
      ~ In c (Library.filterContents (with_status "processed" f) cs))) /\
  (List.length (Library.filterContents (with_status "processed" f) cs)
   + List.length (Library.filterContents (with_status "processing" f) cs)
   = List.length (Library.filterContents (with_status "" f) cs))%nat /\
  (forall st, st <> "processed" -> st <> "processing" ->
     Library.filterContents (with_status st f) cs
     = Library.filterContents (with_status "" f) cs).
Proof.
  rewrite !filterContents_as_filter.
  set (base := fun c =>
    (negb (Js.truthy_string (Library.search f))
     || Library.matches_search (Js.toLowerCase (Library.search f)) c)
    && (negb (Js.truthy_string (Library.difficulty f))
        || Library.matches_difficulty (Library.difficulty f) c)).
  assert (Hnone : forall c, passes (with_status "" f) c = base c).
  { intros c. unfold passes, base. simpl. apply andb_true_r. }
  assert (Hdone : forall c, passes (with_status "processed" f) c
                            = base c && Library.processed c).
  { intros c. reflexivity. }
  assert (Hbusy : forall c, passes (with_status "processing" f) c
                            = base c && negb (Library.processed c)).
  { intros c. reflexivity. }
  split; [| split].
  - intros c Hin. apply filter_In in Hin. destruct Hin as [Hin Hp].
    rewrite Hnone in Hp. rewrite !filter_In, Hdone, Hbusy, Hp.
    destruct (Library.processed c); simpl; [left | right];
      (split; [split; [exact Hin | reflexivity] | intros [_ H]; discriminate H]).
  - rewrite (filter_ext _ _ Hnone), (filter_ext _ _ Hdone), (filter_ext _ _ Hbusy).
    induction cs as [| c cs IH]; simpl; [reflexivity |].
    destruct (base c); simpl; [| exact IH].
    destruct (Library.processed c); simpl; lia.
  - intros st Hn1 Hn2. rewrite !filterContents_as_filter.
    apply filter_ext. intros c. rewrite Hnone. unfold passes, base. simpl.
    unfold Library.matches_status.
    destruct (String.eqb_spec st "processed") as [E | _]; [contradiction |].
    destruct (String.eqb_spec st "processing") as [E | _]; [contradiction |].
    rewrite orb_true_r. apply andb_true_r.
Qed.

Lemma toLowerCase_truthy (s : string) :
  Js.truthy_string (Js.toLowerCase s) = Js.truthy_string s.
Proof. destruct s; reflexivity. Qed.

(** X6. The search does not depend on the case of the term: two filters
    whose terms agree up to case, and whose difficulty and status agree,
    list the same contents. *)
Theorem search_term_case_is_ignored
    (f g : Library.filters) (cs : list Library.content)
    (Hterm : Js.toLowerCase (Library.search f) = Js.toLowerCase (Library.search g))
    (Hdiff : Library.difficulty f = Library.difficulty g)
    (Hstat : Library.status f = Library.status g) :
  Library.filterContents f cs = Library.filterContents g cs.
Proof.
  rewrite !filterContents_as_filter. apply filter_ext. intros c. unfold passes.
  rewrite <- (toLowerCase_truthy (Library.search f)).
  rewrite <- (toLowerCase_truthy (Library.search g)).
  rewrite Hterm, Hdiff, Hstat. reflexivity.
Qed.

Lemma search_term_case_is_ignored_witness :
  let upper := {| Library.search := "MACHINE"; Library.difficulty := ""; Library.status := "" |} in
  let lower := {| Library.search := "machine"; Library.difficulty := ""; Library.status := "" |} in
  Library.filterContents upper [demo_content true; demo_content false]
  = Library.filterContents lower [demo_content true; demo_content false].
Proof.
  intros upper lower.
  apply (search_term_case_is_ignored upper lower); reflexivity.
Defined.

(** X7. With a difficulty selected, every content listed has exactly that
    level; a content that has not been analysed yet, whose level is still
    missing, is never listed. *)
Theorem difficulty_filter_lists_that_level_only
    (f : Library.filters) (cs : list Library.content) (c : Library.content)
    (Hsel : Library.difficulty f <> "")
    (Hin : In c (Library.filterContents f cs)) :
  Library.difficulty_level c = Some (Library.difficulty f).
Proof.
  rewrite filterContents_as_filter in Hin. apply filter_In in Hin.
  destruct Hin as [_ Hp]. unfold passes in Hp.
  destruct (Library.difficulty f) as [| a r] eqn:Ed; [contradiction |].
  cbn [Js.truthy_string negb orb] in Hp.
  apply andb_prop in Hp. destruct Hp as [Hp _].
  apply andb_prop in Hp. destruct Hp as [_ Hd].
  unfold Library.matches_difficulty in Hd.
  destruct (Library.difficulty_level c) as [l |]; [| discriminate].
  apply String.eqb_eq in Hd. rewrite Hd. reflexivity.
Qed.

Lemma difficulty_filter_lists_that_level_only_witness :
  let f := {| Library.search := ""; Library.difficulty := "beginner"; Library.status := "" |} in
  Library.difficulty_level (demo_content true) = Some "beginner".
Proof.
  intros f.
  apply (difficulty_filter_lists_that_level_only f
           [demo_content false; demo_content true] (demo_content true)).
  - discriminate.
  - vm_compute. left. reflexivity.
Defined.

(** ** Submitting the upload form *)

Lemma incomplete_iff (f : UploadTab.form_data) :
  UploadForm.incomplete f = false <-> filled_in f.
Proof.
  unfold UploadForm.incomplete, filled_in.
  assert (H : forall s, negb (Js.truthy_string (Js.trim s)) = all_whitespace s).
  { intros s. destruct (all_whitespace s) eqn:E.
    - apply trim_empty_iff in E. rewrite E. reflexivity.
    - destruct (Js.trim s) eqn:Et; [| reflexivity].
      apply trim_empty_iff in Et. congruence. }
  rewrite !H. rewrite orb_false_iff. tauto.
Qed.

(** X8. A submit with a blank name or a blank content (empty or white
    space only) hands nothing to [uploadContent] and leaves the form as it
    is, with an error shown; otherwise the form data goes out as typed, and
    then a failed upload keeps the form for another try while a successful
    one empties the form and the file input and reports success once. The
    busy flag is off again in either case. *)
Theorem handleSubmit_outcomes (o : UploadForm.upload_outcome) (st : UploadForm.state) :
  let st' := UploadForm.handleSubmit o st in
  (filled_in (UploadForm.formData st) ->
     UploadForm.uploads st' = (UploadForm.uploads st ++ [UploadForm.formData st])%list /\
     UploadForm.isLoading st' = false /\
     match o with
     | UploadForm.Uploaded =>
         UploadForm.formData st' = UploadForm.emptyForm /\
         UploadForm.fileInputValue st' = "" /\
         UploadForm.successes st' = S (UploadForm.successes st)
     | UploadForm.UploadFailed =>
         UploadForm.formData st' = UploadForm.formData st /\
         UploadForm.fileInputValue st' = UploadForm.fileInputValue st /\
         UploadForm.successes st' = UploadForm.successes st
     end) /\
  (~ filled_in (UploadForm.formData st) ->
     UploadForm.uploads st' = UploadForm.uploads st /\
     UploadForm.formData st' = UploadForm.formData st /\
     UploadForm.isLoading st' = UploadForm.isLoading st /\
     UploadForm.successes st' = UploadForm.successes st /\
     UploadForm.notices st' =
       (UploadForm.notices st
          ++ [UploadForm.NoticeError "Please fill in both name and content"])%list).
Proof.
  intros st'. subst st'. unfold UploadForm.handleSubmit, UploadForm.handleSubmit_begin.
  destruct (UploadForm.incomplete (UploadForm.formData st)) eqn:E.
  - split.
    + intros Hf. apply incomplete_iff in Hf. congruence.
    + intros _. repeat split.
  - split.
    + intros _. destruct o; repeat split.
    + intros Hn. apply incomplete_iff in E. contradiction.
Qed.

Lemma handleSubmit_outcomes_witness :
  let typed := form_run [Typed UploadForm.InputName "Intro to ML";
                         Typed UploadForm.InputContent "Machine learning is ..."]
                        form_initial in
  UploadForm.formData (UploadForm.handleSubmit UploadForm.UploadFailed typed)
    = UploadForm.formData typed /\
  UploadForm.uploads
    (UploadForm.handleSubmit UploadForm.Uploaded
       (UploadForm.handleInputChange UploadForm.InputContent "   " typed))
    = [].
Proof.
  intros typed. split.
  - destruct (handleSubmit_outcomes UploadForm.UploadFailed typed) as [H _].
    destruct H as [_ [_ [Hform _]]]; [split; reflexivity | exact Hform].
  - destruct (handleSubmit_outcomes UploadForm.Uploaded
                (UploadForm.handleInputChange UploadForm.InputContent "   " typed))
      as [_ H].
    destruct H as [Hup _]; [| exact Hup].
    intros [_ Hc]. discriminate Hc.
Defined.

(** X9. Whatever is typed, loaded, submitted or cleared, in any order
    from the empty form: every payload handed to [uploadContent] has a name
    and a content that are not blank, the successes reported never exceed
    the uploads sent, and the busy flag is off between events. *)
Theorem uploads_are_never_blank (es : list form_event) :
  let st := form_run es form_initial in
  Forall filled_in (UploadForm.uploads st) /\
  (UploadForm.successes st <= List.length (UploadForm.uploads st))%nat /\
  UploadForm.isLoading st = false.
Proof.
  assert (Hstep : forall e st,
    (Forall filled_in (UploadForm.uploads st) /\
     (UploadForm.successes st <= List.length (UploadForm.uploads st))%nat /\
     UploadForm.isLoading st = false) ->
    (Forall filled_in (UploadForm.uploads (form_step e st)) /\
     (UploadForm.successes (form_step e st)
        <= List.length (UploadForm.uploads (form_step e st)))%nat /\
     UploadForm.isLoading (form_step e st) = false)).
  { intros e st [Hall [Hle Hbusy]]. destruct e as [field value | f text | o |]; simpl.
    - repeat split; assumption.
    - repeat split; assumption.
    - unfold UploadForm.handleSubmit, UploadForm.handleSubmit_begin.
      destruct (UploadForm.incomplete (UploadForm.formData st)) eqn:E; simpl.
      + repeat split; assumption.
      + apply incomplete_iff in E.
        destruct o; simpl; (split; [apply Forall_app; split; [exact Hall | constructor; [exact E | constructor]] |]);
          rewrite length_app; simpl; split; try reflexivity; lia.
    - repeat split; assumption. }
  unfold form_run.
  assert (Hgen : forall st,
    (Forall filled_in (UploadForm.uploads st) /\
     (UploadForm.successes st <= List.length (UploadForm.uploads st))%nat /\
     UploadForm.isLoading st = false) ->
    let st' := fold_left (fun acc e => form_step e acc) es st in
    Forall filled_in (UploadForm.uploads st') /\
    (UploadForm.successes st' <= List.length (UploadForm.uploads st'))%nat /\
    UploadForm.isLoading st' = false).
  { induction es as [| e es IH]; intros st Hinv; simpl; [exact Hinv |].
    apply IH. apply Hstep. exact Hinv. }
  apply Hgen. simpl. repeat split; [constructor | lia].
Qed.

(** ** The name taken from a loaded file *)

Lemma pop_cons (x : string) (l : list string) :
  l <> [] -> Js.pop (x :: l) = Js.pop l.
Proof.
  intros Hl. unfold Js.pop. simpl.
  destruct (rev l) as [| z zs] eqn:E; [| reflexivity].
  apply (f_equal (@rev string)) in E. rewrite rev_involutive in E. contradiction.
Qed.

Lemma pop_cons_nonempty (x y : string) (l : list string) :
  l <> [] -> Js.pop (x :: l) = Js.pop (y :: l).
Proof. intros Hl. rewrite !pop_cons by exact Hl. reflexivity. Qed.

Lemma split_not_nil (sep : ascii) (s : string) : Js.split sep s <> [].
Proof.
  destruct s as [| c r]; simpl; [discriminate |].
  destruct (Ascii.eqb c sep); [discriminate |].
  destruct (Js.split sep r); discriminate.
Qed.

(** The last segment of a name: the whole name when it has no dot, else
    what follows its last dot. *)
Lemma split_last_segment (s : string) :
  (Js.split "." s = [s] /\ no_dot s = true) \/
  (exists base seg,
     Js.pop (Js.split "." s) = Some seg /\ s = base ++ "." ++ seg /\
     no_dot seg = true /\ (2 <= List.length (Js.split "." s))%nat).
Proof.
  induction s as [| c r IH]; [left; split; reflexivity |].
  simpl Js.split. destruct (Ascii.eqb_spec c ".") as [-> | Hc].
  - right. destruct IH as [[Hs Hnd] | [base [seg [Hpop [Hr [Hnd Hlen]]]]]].
    + exists "", r. rewrite Hs. repeat split; try assumption. simpl. lia.
    + exists (String "." base), seg.
      split; [| split; [rewrite Hr at 1; reflexivity | split; [exact Hnd | simpl; lia]]].
      rewrite <- Hpop. apply pop_cons. apply split_not_nil.
  - destruct IH as [[Hs Hnd] | [base [seg [Hpop [Hr [Hnd Hlen]]]]]].
    + left. rewrite Hs. split; [reflexivity |]. simpl.
      destruct (Ascii.eqb_spec c "."); [contradiction | exact Hnd].
    + right. destruct (Js.split "." r) as [| x l] eqn:E; [simpl in Hlen; lia |].
      exists (String c base), seg.
      split; [| split; [rewrite Hr at 1; reflexivity | split; [exact Hnd | exact Hlen]]].
      rewrite <- Hpop. apply pop_cons_nonempty.
      destruct l; [simpl in Hlen; lia | discriminate].
Qed.

Lemma strip_no_dot (s : string) : no_dot s = true -> Js.strip_last_extension s = s.
Proof.
  induction s as [| c r IH]; simpl; [reflexivity |].
  intros H. apply andb_prop in H. destruct H as [Hc Hr].
  apply negb_true_iff in Hc. rewrite Hc. simpl. rewrite (IH Hr). reflexivity.
Qed.

Lemma no_slash_no_dot_with_dot (b seg : string) :
  Js.no_slash_no_dot (b ++ String "." seg) = false.
Proof.
  induction b as [| c b IH]; simpl; [reflexivity |].
  rewrite IH. apply andb_false_r.
Qed.

(** The regular expression removes what follows the last dot, the dot
    included, when that is not empty and holds no slash. *)
Lemma strip_last_extension_after_last_dot (base seg : string) :
  no_dot seg = true ->
  Js.strip_last_extension (base ++ "." ++ seg) =
    if Js.truthy_string seg && Js.no_slash_no_dot seg then base
    else base ++ "." ++ seg.
Proof.
  intros Hnd. change ("." ++ seg) with (String "." seg).
  induction base as [| c b IH].
  - simpl. destruct (Js.truthy_string seg && Js.no_slash_no_dot seg); [reflexivity |].
    rewrite (strip_no_dot seg Hnd). reflexivity.
  - simpl. rewrite no_slash_no_dot_with_dot, andb_false_r, IH.
    destruct (Js.truthy_string seg && Js.no_slash_no_dot seg); reflexivity.
Qed.

Lemma lower_char_plain (c : ascii) :
  Js.lower_char c <> "/"%char -> Js.lower_char c <> "."%char ->
  negb (Ascii.eqb c "/") && negb (Ascii.eqb c ".") = true.
Proof.
  intros Hs Hd.
  destruct (Ascii.eqb_spec c "/") as [-> | _]; [exfalso; apply Hs; reflexivity |].
  destruct (Ascii.eqb_spec c ".") as [-> | _]; [exfalso; apply Hd; reflexivity |].
  reflexivity.
Qed.

Lemma allowed_segment_is_plain (seg : string) :
  Js.toLowerCase seg = "txt" \/ Js.toLowerCase seg = "md" ->
  Js.truthy_string seg && Js.no_slash_no_dot seg = true.
Proof.
  intros [H | H].
  - destruct seg as [| c1 [| c2 [| c3 [| c4 r]]]]; try discriminate H.
    simpl in H. inversion H as [[H1 H2 H3]]. simpl.
    rewrite !lower_char_plain; try reflexivity; congruence.
  - destruct seg as [| c1 [| c2 [| c3 r]]]; try discriminate H.
    simpl in H. inversion H as [[H1 H2]]. simpl.
    rewrite !lower_char_plain; try reflexivity; congruence.
Qed.

(** X10. For every file that passes the type check, the name put into an
    empty name field is the file name without its extension: the file name
    is that name, a dot, and a last segment that reads "txt" or "md" when
    lower-cased; only a file whose whole name is that segment, without a
    dot, keeps its full name. A name already typed is never replaced, and
    the content becomes the text read. *)
Theorem loaded_file_fills_name_without_extension
    (f : UploadTab.file) (text : string) (st : UploadTab.state)
    (Hacc : Js.includes UploadTab.allowedTypes (UploadTab.fileExtension f) = true)
    (Hsize : (UploadTab.file_size f <= UploadTab.maxSize)%N) :
  let base := Js.strip_last_extension (UploadTab.file_name f) in
  let st' := UploadTab.select_then_settle f (UploadTab.Loaded text) st in
  (exists seg,
     (Js.toLowerCase seg = "txt" \/ Js.toLowerCase seg = "md") /\
     ((UploadTab.file_name f = seg /\ base = seg) \/
      UploadTab.file_name f = base ++ "." ++ seg)) /\
  UploadTab.content (UploadTab.formData st') = text /\
  (UploadTab.name (UploadTab.formData st) = "" ->
     UploadTab.name (UploadTab.formData st') = base) /\
  (UploadTab.name (UploadTab.formData st) <> "" ->
     UploadTab.name (UploadTab.formData st') = UploadTab.name (UploadTab.formData st)).
Proof.
  intros base st'.
  assert (Hseg : exists seg,
     (Js.toLowerCase seg = "txt" \/ Js.toLowerCase seg = "md") /\
     ((UploadTab.file_name f = seg /\ base = seg) \/
      UploadTab.file_name f = base ++ "." ++ seg)).
  { apply includes_allowedTypes in Hacc. unfold UploadTab.fileExtension in Hacc.
    subst base.
    destruct (split_last_segment (UploadTab.file_name f))
      as [[Hs Hnd] | [b [seg [Hpop [Hname [Hnd _]]]]]].
    - rewrite Hs in Hacc. unfold Js.pop in Hacc. simpl in Hacc.
      exists (UploadTab.file_name f). split.
      + destruct Hacc as [H | H]; inversion H; auto.
      + left. split; [reflexivity | apply strip_no_dot; exact Hnd].
    - rewrite Hpop in Hacc. exists seg.
      assert (Hlow : Js.toLowerCase seg = "txt" \/ Js.toLowerCase seg = "md").
      { destruct Hacc as [H | H]; inversion H; auto. }
      split; [exact Hlow |]. right.
      rewrite Hname at 1 2.
      rewrite (strip_last_extension_after_last_dot b seg Hnd).
      rewrite (allowed_segment_is_plain seg Hlow). reflexivity. }
  split; [exact Hseg |].
  subst st'. unfold UploadTab.select_then_settle, UploadTab.handleFileSelect.
  rewrite Hacc. cbn [negb].
  assert (Hok : (UploadTab.maxSize <? UploadTab.file_size f)%N = false)
    by (apply N.ltb_ge; exact Hsize).
  rewrite Hok. cbn [UploadTab.reads].
  rewrite skipn_app, skipn_all, Nat.sub_diag. simpl.
  split; [reflexivity |]. split.
  - intros ->. reflexivity.
  - intros Hne. destruct (UploadTab.name (UploadTab.formData st)); [contradiction | reflexivity].
Qed.

Lemma loaded_file_fills_name_without_extension_witness :
  let f := {| UploadTab.file_name := "lecture.notes.TXT"; UploadTab.file_size := 512 |} in
  let st := {| UploadTab.formData := {| UploadTab.name := ""; UploadTab.content := "" |};
               UploadTab.toasts := []; UploadTab.reads := [] |} in
  UploadTab.name
    (UploadTab.formData (UploadTab.select_then_settle f (UploadTab.Loaded "week 1") st))
  = "lecture.notes".
Proof.
  intros f st.
  destruct (loaded_file_fills_name_without_extension f "week 1" st eq_refl)
    as [_ [_ [Hname _]]].
  - vm_compute. discriminate.
  - apply Hname. reflexivity.
Defined.

(** ** The sections of the debug panel *)

(** X11. A click on a section header flips that section and no other;
    two clicks on the same header leave every section open or closed as it
    was. The panel starts with every section closed, and in the open panel
    the query-analysis items appear after one click on their header and are
    hidden again after the next. *)
Theorem toggleSection_flips_one_section
    (k k' : DebugPanel.section_name) (e : DebugPanel.expanded)
    (dbg : DebugToolbar.debug_info) (qa : DebugToolbar.query_analysis)
    (Hqa : DebugToolbar.query_analysis_of dbg = DebugToolbar.Present qa) :
  DebugPanel.is_expanded k (DebugPanel.toggleSection k e) = negb (DebugPanel.is_expanded k e) /\
  (k' <> k -> DebugPanel.get k' (DebugPanel.toggleSection k e) = DebugPanel.get k' e) /\
  DebugPanel.is_expanded k' (DebugPanel.toggleSection k (DebugPanel.toggleSection k e))
    = DebugPanel.is_expanded k' e /\
  DebugPanel.is_expanded k' DebugPanel.no_sections = false /\
  (let opened := DebugPanel.toggle_open DebugPanel.initial in
   let once := DebugPanel.click_header DebugPanel.Query opened in
   let twice := DebugPanel.click_header DebugPanel.Query once in
   DebugPanel.render_query_section DebugPanel.initial (Some dbg) = None /\
   option_map DebugToolbar.items (DebugPanel.render_query_section opened (Some dbg))
     = Some [] /\
   option_map DebugToolbar.items (DebugPanel.render_query_section once (Some dbg))
     = Some (DebugToolbar.query_analysis_items qa) /\
   option_map DebugToolbar.items (DebugPanel.render_query_section twice (Some dbg))
     = Some []).
Proof.
  split; [| split; [| split; [| split]]].
  - destruct k; reflexivity.
  - intros Hne. destruct k, k'; try reflexivity; contradiction.
  - unfold DebugPanel.toggleSection, DebugPanel.is_expanded.
    destruct k, k', e as [[[] |] [[] |] [[] |]]; reflexivity.
  - destruct k'; reflexivity.
  - unfold DebugPanel.render_query_section, DebugToolbar.query_section. simpl.
    rewrite Hqa. repeat split.
Qed.

Lemma toggleSection_flips_one_section_witness :
  let qa := {| DebugToolbar.original_query := DebugToolbar.Present "What is AI?";
               DebugToolbar.extracted_keywords := DebugToolbar.Absent;
               DebugToolbar.embedding_model := DebugToolbar.Present "text-embedding";
               DebugToolbar.search_time_ms := DebugToolbar.Present 12;
               DebugToolbar.keyword_search_time_ms := DebugToolbar.Absent;
               DebugToolbar.vector_search_time_ms := DebugToolbar.Absent;
               DebugToolbar.total_indexed_contents := DebugToolbar.Present 1;
               DebugToolbar.error := DebugToolbar.Absent |} in
  DebugPanel.is_expanded DebugPanel.Passages
    (DebugPanel.toggleSection DebugPanel.Query
       (DebugPanel.toggleSection DebugPanel.Query DebugPanel.no_sections)) = false.
Proof.
  intros qa.
  destruct (toggleSection_flips_one_section DebugPanel.Query DebugPanel.Passages
              DebugPanel.no_sections
              {| DebugToolbar.query_analysis_of := DebugToolbar.Present qa;
                 DebugToolbar.processing_info_of := DebugToolbar.Absent |}
              qa eq_refl) as [_ [_ [H _]]].
  exact H.
Defined.

(** ** The chat component over any sequence of events *)

Lemma find_app_left {A : Type} (f : A -> bool) (l l' : list A) (x : A) :
  find f l = Some x -> find f (l ++ l') = Some x.
Proof.
  induction l as [| a l IH]; simpl; [discriminate |].
  destruct (f a); [exact id | exact IH].
Qed.

Lemma fresh_ids_step (e : chat_event) (s : ChatTab.state) :
  fresh_ids s -> fresh_ids (chat_step e s).
Proof.
  destruct e as [text | clk o | i o]; simpl; intros H.
  - exact H.
  - apply fresh_ids_sendMessage. exact H.
  - apply fresh_ids_tick. exact H.
Qed.

Lemma sendMessage_unfold (clk : ChatTab.clock) (o : ChatTab.post_outcome)
    (s : ChatTab.state) :
  ChatTab.sendMessage clk o s = s /\ ChatTab.send_blocked s = true \/
  exists cs, ChatTab.currentSession s = Some cs /\ ChatTab.send_blocked s = false /\
    ChatTab.sendMessage clk o s =
      ChatTab.sendMessage_settle
        {| ChatTab.temp := ChatTab.tempUserMessage clk s; ChatTab.send_session := cs |} o
        (ChatTab.add_request
           (ChatTab.PostMessage (ChatTab.session_id cs) (Js.trim (ChatTab.messageInput s)))
           (ChatTab.setMessages (fun prev => (prev ++ [ChatTab.tempUserMessage clk s])%list)
              (ChatTab.setIsSending true (ChatTab.setMessageInput "" s)))).
Proof.
  unfold ChatTab.sendMessage, ChatTab.sendMessage_begin.
  destruct (ChatTab.send_blocked s) eqn:Hb; [left; split; reflexivity |].
  destruct (ChatTab.currentSession s) as [cs |] eqn:Hcs.
  - right. exists cs. repeat split.
  - unfold ChatTab.send_blocked in Hb. rewrite Hcs, orb_true_r in Hb. discriminate Hb.
Qed.

Lemma tick_unfold (i : positive) (o : ChatTab.poll_outcome) (s : ChatTab.state) :
  (ChatTab.tick i o s = s /\ ChatTab.find_interval i s = None) \/
  exists t, ChatTab.find_interval i s = Some t /\
    let s1 := ChatTab.add_request
                (ChatTab.GetMessages (ChatTab.session_id (ChatTab.polled_session t))) s in
    (ChatTab.tick i o s = s1 \/
     (exists d, o = ChatTab.PollOk d /\
        ChatTab.tick i o s = ChatTab.setMessages (fun _ => ChatTab.newMessages d) s1) \/
     (exists d s2,
        o = ChatTab.PollOk d /\
        ChatTab.intervals s2 = ChatTab.intervals s /\
        ChatTab.next_interval s2 = ChatTab.next_interval s /\
        ChatTab.pollingIntervalRef s2 = ChatTab.pollingIntervalRef s /\
        ChatTab.requests s2 = ChatTab.requests s1 /\
        ChatTab.currentSession s2 = ChatTab.currentSession s /\
        ChatTab.isSending s2 = ChatTab.isSending s /\
        ChatTab.isPolling s2 = ChatTab.isPolling s /\
        ChatTab.tick i o s =
          ChatTab.add_toast (ChatTab.ToastSuccess "AI has responded!") (ChatTab.stopPolling s2))).
Proof.
  unfold ChatTab.tick. destruct (ChatTab.find_interval i s) as [t |] eqn:Hf;
    [right | left; split; reflexivity].
  exists t. split; [reflexivity |]. cbv zeta. unfold ChatTab.poll_callback.
  destruct o as [d |]; [| left; reflexivity].
  destruct (ChatTab.last_is_assistant (ChatTab.newMessages d)).
  - right. right. exists d.
    destruct (ChatTab.debug_info_of d) as [dbg |].
    + exists (ChatTab.setDebugInfo dbg
                (ChatTab.setMessages (fun _ => ChatTab.newMessages d)
                   (ChatTab.add_request
                      (ChatTab.GetMessages (ChatTab.session_id (ChatTab.polled_session t)))
                      s))).
      repeat split.
    + exists (ChatTab.setMessages (fun _ => ChatTab.newMessages d)
                (ChatTab.add_request
                   (ChatTab.GetMessages (ChatTab.session_id (ChatTab.polled_session t)))
                   s)).
      repeat split.
  - right. left. exists d. split; reflexivity.
Qed.

(** X12. Along any sequence of typing, sends and poll firings from the
    mounted component, the typing indicator is on exactly while the ref
    holds an interval, that interval is live and fires once a second, no
    send is left pending, the selected session stays the same and interval
    ids stay below the browser's counter. *)
Theorem chat_keeps_indicator_consistent
    (cs : option ChatTab.session) (es : list chat_event) :
  let s := chat_run es (ChatTab.initial cs) in
  indicator_consistent s /\
  ChatTab.isSending s = false /\
  ChatTab.currentSession s = cs /\
  fresh_ids s /\
  Forall (fun t => ChatTab.period_ms t = 1000) (ChatTab.intervals s).
Proof.
  set (Inv := fun s : ChatTab.state =>
    indicator_consistent s /\ ChatTab.isSending s = false /\
    ChatTab.currentSession s = cs /\ fresh_ids s /\
    Forall (fun t => ChatTab.period_ms t = 1000) (ChatTab.intervals s)).
  assert (Hstop : forall s2, Inv s2 ->
            Inv (ChatTab.add_toast (ChatTab.ToastSuccess "AI has responded!")
                   (ChatTab.stopPolling s2))).
  { intros s2 [Hind [Hsend [Hcur [Hids Hper]]]].
    unfold Inv, indicator_consistent, ChatTab.stopPolling, fresh_ids in *.
    destruct (ChatTab.pollingIntervalRef s2) as [j |] eqn:Href; cbn; rewrite ?Href; cbn.
    - repeat split; try assumption;
        apply Forall_forall; intros a Ha; apply filter_In in Ha; destruct Ha as [Ha _].
      + rewrite Forall_forall in Hids. apply Hids. exact Ha.
      + rewrite Forall_forall in Hper. apply Hper. exact Ha.
    - rewrite Href. repeat split; assumption. }
  assert (Hstep : forall e s, Inv s -> Inv (chat_step e s)).
  { intros e s HI. pose proof HI as [Hind [Hsend [Hcur [Hids Hper]]]].
    destruct e as [text | clk o | i o]; simpl.
    - exact HI.
    - destruct (sendMessage_unfold clk o s) as [[-> _] | [c [Hc [_ ->]]]]; [exact HI |].
      destruct o as [d | st]; unfold ChatTab.sendMessage_settle.
      + unfold Inv, indicator_consistent. cbn.
        split; [| split; [reflexivity | split; [exact Hcur | split]]].
        * split; [reflexivity |].
          exists {| ChatTab.interval_id := ChatTab.next_interval s;
                    ChatTab.period_ms := 1000; ChatTab.polled_session := c |}.
          split; [| reflexivity].
          unfold ChatTab.find_interval. cbn. apply find_app_last.
          -- intros y Hy. unfold fresh_ids in Hids. rewrite Forall_forall in Hids.
             specialize (Hids y Hy). apply Pos.eqb_neq. lia.
          -- cbn. apply Pos.eqb_refl.
        * apply (fresh_ids_startPolling c s Hids).
        * apply Forall_app. split; [exact Hper | repeat constructor].
      + unfold Inv. cbn. repeat split; assumption.
    - destruct (tick_unfold i o s) as [[-> _] | [t [Hf Hcases]]]; [exact HI |].
      cbv zeta in Hcases.
      destruct Hcases
        as [-> | [[d [_ ->]] | [d [s2 [_ [Hi2 [Hn2 [Hr2 [_ [Hc2 [Hs2 [Hp2 ->]]]]]]]]]]]].
      + exact HI.
      + exact HI.
      + apply Hstop. unfold Inv, indicator_consistent, fresh_ids, ChatTab.find_interval in *.
        rewrite Hi2, Hn2, Hr2, Hc2, Hs2, Hp2. exact HI. }
  unfold chat_run.
  assert (Hgen : forall s, Inv s -> Inv (fold_left (fun acc e => chat_step e acc) es s)).
  { induction es as [| e es IH]; intros s HI; simpl; [exact HI |].
    apply IH. apply Hstep. exact HI. }
  apply Hgen. unfold Inv, indicator_consistent. cbn.
  repeat split; constructor.
Qed.

Lemma find_interval_id (i : positive) (s : ChatTab.state) (t : ChatTab.interval) :
  ChatTab.find_interval i s = Some t ->
  In t (ChatTab.intervals s) /\ ChatTab.interval_id t = i.
Proof.
  unfold ChatTab.find_interval. intros H. apply find_some in H.
  destruct H as [Hin Heq]. apply Pos.eqb_eq in Heq. split; assumption.
Qed.

(** An interval that the ref does not hold is out of reach: no event
    clears it, and the ref never comes back to it. *)
Lemma superseded_step (i : positive) (t : ChatTab.interval) (e : chat_event)
    (s : ChatTab.state) :
  fresh_ids s -> ChatTab.find_interval i s = Some t ->
  ChatTab.pollingIntervalRef s <> Some i ->
  ChatTab.find_interval i (chat_step e s) = Some t /\
  ChatTab.pollingIntervalRef (chat_step e s) <> Some i.
Proof.
  intros Hids Hfind Href.
  destruct (find_interval_id i s t Hfind) as [Hin Hid].
  assert (Hlt : (i < ChatTab.next_interval s)%positive).
  { unfold fresh_ids in Hids. rewrite Forall_forall in Hids.
    specialize (Hids t Hin). rewrite Hid in Hids. exact Hids. }
  destruct e as [text | clk o | j o]; simpl.
  - split; assumption.
  - destruct (sendMessage_unfold clk o s) as [[-> _] | [c [Hc [_ ->]]]];
      [split; assumption |].
    destruct o as [d | st]; unfold ChatTab.sendMessage_settle.
    + split.
      * unfold ChatTab.find_interval. cbn. apply find_app_left. exact Hfind.
      * cbn. intros H. inversion H. lia.
    + split; assumption.
  - destruct (tick_unfold j o s) as [[-> _] | [t' [Hf Hcases]]]; [split; assumption |].
    cbv zeta in Hcases.
    destruct Hcases
      as [-> | [[d [_ ->]] | [d [s2 [_ [Hi2 [Hn2 [Hr2 [_ [Hc2 [Hs2 [Hp2 ->]]]]]]]]]]]].
    + split; assumption.
    + split; assumption.
    + unfold ChatTab.stopPolling, ChatTab.find_interval in *.
      destruct (ChatTab.pollingIntervalRef s) as [k |] eqn:Hk;
        cbn; rewrite Hr2; cbn; rewrite ?Hi2.
      * split; [| discriminate].
        rewrite find_filter_other; [exact Hfind | congruence].
      * split; [exact Hfind | rewrite Hr2; discriminate].
Qed.

Lemma superseded_run (i : positive) (t : ChatTab.interval) (es : list chat_event) :
  forall s, fresh_ids s -> ChatTab.find_interval i s = Some t ->
  ChatTab.pollingIntervalRef s <> Some i ->
  ChatTab.find_interval i (chat_run es s) = Some t.
Proof.
  unfold chat_run. induction es as [| e es IH]; intros s Hids Hfind Href; simpl;
    [exact Hfind |].
  destruct (superseded_step i t e s Hids Hfind Href) as [Hf Hr].
  apply IH; [apply fresh_ids_step; exact Hids | exact Hf | exact Hr].
Qed.

(** X13. A message sent while a loop is still running starts a second
    loop and takes the ref away from the first. From then on nothing that
    the user or the polls do clears the first interval: after any sequence
    of typing, sends and poll firings it is still live, and every firing of
    it issues one more read of the message list. *)
Theorem superseded_interval_is_never_cleared
    (s : ChatTab.state) (t : ChatTab.interval) (clk : ChatTab.clock)
    (d : ChatTab.response_data) (es : list chat_event)
    (Hids : fresh_ids s) (Hrun : polling t s) (Hgo : ChatTab.send_blocked s = false) :
  let s1 := ChatTab.sendMessage clk (ChatTab.PostOk d) s in
  let s2 := chat_run es s1 in
  ChatTab.pollingIntervalRef s1 = Some (ChatTab.next_interval s) /\
  ChatTab.pollingIntervalRef s1 <> Some (ChatTab.interval_id t) /\
  ChatTab.find_interval (ChatTab.interval_id t) s2 = Some t /\
  (forall o,
     ChatTab.requests (ChatTab.tick (ChatTab.interval_id t) o s2)
     = (ChatTab.requests s2
          ++ [ChatTab.GetMessages (ChatTab.session_id (ChatTab.polled_session t))])%list).
Proof.
  intros s1 s2. destruct Hrun as [_ [_ Hfind]].
  destruct (find_interval_id _ _ _ Hfind) as [Hin _].
  assert (Hlt : (ChatTab.interval_id t < ChatTab.next_interval s)%positive).
  { unfold fresh_ids in Hids. rewrite Forall_forall in Hids. exact (Hids t Hin). }
  assert (Hs1 : ChatTab.pollingIntervalRef s1 = Some (ChatTab.next_interval s) /\
                ChatTab.find_interval (ChatTab.interval_id t) s1 = Some t).
  { subst s1.
    destruct (sendMessage_unfold clk (ChatTab.PostOk d) s) as [[_ Hb] | [c [Hc [_ ->]]]];
      [congruence |].
    unfold ChatTab.sendMessage_settle, ChatTab.find_interval. cbn.
    split; [reflexivity | apply find_app_left; exact Hfind]. }
  destruct Hs1 as [Href1 Hfind1].
  assert (Hne : ChatTab.pollingIntervalRef s1 <> Some (ChatTab.interval_id t)).
  { rewrite Href1. intros H. inversion H. lia. }
  assert (Hfind2 : ChatTab.find_interval (ChatTab.interval_id t) s2 = Some t).
  { apply superseded_run; [| exact Hfind1 | exact Hne].
    apply (fresh_ids_sendMessage clk (ChatTab.PostOk d) s Hids). }
  split; [exact Href1 |]. split; [exact Hne |]. split; [exact Hfind2 |].
  intros o. apply (tick_requests _ o s2 t Hfind2).
Qed.

Lemma superseded_interval_is_never_cleared_witness :
  let s := ChatTab.setMessageInput "second"
             (ChatTab.sendMessage demo_clock (ChatTab.PostOk (ChatTab.DataArray []))
                (ChatTab.setMessageInput "first" (ChatTab.initial (Some demo_session)))) in
  let answered := ChatTab.PollOk
                    (ChatTab.DataArray [demo_user_message; demo_assistant_message]) in
  ChatTab.find_interval 1
    (chat_run [PollFired 2 answered; PollFired 1 answered; PollFired 1 answered]
       (ChatTab.sendMessage demo_clock (ChatTab.PostOk (ChatTab.DataArray [])) s))
  = Some demo_interval.
Proof.
  intros s answered.
  assert (Hids : fresh_ids s).
  { apply (fresh_ids_step (ChatTyped "second")).
    apply fresh_ids_sendMessage.
    apply (fresh_ids_step (ChatTyped "first")). apply fresh_ids_initial. }
  assert (Hrun : polling demo_interval s) by (repeat split).
  destruct (superseded_interval_is_never_cleared s demo_interval demo_clock
              (ChatTab.DataArray [])
              [PollFired 2 answered; PollFired 1 answered; PollFired 1 answered]
              Hids Hrun eq_refl) as [_ [_ [H _]]].
  exact H.
Defined.

(** ** The loop has no deadline *)

Lemma no_answer_step (i : positive) (t : ChatTab.interval) (e : chat_event)
    (s : ChatTab.state) :
  no_answer e ->
  ChatTab.isPolling s = true -> ChatTab.find_interval i s = Some t ->
  ChatTab.isPolling (chat_step e s) = true /\
  ChatTab.find_interval i (chat_step e s) = Some t /\
  exists ts, ChatTab.toasts (chat_step e s) = (ChatTab.toasts s ++ ts)%list /\
             Forall send_notice ts.
Proof.
  intros Hq Hon Hfind.
  assert (Hsame : ChatTab.isPolling s = true /\ ChatTab.find_interval i s = Some t /\
                  exists ts, ChatTab.toasts s = (ChatTab.toasts s ++ ts)%list /\
                             Forall send_notice ts).
  { split; [exact Hon |]. split; [exact Hfind |].
    exists []. rewrite app_nil_r. split; [reflexivity | constructor]. }
  destruct e as [text | clk o | j o]; simpl.
  - exact Hsame.
  - destruct (sendMessage_unfold clk o s) as [[-> _] | [c [Hc [_ ->]]]];
      [exact Hsame |].
    destruct o as [d | st]; unfold ChatTab.sendMessage_settle.
    + split; [reflexivity |]. split.
      * unfold ChatTab.find_interval. cbn. apply find_app_left. exact Hfind.
      * exists [ChatTab.ToastSuccess "Message sent! AI is thinking..."].
        split; [reflexivity |]. constructor; [left; reflexivity | constructor].
    + split; [exact Hon |]. split; [exact Hfind |].
      exists [ChatTab.send_error_toast st]. split; [reflexivity |].
      constructor; [| constructor].
      unfold send_notice, ChatTab.send_error_toast.
      destruct st as [z |]; [destruct (z =? 401) |]; auto.
  - simpl in Hq. unfold ChatTab.tick.
    destruct (ChatTab.find_interval j s) as [t' |]; [| exact Hsame].
    unfold ChatTab.poll_callback. destruct o as [d |]; simpl in Hq.
    + apply last_is_assistant_false in Hq. rewrite Hq. exact Hsame.
    + exact Hsame.
Qed.

Lemma no_answer_run (i : positive) (t : ChatTab.interval) (es : list chat_event) :
  forall s, Forall no_answer es ->
  ChatTab.isPolling s = true -> ChatTab.find_interval i s = Some t ->
  ChatTab.isPolling (chat_run es s) = true /\
  ChatTab.find_interval i (chat_run es s) = Some t /\
  exists ts, ChatTab.toasts (chat_run es s) = (ChatTab.toasts s ++ ts)%list /\
             Forall send_notice ts.
Proof.
  unfold chat_run. induction es as [| e es IH]; intros s Hes Hon Hfind; simpl.
  - split; [exact Hon |]. split; [exact Hfind |].
    exists []. rewrite app_nil_r. split; [reflexivity | constructor].
  - inversion Hes as [| ? ? He Hrest]; subst.
    destruct (no_answer_step i t e s He Hon Hfind) as [Hon1 [Hfind1 [ts1 [Ht1 Hn1]]]].
    destruct (IH _ Hrest Hon1 Hfind1) as [Hon2 [Hfind2 [ts2 [Ht2 Hn2]]]].
    split; [exact Hon2 |]. split; [exact Hfind2 |].
    exists (ts1 ++ ts2)%list. split.
    + rewrite Ht2, Ht1, app_assoc. reflexivity.
    + apply Forall_app. split; assumption.
Qed.

(** C2, amended. The polling loop is not bounded: there is no maximum
    poll duration after which the client gives up, and no "still
    processing" state.  While the component stays mounted on the same
    session -- the user types and sends, intervals fire -- and as long as
    every poll fails or returns a list that does not end in an assistant
    message, the loop started by a send does not terminate: after any
    number of such events the typing indicator is still on, the interval
    of the loop is still live with its period of 1000 ms, its next firing
    reads the message list once more, and these events have shown no
    notice but those of the sends among them. *)
Theorem polling_never_gives_up
    (s : ChatTab.state) (cs : ChatTab.session) (es : list chat_event)
    (Hids : fresh_ids s) (Hes : Forall no_answer es) :
  let i := ChatTab.next_interval s in
  let t := {| ChatTab.interval_id := i; ChatTab.period_ms := 1000;
              ChatTab.polled_session := cs |} in
  let s1 := chat_run es (ChatTab.startPolling cs s) in
  ChatTab.isPolling s1 = true /\
  ChatTab.find_interval i s1 = Some t /\
  (forall o, ChatTab.requests (ChatTab.tick i o s1)
             = (ChatTab.requests s1 ++ [ChatTab.GetMessages (ChatTab.session_id cs)])%list) /\
  (exists ts, ChatTab.toasts s1 = (ChatTab.toasts s ++ ts)%list /\
              Forall send_notice ts).
Proof.
  intros i t s1.
  destruct (startPolling_polling cs s Hids) as [Hon [_ Hfind]].
  change (ChatTab.find_interval i (ChatTab.startPolling cs s) = Some t) in Hfind.
  destruct (no_answer_run i t es _ Hes Hon Hfind) as [Hon1 [Hfind1 Hts]].
  fold s1 in Hon1, Hfind1, Hts.
  split; [exact Hon1 |]. split; [exact Hfind1 |]. split; [| exact Hts].
  intros o. apply (tick_requests i o s1 t Hfind1).
Qed.

Lemma polling_never_gives_up_witness :
  let later := {| ChatTab.now := 1714557602500;
                  ChatTab.iso := "2024-05-01T10:00:02.500Z" |} in
  let es := [PollFired 1 ChatTab.PollError;
             ChatTyped "And unsupervised learning?";
             ChatSent later (ChatTab.PostFailed (Some 500));
             PollFired 1 (ChatTab.PollOk (ChatTab.DataArray [demo_user_message]));
             PollFired 1 ChatTab.PollError] in
  let s1 := chat_run es (ChatTab.startPolling demo_session
                           (ChatTab.initial (Some demo_session))) in
  ChatTab.isPolling s1 = true /\
  ChatTab.find_interval 1 s1 = Some demo_interval /\
  ChatTab.toasts s1 = [ChatTab.ToastError "Failed to send message"] /\
  List.length (ChatTab.requests s1) = 4%nat.
Proof.
  intros later es s1.
  assert (Hes : Forall no_answer es).
  { repeat constructor. apply last_is_assistant_false. reflexivity. }
  destruct (polling_never_gives_up (ChatTab.initial (Some demo_session)) demo_session es
              (fresh_ids_initial _) Hes) as [Hon [Hfind _]].
  split; [exact Hon |]. split; [exact Hfind |]. split; reflexivity.
Defined.

(** X14. Every request the chat component issues, along any sequence of
    typing, sends and poll firings, goes to the session that is selected;
    and every message it posts is the text typed without the white space
    around it, never an empty or blank text. Without a selected session it
    issues no request at all. *)
Theorem chat_requests_are_well_addressed
    (cs : option ChatTab.session) (es : list chat_event) :
  Forall (well_addressed cs) (ChatTab.requests (chat_run es (ChatTab.initial cs))).
Proof.
  set (Inv := fun s : ChatTab.state =>
    Forall (well_addressed cs) (ChatTab.requests s) /\
    ChatTab.currentSession s = cs /\
    Forall (fun t => cs = Some (ChatTab.polled_session t)) (ChatTab.intervals s)).
  assert (Hstep : forall e s, Inv s -> Inv (chat_step e s)).
  { intros e s HI. pose proof HI as [Hreq [Hcur Hint]].
    destruct e as [text | clk o | j o]; simpl.
    - exact HI.
    - destruct (sendMessage_unfold clk o s) as [[-> _] | [c [Hc [Hgo ->]]]]; [exact HI |].
      assert (Hpost : well_addressed cs
                (ChatTab.PostMessage (ChatTab.session_id c) (Js.trim (ChatTab.messageInput s)))).
      { exists c. split; [congruence |]. split; [reflexivity |].
        split; [| apply trim_idempotent].
        unfold ChatTab.send_blocked in Hgo.
        apply orb_false_iff in Hgo. destruct Hgo as [Hgo _].
        apply orb_false_iff in Hgo. destruct Hgo as [Hgo _].
        intros E. rewrite E in Hgo. discriminate Hgo. }
      destruct o as [d | st]; unfold ChatTab.sendMessage_settle, Inv; cbn.
      + split; [apply Forall_app; split; [exact Hreq | repeat constructor; exact Hpost] |].
        split; [exact Hcur |].
        apply Forall_app. split; [exact Hint | repeat constructor; cbn; congruence].
      + split; [apply Forall_app; split; [exact Hreq | repeat constructor; exact Hpost] |].
        split; assumption.
    - destruct (tick_unfold j o s) as [[-> _] | [t [Hf Hcases]]]; [exact HI |].
      destruct (find_interval_id _ _ _ Hf) as [Hin _].
      assert (Hget : well_addressed cs
                (ChatTab.GetMessages (ChatTab.session_id (ChatTab.polled_session t)))).
      { rewrite Forall_forall in Hint. specialize (Hint t Hin).
        exists (ChatTab.polled_session t). split; [exact Hint | reflexivity]. }
      assert (Hreq1 : Forall (well_addressed cs)
                (ChatTab.requests s
                   ++ [ChatTab.GetMessages (ChatTab.session_id (ChatTab.polled_session t))])).
      { apply Forall_app. split; [exact Hreq | repeat constructor; exact Hget]. }
      cbv zeta in Hcases.
      destruct Hcases
        as [-> | [[d [_ ->]] | [d [s2 [_ [Hi2 [Hn2 [Hr2 [Hq2 [Hc2 [Hs2 [Hp2 ->]]]]]]]]]]]].
      + unfold Inv. cbn. repeat split; assumption.
      + unfold Inv. cbn. repeat split; assumption.
      + unfold Inv, ChatTab.stopPolling.
        destruct (ChatTab.pollingIntervalRef s) as [k |] eqn:Hk;
          cbn; rewrite Hr2; cbn; rewrite Hq2, Hc2, ?Hi2; cbn.
        * split; [exact Hreq1 |]. split; [exact Hcur |].
          apply Forall_forall. intros a Ha. apply filter_In in Ha.
          rewrite Forall_forall in Hint. apply Hint. tauto.
        * repeat split; assumption. }
  unfold chat_run.
  assert (Hgen : forall s, Inv s -> Inv (fold_left (fun acc e => chat_step e acc) es s)).
  { induction es as [| e es IH]; intros s HI; simpl; [exact HI |].
    apply IH. apply Hstep. exact HI. }
  apply Hgen. unfold Inv. cbn. repeat split; constructor.
Qed.

(** X15. [sendMessage] leaves the component exactly as it was if and only
    if the input is empty or white space only, or no session is selected,
    or a send is still pending. *)
Theorem sendMessage_blocked_iff
    (clk : ChatTab.clock) (o : ChatTab.post_outcome) (s : ChatTab.state) :
  ChatTab.sendMessage clk o s = s <->
  (all_whitespace (ChatTab.messageInput s) = true \/
   ChatTab.currentSession s = None \/
   ChatTab.isSending s = true).
Proof.
  assert (Hb : ChatTab.send_blocked s = true <->
          (all_whitespace (ChatTab.messageInput s) = true \/
           ChatTab.currentSession s = None \/ ChatTab.isSending s = true)).
  { unfold ChatTab.send_blocked. rewrite !orb_true_iff.
    assert (Ht : negb (Js.truthy_string (Js.trim (ChatTab.messageInput s))) = true
                 <-> all_whitespace (ChatTab.messageInput s) = true).
    { rewrite <- trim_empty_iff.
      destruct (Js.trim (ChatTab.messageInput s)); simpl; split; intros H;
        try reflexivity; discriminate. }
    rewrite Ht. destruct (ChatTab.currentSession s); split; intros H;
      repeat (destruct H as [H | H]); auto; discriminate. }
  rewrite <- Hb.
  destruct (sendMessage_unfold clk o s) as [[Hs Hblk] | [c [Hc [Hgo Hs]]]].
  - split; [intros _; exact Hblk | intros _; exact Hs].
  - split; [| intros H; congruence].
    intros Heq. rewrite Hs in Heq.
    apply (f_equal ChatTab.requests) in Heq.
    destruct o as [d | st]; cbn in Heq; apply app_one_neq in Heq; contradiction.
Qed.

(** ** Deleting and creating sessions *)

Lemma filter_other_than_fresh (sessionId : string) (l : list ChatTab.session) :
  Forall (fun s => ChatTab.session_id s <> sessionId) l ->
  filter (Sessions.other_than sessionId) l = l.
Proof.
  intros H. apply forallb_filter_id. apply forallb_forall. intros x Hx.
  rewrite Forall_forall in H. specialize (H x Hx).
  unfold Sessions.other_than. apply negb_true_iff. apply String.eqb_neq. exact H.
Qed.

(** X16. [deleteSession] decides with the selection and the session list
    of the render it was called from.  Whatever happened while the DELETE
    was pending, after a successful answer no session with that id is
    listed and the other sessions of that time still are.  If the deleted
    session was the selected one when the delete was requested, the
    selection becomes the first other session of the list seen at the
    request (none if there is none), never the deleted one.  If it was not
    selected at the request, the selection and the messages of the time of
    the answer are left as they are, so a session selected while its own
    DELETE is pending stays selected.  A delete that fails leaves list,
    selection and messages as they are. *)
Theorem deleteSession_decides_on_selection_at_request
    (sessionId : string) (st st' : Sessions.state) (http_status : option Z) :
  let p := Sessions.deleteSession_begin sessionId st in
  let ok := Sessions.deleteSession_settle p (Sessions.Done tt) st' in
  let ko := Sessions.deleteSession_settle p (Sessions.Failed http_status) st' in
  (forall s, In s (Sessions.sessions ok) <->
             In s (Sessions.sessions st') /\ ChatTab.session_id s <> sessionId) /\
  (forall c, ChatTab.currentSession (Sessions.chat st) = Some c ->
     ChatTab.session_id c = sessionId ->
     ChatTab.currentSession (Sessions.chat ok)
       = hd_error (filter (Sessions.other_than sessionId) (Sessions.sessions st)) /\
     (forall c', ChatTab.currentSession (Sessions.chat ok) = Some c' ->
                 ChatTab.session_id c' <> sessionId)) /\
  ((forall c, ChatTab.currentSession (Sessions.chat st) = Some c ->
              ChatTab.session_id c <> sessionId) ->
     ChatTab.currentSession (Sessions.chat ok) = ChatTab.currentSession (Sessions.chat st') /\
     ChatTab.messages (Sessions.chat ok) = ChatTab.messages (Sessions.chat st')) /\
  (Sessions.sessions ko = Sessions.sessions st' /\
   ChatTab.currentSession (Sessions.chat ko) = ChatTab.currentSession (Sessions.chat st') /\
   ChatTab.messages (Sessions.chat ko) = ChatTab.messages (Sessions.chat st')).
Proof.
  intros p ok ko. subst ok ko p.
  unfold Sessions.deleteSession_settle, Sessions.deleteSession_begin.
  cbn [Sessions.deleted_id Sessions.seen_current Sessions.seen_sessions].
  assert (Hmem : forall l s, In s (filter (Sessions.other_than sessionId) l)
                 <-> In s l /\ ChatTab.session_id s <> sessionId).
  { intros l s. rewrite filter_In. unfold Sessions.other_than.
    rewrite negb_true_iff, String.eqb_neq. reflexivity. }
  split; [apply Hmem |].
  destruct (ChatTab.currentSession (Sessions.chat st)) as [cur |] eqn:Hcur.
  - destruct (String.eqb_spec (ChatTab.session_id cur) sessionId) as [Heq | Hne].
    + cbn. split; [| split].
      * intros c _ _.
        destruct (filter (Sessions.other_than sessionId) (Sessions.sessions st))
          as [| first rest] eqn:Ef; cbn; (split; [reflexivity |]).
        -- intros c' Hc'. discriminate Hc'.
        -- intros c' Hc'. inversion Hc'; subst c'.
           assert (Hin : In first (filter (Sessions.other_than sessionId)
                                     (Sessions.sessions st))).
           { rewrite Ef. left. reflexivity. }
           apply Hmem in Hin. tauto.
      * intros H. exfalso. apply (H cur eq_refl). exact Heq.
      * repeat split.
    + cbn. split; [| split].
      * intros c Hc Hid. inversion Hc; subst c. contradiction.
      * intros _. split; reflexivity.
      * repeat split.
  - cbn. split; [| split].
    + intros c Hc. discriminate Hc.
    + intros _. split; reflexivity.
    + repeat split.
Qed.

(** A session selected while its own DELETE is pending stays selected,
    though it is gone from the list. *)
Lemma deleteSession_decides_on_selection_at_request_witness :
  let other := {| ChatTab.session_id := "a91e"; ChatTab.title := "Chat Session 2" |} in
  let st := {| Sessions.sessions := [demo_session; other];
               Sessions.chat := ChatTab.initial (Some demo_session) |} in
  let st' := {| Sessions.sessions := [demo_session; other];
                Sessions.chat := ChatTab.initial (Some other) |} in
  let ok := Sessions.deleteSession_settle (Sessions.deleteSession_begin "a91e" st)
              (Sessions.Done tt) st' in
  Sessions.sessions ok = [demo_session] /\
  ChatTab.currentSession (Sessions.chat ok) = Some other.
Proof.
  intros other st st' ok. split; [reflexivity |].
  destruct (deleteSession_decides_on_selection_at_request "a91e" st st' None)
    as [_ [_ [H _]]].
  apply H. intros c Hc. inversion Hc; subst c. discriminate.
Defined.

(** X17. Creating a session puts it first in the list, selects it and
    empties the message list; deleting it again restores the list of
    sessions, provided its id is new, and then the first session of that
    list is the selected one. *)
Theorem createNewSession_then_delete_restores_list
    (newSession : ChatTab.session) (st : Sessions.state)
    (Hnew : Forall (fun s => ChatTab.session_id s <> ChatTab.session_id newSession)
                   (Sessions.sessions st)) :
  let created := Sessions.createNewSession (Sessions.Done newSession) st in
  let deleted :=
    Sessions.deleteSession (ChatTab.session_id newSession) (Sessions.Done tt) created in
  Sessions.sessions created = newSession :: Sessions.sessions st /\
  ChatTab.currentSession (Sessions.chat created) = Some newSession /\
  ChatTab.messages (Sessions.chat created) = [] /\
  Sessions.sessions deleted = Sessions.sessions st /\
  ChatTab.currentSession (Sessions.chat deleted) = hd_error (Sessions.sessions st) /\
  ChatTab.messages (Sessions.chat deleted) = [].
Proof.
  intros created deleted. subst deleted created.
  assert (Hf : filter (Sessions.other_than (ChatTab.session_id newSession))
                      (newSession :: Sessions.sessions st) = Sessions.sessions st).
  { simpl. unfold Sessions.other_than at 1. rewrite String.eqb_refl. simpl.
    apply filter_other_than_fresh. exact Hnew. }
  unfold Sessions.deleteSession, Sessions.deleteSession_settle,
    Sessions.deleteSession_begin, Sessions.createNewSession.
  cbn [Sessions.sessions Sessions.chat ChatTab.currentSession ChatTab.add_toast
       ChatTab.setMessages Sessions.setCurrentSession
       Sessions.deleted_id Sessions.seen_current Sessions.seen_sessions].
  rewrite String.eqb_refl, Hf.
  repeat split.
Qed.

Lemma createNewSession_then_delete_restores_list_witness :
  let st := {| Sessions.sessions := [demo_session];
               Sessions.chat := ChatTab.initial (Some demo_session) |} in
  let fresh := {| ChatTab.session_id := "a91e"; ChatTab.title := "Chat Session 2" |} in
  Sessions.sessions
    (Sessions.deleteSession "a91e" (Sessions.Done tt)
       (Sessions.createNewSession (Sessions.Done fresh) st))
  = [demo_session].
Proof.
  intros st fresh.
  assert (Hnew : Forall (fun s => ChatTab.session_id s <> ChatTab.session_id fresh)
                        (Sessions.sessions st)).
  { repeat constructor. discriminate. }
  destruct (createNewSession_then_delete_restores_list fresh st Hnew) as [_ [_ [_ [H _]]]].
  exact H.
Defined.

(** ** The token storage of [auth.js] *)

Lemma getItem_removeItem_same (k : string) (st : Auth.storage) :
  Auth.getItem k (Auth.removeItem k st) = None.
Proof.
  induction st as [| [k' v] st IH]; simpl; [reflexivity |].
  destruct (String.eqb k' k) eqn:E; simpl; [exact IH |]. rewrite E. exact IH.
Qed.

Lemma getItem_removeItem_other (k k' : string) (st : Auth.storage) :
  k' <> k -> Auth.getItem k' (Auth.removeItem k st) = Auth.getItem k' st.
Proof.
  intros Hne. induction st as [| [k0 v] st IH]; simpl; [reflexivity |].
  destruct (String.eqb_spec k0 k) as [-> | Hk]; simpl.
  - destruct (String.eqb_spec k k') as [E | _]; [congruence | exact IH].
  - destruct (String.eqb k0 k'); [reflexivity | exact IH].
Qed.

Lemma getItem_setItem_same (k v : string) (st : Auth.storage) :
  Auth.getItem k (Auth.setItem k v st) = Some v.
Proof. unfold Auth.setItem. simpl. rewrite String.eqb_refl. reflexivity. Qed.

Lemma getItem_setItem_other (k k' v : string) (st : Auth.storage) :
  k' <> k -> Auth.getItem k' (Auth.setItem k v st) = Auth.getItem k' st.
Proof.
  intros Hne. unfold Auth.setItem. simpl.
  destruct (String.eqb_spec k k') as [E | _]; [congruence |].
  apply getItem_removeItem_other. exact Hne.
Qed.

Lemma clearAuth_signed_out (st : Auth.storage) :
  signed_out (Auth.clearAuth st) /\
  (forall k, k <> Auth.TOKEN_KEY -> k <> Auth.REFRESH_TOKEN_KEY -> k <> Auth.USER_KEY ->
     Auth.getItem k (Auth.clearAuth st) = Auth.getItem k st).
Proof.
  unfold signed_out, Auth.clearAuth, Auth.getAccessToken, Auth.getRefreshToken.
  repeat split.
  - rewrite !getItem_removeItem_other by discriminate. apply getItem_removeItem_same.
  - rewrite getItem_removeItem_other by discriminate. apply getItem_removeItem_same.
  - apply getItem_removeItem_same.
  - intros k H1 H2 H3. rewrite !getItem_removeItem_other by assumption. reflexivity.
Qed.

Lemma setTokens_stored (a r : string) (st : Auth.storage) :
  a <> "" -> r <> "" ->
  Auth.getAccessToken (Auth.setTokens (Some a) (Some r) st) = Some a /\
  Auth.getRefreshToken (Auth.setTokens (Some a) (Some r) st) = Some r /\
  (forall k, k <> Auth.TOKEN_KEY -> k <> Auth.REFRESH_TOKEN_KEY ->
     Auth.getItem k (Auth.setTokens (Some a) (Some r) st) = Auth.getItem k st).
Proof.
  intros Ha Hr. unfold Auth.setTokens, Auth.getAccessToken, Auth.getRefreshToken.
  destruct a as [| ca a]; [contradiction |]. destruct r as [| cr r]; [contradiction |].
  cbn [Js.truthy_string negb orb]. repeat split.
  intros k H1 H2. rewrite !getItem_setItem_other by assumption. reflexivity.
Qed.

Lemma setTokens_refused (a r : option string) (st : Auth.storage) :
  Auth.truthy a = false \/ Auth.truthy r = false -> Auth.setTokens a r st = st.
Proof.
  unfold Auth.setTokens, Auth.truthy.
  destruct a as [a |], r as [r |]; try reflexivity.
  intros [H | H]; rewrite H; simpl; [reflexivity | apply orb_true_r || idtac].
  destruct (negb (Js.truthy_string a)); reflexivity.
Qed.

(** X18. Tokens stored with [setTokens] are the ones read back, with the
    header "Bearer <token>", and nothing else in the storage changes; a
    call with a missing or empty token stores neither of the two; after
    [clearAuth] no token and no user record is left, the client is not
    authenticated and sends no header, and the other keys are untouched. *)
Theorem tokens_are_stored_and_cleared_together
    (a r : string) (st : Auth.storage) (Ha : a <> "") (Hr : r <> "") :
  let st' := Auth.setTokens (Some a) (Some r) st in
  Auth.getAccessToken st' = Some a /\
  Auth.getRefreshToken st' = Some r /\
  Auth.isAuthenticated st' = true /\
  Auth.getAuthHeader st' = Some ("Bearer " ++ a) /\
  (forall k, k <> Auth.TOKEN_KEY -> k <> Auth.REFRESH_TOKEN_KEY ->
     Auth.getItem k st' = Auth.getItem k st) /\
  (forall x y, Auth.truthy x = false \/ Auth.truthy y = false ->
     Auth.setTokens x y st = st) /\
  signed_out (Auth.clearAuth st') /\
  Auth.isAuthenticated (Auth.clearAuth st') = false /\
  Auth.getAuthHeader (Auth.clearAuth st') = None /\
  (forall k, k <> Auth.TOKEN_KEY -> k <> Auth.REFRESH_TOKEN_KEY -> k <> Auth.USER_KEY ->
     Auth.getItem k (Auth.clearAuth st') = Auth.getItem k st).
Proof.
  intros st'. destruct (setTokens_stored a r st Ha Hr) as [Hacc [Href Hoth]]. fold st' in Hacc, Href, Hoth.
  destruct (clearAuth_signed_out st') as [Hout Hkeep].
  assert (Hta : Js.truthy_string a = true) by (destruct a; [contradiction | reflexivity]).
  split; [exact Hacc |]. split; [exact Href |].
  split; [unfold Auth.isAuthenticated; rewrite Hacc; exact Hta |].
  split; [unfold Auth.getAuthHeader; rewrite Hacc, Hta; reflexivity |].
  split; [exact Hoth |].
  split; [intros x y H; apply setTokens_refused; exact H |].
  split; [exact Hout |].
  destruct Hout as [H1 _].
  split; [unfold Auth.isAuthenticated; rewrite H1; reflexivity |].
  split; [unfold Auth.getAuthHeader; rewrite H1; reflexivity |].
  intros k K1 K2 K3. rewrite (Hkeep k K1 K2 K3). apply Hoth; assumption.
Qed.

Lemma tokens_are_stored_and_cleared_together_witness :
  Auth.getAuthHeader (Auth.setTokens (Some "abc") (Some "xyz") [("theme", "dark")])
  = Some "Bearer abc" /\
  Auth.getItem "theme"
    (Auth.clearAuth (Auth.setTokens (Some "abc") (Some "xyz") [("theme", "dark")]))
  = Some "dark".
Proof.
  destruct (tokens_are_stored_and_cleared_together "abc" "xyz" [("theme", "dark")])
    as [_ [_ [_ [Hh [_ [_ [_ [_ [_ Hk]]]]]]]]]; try discriminate.
  split; [exact Hh |]. apply Hk; discriminate.
Defined.

Lemma truthy_some (v : option string) :
  Auth.truthy v = true -> exists s, v = Some s /\ s <> "".
Proof.
  destruct v as [[| c s] |]; simpl; try discriminate.
  intros _. eexists. split; [reflexivity | discriminate].
Qed.

(** What [refreshAccessToken] does, case by case. *)
Lemma refreshAccessToken_cases (reply : Auth.refresh_reply) (st : Auth.storage) :
  let r := Auth.refreshAccessToken reply st in
  (Auth.truthy (Auth.getRefreshToken st) = false /\
   r = {| Auth.refreshed := false; Auth.refresh_store := st; Auth.refresh_requests := 0 |}) \/
  (Auth.truthy (Auth.getRefreshToken st) = true /\
   Auth.refresh_requests r = 1%nat /\
   ((Auth.refreshed r = false /\ Auth.refresh_store r = Auth.clearAuth st /\
     forall data, reply = Auth.RefreshAnswered (Some data) ->
       Auth.truthy (Auth.access_token data) && Auth.truthy (Auth.refresh_token data) = false)
    \/
    (exists data a t,
       reply = Auth.RefreshAnswered (Some data) /\
       Auth.access_token data = Some a /\ a <> "" /\
       Auth.refresh_token data = Some t /\ t <> "" /\
       Auth.refreshed r = true /\
       Auth.refresh_store r =
         Auth.setUserInfo (Some (Auth.user_json data))
           (Auth.setTokens (Some a) (Some t) st)))).
Proof.
  intros r. subst r. unfold Auth.refreshAccessToken.
  destruct (Auth.truthy (Auth.getRefreshToken st)) eqn:Hrt; cbn [negb];
    [right | left; split; reflexivity].
  split; [reflexivity |].
  destruct reply as [| | [data |]];
    try (split; [reflexivity |]; left; repeat split; intros data H; discriminate H).
  destruct (Auth.truthy (Auth.access_token data) && Auth.truthy (Auth.refresh_token data))
    eqn:Hok.
  - split; [reflexivity |]. right.
    apply andb_prop in Hok. destruct Hok as [Ha Ht].
    destruct (truthy_some _ Ha) as [a [Ea Hane]].
    destruct (truthy_some _ Ht) as [t [Et Htne]].
    exists data, a, t. rewrite Ea, Et. repeat split; assumption.
  - split; [reflexivity |]. left. repeat split.
    intros data' H. inversion H; subst data'. exact Hok.
Qed.

Lemma setUserInfo_keeps_tokens (u : option string) (st : Auth.storage) :
  Auth.getAccessToken (Auth.setUserInfo u st) = Auth.getAccessToken st /\
  Auth.getRefreshToken (Auth.setUserInfo u st) = Auth.getRefreshToken st.
Proof.
  unfold Auth.setUserInfo, Auth.getAccessToken, Auth.getRefreshToken.
  destruct u as [json |]; [| split; reflexivity].
  split; apply getItem_setItem_other; discriminate.
Qed.

(** X19. As long as the storage is written through [auth.js] only,
    starting from an empty one, the two tokens come and go together: after
    any sequence of [setTokens], [setUserInfo], [clearAuth] and token
    refreshes, an access token is stored exactly when a refresh token is,
    and [getAuthHeader] yields a header exactly when the client counts as
    authenticated. *)
Theorem tokens_come_in_pairs (ops : list auth_op) :
  let st := auth_run ops [] in
  Auth.isAuthenticated st = Auth.truthy (Auth.getRefreshToken st) /\
  (Auth.getAuthHeader st <> None <-> Auth.isAuthenticated st = true).
Proof.
  set (Inv := fun st : Auth.storage =>
    Auth.truthy (Auth.getAccessToken st) = Auth.truthy (Auth.getRefreshToken st)).
  assert (Hclear : forall st, Inv (Auth.clearAuth st)).
  { intros st. unfold Inv. destruct (clearAuth_signed_out st) as [[H1 [H2 _]] _].
    rewrite H1, H2. reflexivity. }
  assert (Hset : forall a r st, Inv st -> Inv (Auth.setTokens a r st)).
  { intros a r st HI.
    destruct (Auth.truthy a) eqn:Ha; [| rewrite setTokens_refused by auto; exact HI].
    destruct (Auth.truthy r) eqn:Hr; [| rewrite setTokens_refused by auto; exact HI].
    destruct (truthy_some _ Ha) as [a' [-> Hane]].
    destruct (truthy_some _ Hr) as [r' [-> Hrne]].
    destruct (setTokens_stored a' r' st Hane Hrne) as [H1 [H2 _]].
    unfold Inv. rewrite H1, H2. cbn in Ha, Hr |- *. congruence. }
  assert (Huser : forall u st, Inv st -> Inv (Auth.setUserInfo u st)).
  { intros u st HI. unfold Inv.
    destruct (setUserInfo_keeps_tokens u st) as [-> ->]. exact HI. }
  assert (Hstep : forall op st, Inv st -> Inv (auth_apply op st)).
  { intros op st HI. destruct op as [a r | u | | reply]; simpl.
    - apply Hset. exact HI.
    - apply Huser. exact HI.
    - apply Hclear.
    - destruct (refreshAccessToken_cases reply st)
        as [[_ ->] | [_ [_ [[_ [-> _]] | [data [a [t [_ [_ [_ [_ [_ [_ ->]]]]]]]]]]]]].
      + exact HI.
      + apply Hclear.
      + apply Huser. apply Hset. exact HI. }
  assert (Hgen : forall st, Inv st -> Inv (auth_run ops st)).
  { unfold auth_run. induction ops as [| op ops IH]; intros st HI; simpl; [exact HI |].
    apply IH. apply Hstep. exact HI. }
  intros st. specialize (Hgen [] eq_refl). fold st in Hgen. unfold Inv in Hgen.
  split; [exact Hgen |].
  unfold Auth.getAuthHeader, Auth.isAuthenticated, Auth.truthy.
  destruct (Auth.getAccessToken st) as [token |]; [| split; [congruence | discriminate]].
  destruct (Js.truthy_string token); split; congruence.
Qed.

(** X20. [refreshAccessToken] without a stored refresh token asks the
    server nothing and leaves the storage alone. With one it asks once, and
    it reports success exactly when the answer is an [ok] response carrying
    both tokens: these are then the tokens read back from the storage. In
    every other case, whether the server is unreachable, refuses, or
    answers without a token, both tokens and the user record are removed. *)
Theorem refreshAccessToken_renews_or_signs_out
    (reply : Auth.refresh_reply) (st : Auth.storage) :
  let r := Auth.refreshAccessToken reply st in
  (Auth.truthy (Auth.getRefreshToken st) = false ->
     Auth.refreshed r = false /\ Auth.refresh_store r = st /\
     Auth.refresh_requests r = 0%nat) /\
  (Auth.truthy (Auth.getRefreshToken st) = true ->
     Auth.refresh_requests r = 1%nat /\
     (Auth.refreshed r = true <->
        exists data, reply = Auth.RefreshAnswered (Some data) /\
          Auth.truthy (Auth.access_token data) = true /\
          Auth.truthy (Auth.refresh_token data) = true) /\
     (Auth.refreshed r = true ->
        forall data, reply = Auth.RefreshAnswered (Some data) ->
          Auth.getAccessToken (Auth.refresh_store r) = Auth.access_token data /\
          Auth.getRefreshToken (Auth.refresh_store r) = Auth.refresh_token data /\
          Auth.getItem Auth.USER_KEY (Auth.refresh_store r) = Some (Auth.user_json data)) /\
     (Auth.refreshed r = false ->
        signed_out (Auth.refresh_store r) /\
        Auth.isAuthenticated (Auth.refresh_store r) = false)).
Proof.
  intros r.
  destruct (refreshAccessToken_cases reply st)
    as [[Hno Hr] | [Hyes [Hreq [[Hf [Hst Hbad]] | [data [a [t [Hrep [Ha [Hane [Ht [Htne [Hok Hst]]]]]]]]]]]]];
    fold r in Hr || fold r in Hreq, Hf, Hst || fold r in Hreq, Hok, Hst.
  - split; [| intros H; congruence]. intros _. rewrite Hr. repeat split.
  - fold r in Hreq, Hf, Hst. split; [intros H; congruence |]. intros _.
    split; [exact Hreq |]. split; [| split].
    + split; [intros H; congruence |].
      intros [data [Hrep [Ha Ht]]]. specialize (Hbad data Hrep).
      rewrite Ha, Ht in Hbad. discriminate Hbad.
    + intros H. congruence.
    + intros _. rewrite Hst. destruct (clearAuth_signed_out st) as [Hout _].
      split; [exact Hout |]. unfold Auth.isAuthenticated.
      destruct Hout as [-> _]. reflexivity.
  - fold r in Hreq, Hok, Hst. split; [intros H; congruence |]. intros _.
    split; [exact Hreq |]. split; [| split].
    + split; [| intros _; exact Hok]. intros _. exists data.
      rewrite Ha, Ht. split; [exact Hrep |]. split.
      * destruct a; [contradiction | reflexivity].
      * destruct t; [contradiction | reflexivity].
    + intros _ data' Hrep'. rewrite Hrep in Hrep'. inversion Hrep'; subst data'.
      rewrite Hst, Ha, Ht.
      destruct (setTokens_stored a t st Hane Htne) as [H1 [H2 _]].
      destruct (setUserInfo_keeps_tokens (Some (Auth.user_json data))
                  (Auth.setTokens (Some a) (Some t) st)) as [-> ->].
      split; [exact H1 |]. split; [exact H2 |]. apply getItem_setItem_same.
    + intros H. congruence.
Qed.

Lemma refreshAccessToken_renews_or_signs_out_witness :
  let st := Auth.setTokens (Some "old") (Some "r-1") [] in
  Auth.getAccessToken
    (Auth.refresh_store (Auth.refreshAccessToken (Auth.RefreshAnswered (Some demo_tokens)) st))
  = Some "eyJhbGciOi.new" /\
  Auth.isAuthenticated
    (Auth.refresh_store (Auth.refreshAccessToken Auth.RefreshUnreachable st)) = false.
Proof.
  intros st. split.
  - destruct (refreshAccessToken_renews_or_signs_out (Auth.RefreshAnswered (Some demo_tokens)) st)
      as [_ H]. destruct (H eq_refl) as [_ [_ [Hgood _]]].
    destruct (Hgood eq_refl demo_tokens eq_refl) as [Ha _]. exact Ha.
  - destruct (refreshAccessToken_renews_or_signs_out Auth.RefreshUnreachable st) as [_ H].
    destruct (H eq_refl) as [_ [_ [_ Hbad]]].
    destruct (Hbad eq_refl) as [_ Hout]. exact Hout.
Defined.

(** ** [authFetch] *)

Ltac auth_crush :=
  repeat split; intros;
  repeat match goal with
         | H : exists _, _ |- _ => destruct H
         | H : _ /\ _ |- _ => destruct H
         | H : Auth.Replied _ _ = Auth.Replied _ _ |- _ => inversion H; clear H; subst
         end;
  try lia; try discriminate; try congruence; try reflexivity; try assumption.

(** X21. [authFetch] never loops: it sends the request once, with the
    stored token if there is one, and a second time only after a 401 answer
    when a refresh token is stored and the refresh succeeds, in which case
    the second request carries the renewed token and its outcome is what the
    caller gets. It refreshes at most once. Any answer other than 401 is
    handed on with the storage untouched, and a 401 that cannot be renewed
    is handed on as it came, with the client signed out. *)
Theorem authFetch_retries_at_most_once
    (first retry : Auth.fetch_reply) (refresh : Auth.refresh_reply) (st : Auth.storage) :
  let run := Auth.authFetch first refresh retry st in
  let renewed := Auth.refreshAccessToken refresh st in
  (List.length (Auth.sent run) <= 2)%nat /\
  (Auth.refreshes run <= 1)%nat /\
  hd_error (Auth.sent run) = Some (Auth.getAuthHeader st) /\
  (List.length (Auth.sent run) = 2%nat <->
     exists body, first = Auth.Replied 401 body /\
       Auth.truthy (Auth.getRefreshToken st) = true /\ Auth.refreshed renewed = true) /\
  (List.length (Auth.sent run) = 2%nat ->
     nth_error (Auth.sent run) 1 = Some (Auth.getAuthHeader (Auth.store run)) /\
     Auth.isAuthenticated (Auth.store run) = true /\
     Auth.result run = match retry with
                       | Auth.Unreachable => Auth.RetryRejected
                       | Auth.Replied status body => Auth.Response status body
                       end) /\
  (forall status body, first = Auth.Replied status body -> status <> 401 ->
     Auth.result run = Auth.Response status body /\ Auth.store run = st /\
     Auth.refreshes run = 0%nat) /\
  (forall body, first = Auth.Replied 401 body ->
     Auth.truthy (Auth.getRefreshToken st) = true -> Auth.refreshed renewed = false ->
     Auth.result run = Auth.Response 401 body /\ signed_out (Auth.store run)) /\
  (first = Auth.Unreachable ->
     Auth.result run = Auth.NetworkError "Network error. Please check your connection." /\
     Auth.store run = st).
Proof.
  intros run renewed. subst run. unfold Auth.authFetch. fold renewed.
  destruct first as [| status body].
  - cbn. auth_crush.
  - destruct (Z.eqb_spec status 401) as [-> | Hne]; cbn [andb].
    + destruct (Auth.truthy (Auth.getRefreshToken st)) eqn:Hrt.
      * destruct (refreshAccessToken_cases refresh st)
          as [[Hno _] | [_ [Hreq [[Hf [Hst _]] | [data [a [t [_ [_ [Hane [_ [Htne [Hok Hst]]]]]]]]]]]]];
          [congruence | |]; fold renewed in Hreq, Hst.
        -- fold renewed in Hf. rewrite Hf. cbn.
           pose proof (proj1 (clearAuth_signed_out st)) as Hout. rewrite <- Hst in Hout.
           destruct Hout as [Ho1 [Ho2 Ho3]]. auth_crush.
        -- fold renewed in Hok. rewrite Hok. cbn.
           destruct (setTokens_stored a t st Hane Htne) as [H1 _].
           destruct (setUserInfo_keeps_tokens (Some (Auth.user_json data))
                       (Auth.setTokens (Some a) (Some t) st)) as [Hk _].
           assert (Hacc : Auth.getAccessToken (Auth.refresh_store renewed) = Some a)
             by (rewrite Hst, Hk; exact H1).
           assert (Hta : Js.truthy_string a = true)
             by (destruct a; [contradiction | reflexivity]).
           assert (Hhead : Auth.getAuthHeader (Auth.refresh_store renewed)
                           = Some ("Bearer " ++ a))
             by (unfold Auth.getAuthHeader; rewrite Hacc, Hta; reflexivity).
           assert (Hauth : Auth.isAuthenticated (Auth.refresh_store renewed) = true)
             by (unfold Auth.isAuthenticated; rewrite Hacc; exact Hta).
           rewrite Hacc. auth_crush.
           ++ exists body. auth_crush.
           ++ rewrite Hhead. reflexivity.
      * cbn. auth_crush.
    + cbn. auth_crush.
Qed.

Lemma authFetch_retries_at_most_once_witness :
  let st := Auth.setTokens (Some "old") (Some "r-1") [] in
  let run := Auth.authFetch (Auth.Replied 401 "expired")
               (Auth.RefreshAnswered (Some demo_tokens)) (Auth.Replied 200 "[]") st in
  Auth.result run = Auth.Response 200 "[]" /\
  Auth.sent run = [Some "Bearer old"; Some "Bearer eyJhbGciOi.new"].
Proof.
  intros st run.
  destruct (authFetch_retries_at_most_once (Auth.Replied 401 "expired") (Auth.Replied 200 "[]")
              (Auth.RefreshAnswered (Some demo_tokens)) st)
    as [_ [_ [_ [_ [Hretry _]]]]].
  destruct (Hretry eq_refl) as [_ [_ Hres]].
  split; [exact Hres | reflexivity].
Defined.

(** ** Logging in and signing up *)

Lemma trim_truthy (s : string) :
  Js.truthy_string (Js.trim s) = negb (all_whitespace s).
Proof.
  destruct (all_whitespace s) eqn:E.
  - apply trim_empty_iff in E. rewrite E. reflexivity.
  - destruct (Js.trim s) eqn:Et; [| reflexivity].
    apply trim_empty_iff in Et. congruence.
Qed.

Lemma blank_check (s : string) :
  negb (Js.truthy_string s) || negb (Js.truthy_string (Js.trim s)) = all_whitespace s.
Proof.
  rewrite trim_truthy, negb_involutive.
  destruct s; [reflexivity |]. reflexivity.
Qed.

(** What follows the request, in [login] and in [signup]. *)
Lemma settle_cases (fallback : string) (r : AuthContext.reply) (st : AuthContext.state) :
  (exists m, AuthContext.settle fallback r st = (AuthContext.failure m, st) /\
     forall data, r = AuthContext.Accepted data ->
       Auth.truthy (Auth.access_token (AuthContext.tokens data))
       && Auth.truthy (Auth.refresh_token (AuthContext.tokens data))
       && AuthContext.truthy_id (AuthContext.user_id data) = false) \/
  (exists data a t,
     r = AuthContext.Accepted data /\
     Auth.access_token (AuthContext.tokens data) = Some a /\ a <> "" /\
     Auth.refresh_token (AuthContext.tokens data) = Some t /\ t <> "" /\
     AuthContext.truthy_id (AuthContext.user_id data) = true /\
     AuthContext.settle fallback r st =
       ({| AuthContext.success := true; AuthContext.error := None |},
        {| AuthContext.user := Some (Auth.user_json (AuthContext.tokens data));
           AuthContext.isAuthenticated := true;
           AuthContext.store :=
             Auth.setUserInfo (Some (Auth.user_json (AuthContext.tokens data)))
               (Auth.setTokens (Some a) (Some t) (AuthContext.store st));
           AuthContext.posts := AuthContext.posts st |})).
Proof.
  unfold AuthContext.settle.
  destruct r as [m | e | data | m];
    try (left; eexists; split; [reflexivity | intros d H; discriminate H]).
  destruct (Auth.truthy (Auth.access_token (AuthContext.tokens data))) eqn:Ha;
    destruct (Auth.truthy (Auth.refresh_token (AuthContext.tokens data))) eqn:Ht;
    destruct (AuthContext.truthy_id (AuthContext.user_id data)) eqn:Hu; cbn [negb orb];
    try (left; eexists; split; [reflexivity |];
         intros d H; inversion H; subst d; rewrite Ha, Ht, Hu; reflexivity).
  right. destruct (truthy_some _ Ha) as [a [Ea Hane]].
  destruct (truthy_some _ Ht) as [t [Et Htne]].
  exists data, a, t. rewrite Ea, Et. repeat split; assumption.
Qed.

(** X22. [login] succeeds exactly when the username is not blank, the
    password is not empty and the server accepts with both tokens and a
    user id; then the tokens of the answer are the ones stored, the client
    is authenticated, and the one request sent carried the username without
    the white space around it. In every other case the result carries an
    error message and neither the storage nor the authentication state
    changes; with a blank username or an empty password nothing is sent. *)
Theorem login_signs_in_or_changes_nothing
    (username password : string) (r : AuthContext.reply) (st : AuthContext.state) :
  let res := fst (AuthContext.login username password r st) in
  let st' := snd (AuthContext.login username password r st) in
  (AuthContext.success res = true <->
     all_whitespace username = false /\ password <> "" /\
     exists data, r = AuthContext.Accepted data /\
       Auth.truthy (Auth.access_token (AuthContext.tokens data)) = true /\
       Auth.truthy (Auth.refresh_token (AuthContext.tokens data)) = true /\
       AuthContext.truthy_id (AuthContext.user_id data) = true) /\
  (AuthContext.success res = true ->
     AuthContext.isAuthenticated st' = true /\
     Auth.isAuthenticated (AuthContext.store st') = true /\
     (forall data, r = AuthContext.Accepted data ->
        Auth.getAccessToken (AuthContext.store st')
          = Auth.access_token (AuthContext.tokens data) /\
        Auth.getRefreshToken (AuthContext.store st')
          = Auth.refresh_token (AuthContext.tokens data)) /\
     AuthContext.posts st' =
       (AuthContext.posts st ++ [AuthContext.LoginPost (Js.trim username) password])%list) /\
  (AuthContext.success res = false ->
     (exists m, AuthContext.error res = Some m) /\
     AuthContext.store st' = AuthContext.store st /\
     AuthContext.isAuthenticated st' = AuthContext.isAuthenticated st /\
     AuthContext.user st' = AuthContext.user st) /\
  (all_whitespace username = true \/ password = "" ->
     AuthContext.posts st' = AuthContext.posts st).
Proof.
  intros res st'. subst res st'. unfold AuthContext.login.
  rewrite blank_check.
  destruct (all_whitespace username) eqn:Hu.
  { cbn. auth_crush. eexists. reflexivity. }
  destruct password as [| c p].
  { cbn. auth_crush. eexists. reflexivity. }
  cbn [Js.truthy_string negb].
  set (st1 := AuthContext.add_post
                (AuthContext.LoginPost (Js.trim username) (String c p)) st).
  destruct (settle_cases "Login failed" r st1)
    as [[m [Hs Hbad]] | [data [a [t [Hr [Ha [Hane [Ht [Htne [Hid Hs]]]]]]]]]];
    rewrite Hs; unfold AuthContext.failure;
    cbn [fst snd AuthContext.success AuthContext.error AuthContext.isAuthenticated
         AuthContext.store AuthContext.posts AuthContext.user].
  - subst st1. cbn [AuthContext.add_post AuthContext.store AuthContext.isAuthenticated
                    AuthContext.user AuthContext.posts].
    split; [| split; [| split]].
    + split; [discriminate |]. intros [_ [_ [data [Hr [Ha [Ht Hid]]]]]].
      specialize (Hbad data Hr). rewrite Ha, Ht, Hid in Hbad. discriminate Hbad.
    + discriminate.
    + intros _. split; [eexists; reflexivity |]. repeat split.
    + intros [H | H]; discriminate H.
  - assert (Hta : Js.truthy_string a = true) by (destruct a; [contradiction | reflexivity]).
    assert (Htt : Js.truthy_string t = true) by (destruct t; [contradiction | reflexivity]).
    destruct (setTokens_stored a t (AuthContext.store st1) Hane Htne) as [H1 [H2 _]].
    destruct (setUserInfo_keeps_tokens (Some (Auth.user_json (AuthContext.tokens data)))
                (Auth.setTokens (Some a) (Some t) (AuthContext.store st1))) as [Hk1 Hk2].
    split; [| split; [| split]].
    + split; [| reflexivity]. intros _. split; [reflexivity |]. split; [discriminate |].
      exists data. rewrite Ha, Ht. cbn. auth_crush.
    + intros _. split; [reflexivity |]. split; [| split; [| reflexivity]].
      * unfold Auth.isAuthenticated. rewrite Hk1, H1. exact Hta.
      * intros data' Hr'. rewrite Hr in Hr'. inversion Hr'; subst data'.
        rewrite Hk1, Hk2, H1, H2, Ha, Ht. split; reflexivity.
    + discriminate.
    + intros [H | H]; discriminate H.
Qed.

Lemma login_signs_in_or_changes_nothing_witness :
  let st := {| AuthContext.user := None; AuthContext.isAuthenticated := false;
               AuthContext.store := []; AuthContext.posts := [] |} in
  let accepted := AuthContext.Accepted
                    {| AuthContext.tokens := demo_tokens; AuthContext.user_id := Some 7 |} in
  AuthContext.posts (snd (AuthContext.login " ada " "s3cret-pw" accepted st))
    = [AuthContext.LoginPost "ada" "s3cret-pw"] /\
  AuthContext.store (snd (AuthContext.login "ada" "s3cret-pw" (AuthContext.Refused None) st))
    = [].
Proof.
  intros st accepted. split.
  - destruct (login_signs_in_or_changes_nothing " ada " "s3cret-pw" accepted st)
      as [_ [Hok _]].
    destruct (Hok eq_refl) as [_ [_ [_ Hposts]]]. exact Hposts.
  - destruct (login_signs_in_or_changes_nothing "ada" "s3cret-pw" (AuthContext.Refused None) st)
      as [_ [_ [Hko _]]].
    destruct (Hko eq_refl) as [_ [Hstore _]]. exact Hstore.
Defined.

Lemma includes_at_not_blank (s : string) :
  Library.str_includes s "@" = true -> all_whitespace s = false.
Proof.
  induction s as [| c r IH]; [discriminate |].
  cbn [Library.str_includes String.prefix all_whitespace].
  destruct (ascii_dec "@" c) as [<- | Hne]; [intros _; reflexivity |].
  cbn [orb]. intros H. rewrite (IH H). apply andb_false_r.
Qed.

(** X23. The sign-up form accepts exactly the forms whose password has
    eight characters or more and equals its confirmation and whose email
    holds an "@"; it records an error for each check that fails and then
    sends nothing. A form it accepts is turned down by [signup] only for a
    blank username, again without a request; otherwise one request goes
    out, with the username, the email and the names stripped of the white
    space around them and the email in lower case. *)
Theorem signup_form_sends_normalized_data
    (f : SignupForm.form) (r : AuthContext.reply) (st : SignupForm.state) :
  let st' := SignupForm.handleSubmit f r st in
  let valid :=
    (8 <= String.length (SignupForm.password f))%nat /\
    SignupForm.password f = SignupForm.confirmPassword f /\
    Library.str_includes (SignupForm.email f) "@" = true in
  (snd (SignupForm.validateForm f) = true <-> valid) /\
  (In "password" (map fst (fst (SignupForm.validateForm f)))
     <-> (String.length (SignupForm.password f) < 8)%nat) /\
  (In "confirmPassword" (map fst (fst (SignupForm.validateForm f)))
     <-> SignupForm.password f <> SignupForm.confirmPassword f) /\
  (In "email" (map fst (fst (SignupForm.validateForm f)))
     <-> Library.str_includes (SignupForm.email f) "@" = false) /\
  (~ valid ->
     SignupForm.auth st' = SignupForm.auth st /\
     SignupForm.toasts st' = SignupForm.toasts st /\
     SignupForm.errors st' = fst (SignupForm.validateForm f)) /\
  (valid -> all_whitespace (SignupForm.username f) = true ->
     AuthContext.posts (SignupForm.auth st') = AuthContext.posts (SignupForm.auth st) /\
     SignupForm.toasts st' =
       (SignupForm.toasts st ++ [SignupForm.ToastError "Username is required"])%list) /\
  (valid -> all_whitespace (SignupForm.username f) = false ->
     AuthContext.posts (SignupForm.auth st') =
       (AuthContext.posts (SignupForm.auth st)
          ++ [AuthContext.SignupPost
                (Js.trim (SignupForm.username f))
                (Js.toLowerCase (Js.trim (SignupForm.email f)))
                (SignupForm.password f)
                (Js.trim (SignupForm.firstName f))
                (Js.trim (SignupForm.lastName f))])%list /\
     SignupForm.errors st' = [] /\
     SignupForm.isLoading st' = false).
Proof.
  intros st' valid. subst st' valid.
  unfold SignupForm.handleSubmit, SignupForm.validateForm.
  destruct (Nat.ltb_spec (String.length (SignupForm.password f)) 8) as [Hshort | Hlong];
    destruct (String.eqb_spec (SignupForm.password f) (SignupForm.confirmPassword f))
      as [Heq | Hneq];
    destruct (Library.str_includes (SignupForm.email f) "@") eqn:Hat;
    cbn [negb app List.length Nat.eqb fst snd map];
    try (repeat split; intros; cbn in *;
         repeat match goal with
                | H : _ /\ _ |- _ => destruct H
                | H : _ \/ _ |- _ => destruct H
                end;
         try lia; try discriminate; try congruence; try tauto; fail).
  (* the form is valid *)
  assert (Hvalid : (8 <= String.length (SignupForm.password f))%nat /\
                   SignupForm.password f = SignupForm.confirmPassword f /\ true = true)
    by (repeat split; assumption).
  unfold AuthContext.signup. rewrite !blank_check.
  assert (Hmail : all_whitespace (SignupForm.email f) = false)
    by (apply includes_at_not_blank; exact Hat).
  assert (Hpw : negb (Js.truthy_string (SignupForm.password f))
                || (String.length (SignupForm.password f) <? 8)%nat = false).
  { destruct (SignupForm.password f) as [| c p]; [simpl in Hlong; lia |].
    cbn [Js.truthy_string negb orb]. apply Nat.ltb_ge. exact Hlong. }
  rewrite Hmail, Hpw, Hat. cbn [negb].
  split; [tauto |].
  split; [split; [intros [] | lia] |].
  split; [split; [intros [] | contradiction] |].
  split; [split; [intros [] | discriminate] |].
  split; [intros Hn; contradiction |].
  destruct (all_whitespace (SignupForm.username f)) eqn:Hu.
  - split; [| intros _ H; discriminate H]. intros _ _. cbn. split; reflexivity.
  - split; [intros _ H; discriminate H |]. intros _ _.
    set (st1 := AuthContext.add_post _ (SignupForm.auth st)).
    destruct (settle_cases "Signup failed" r st1)
      as [[m [Hs _]] | [data [a [t [_ [_ [_ [_ [_ [_ Hs]]]]]]]]]]; rewrite Hs; cbn;
      repeat split.
Qed.

Lemma signup_form_sends_normalized_data_witness :
  let f := {| SignupForm.username := " ada "; SignupForm.email := " Ada@Example.ORG ";
              SignupForm.password := "s3cret-pw"; SignupForm.confirmPassword := "s3cret-pw";
              SignupForm.firstName := "Ada "; SignupForm.lastName := "" |} in
  let st := {| SignupForm.errors := []; SignupForm.isLoading := false;
               SignupForm.toasts := [];
               SignupForm.auth :=
                 {| AuthContext.user := None; AuthContext.isAuthenticated := false;
                    AuthContext.store := []; AuthContext.posts := [] |} |} in
  AuthContext.posts
    (SignupForm.auth (SignupForm.handleSubmit f (AuthContext.Refused None) st))
  = [AuthContext.SignupPost "ada" "ada@example.org" "s3cret-pw" "Ada" ""].
Proof.
  intros f st.
  destruct (signup_form_sends_normalized_data f (AuthContext.Refused None) st)
    as [_ [_ [_ [_ [_ [_ Hsend]]]]]].
  destruct Hsend as [Hposts _]; [| reflexivity | exact Hposts].
  repeat split. simpl. lia.
Defined.
